(** * Py-Sort: the reversible file organizer of [py_sort.py]

    A shallow embedding of the organize / undo engine of [py_sort.py]:
    rule resolution, the JSON move log, the organize loop with its
    dry-run mode, and the undo replay, followed by the properties of
    the specification that concern them.

    The program runs against a model of its environment:
    - a string is a sequence of Unicode code points below 256 (ASCII
      and the Latin-1 supplement), on which [str.lower] and
      [str.strip] are the functions of Python;
    - paths are [pathlib.PurePosixPath] values (the anchor and the
      list of parts), parsed from and printed to strings;
    - the filesystem is a flat table from absolute part lists to nodes,
      kept in the order in which the operating system lists the entries
      ([Path.iterdir] yields them in that order).  Paths are resolved
      lexically against the working directory: there are no symbolic
      links, no permission bits, and a [..] part is an ordinary name,
      so an operation fails only for what the table holds (a missing
      source, a file where a directory is needed, ...);
    - the content of a file is what [json.load] makes of it;
    - standard input is the list of the lines still to be read
      ([input()] raises [EOFError] when it is empty), standard output
      the list of the messages printed so far;
    - what [logger.exception] records is appended to [error_log], the
      text of the file [py_sort.log] that the logger opened in the
      working directory and holds open; the table gives the place of
      that file as of any other, not its text;
    - the rules are the dictionary [load_sorting_rules] returned, typed
      as the source annotates it ([Dict[str, List[str]]]), with its
      items in iteration order. *)

From Stdlib Require Import List String Ascii ZArith Bool Arith Lia.
From Stdlib Require Import Sorted Permutation.
From Stdlib Require DecimalString DecimalNat.
Import ListNotations.
Set Warnings "-register-all".
Local Open Scope string_scope.
Local Open Scope list_scope.

(** ** Strings *)

Module Str.

(** A character is a Unicode code point below 256: ASCII and the
    Latin-1 supplement.  [str.lower] maps the cased letters among
    them, [A] to [Z] and U+00C0 to U+00DE without the sign U+00D7, to
    the letter 32 places on, and keeps every other one. *)
Definition lower_char (c : ascii) : ascii :=
  let n := nat_of_ascii c in
  if orb (andb (Nat.leb 65 n) (Nat.leb n 90))
         (andb (andb (Nat.leb 192 n) (Nat.leb n 222)) (negb (Nat.eqb n 215)))
  then ascii_of_nat (n + 32) else c.

Fixpoint lower (s : string) : string :=
  match s with
  | EmptyString => EmptyString
  | String c r => String (lower_char c) (lower r)
  end.

(** The characters [str.strip] removes, the white space of
    [str.isspace]: the blank, U+0009 to U+000D, U+001C to U+001F, the
    next-line control U+0085 and the no-break space U+00A0. *)
Definition is_space (c : ascii) : bool :=
  let n := nat_of_ascii c in
  orb (Nat.eqb n 32)
      (orb (andb (Nat.leb 9 n) (Nat.leb n 13))
           (orb (andb (Nat.leb 28 n) (Nat.leb n 31))
                (orb (Nat.eqb n 133) (Nat.eqb n 160)))).

Fixpoint lstrip (s : string) : string :=
  match s with
  | EmptyString => EmptyString
  | String c r => if is_space c then lstrip r else s
  end.

Fixpoint rev_onto (s acc : string) : string :=
  match s with
  | EmptyString => acc
  | String c r => rev_onto r (String c acc)
  end.

Definition rstrip (s : string) : string :=
  rev_onto (lstrip (rev_onto s EmptyString)) EmptyString.

Definition strip (s : string) : string := rstrip (lstrip s).

(** [c in s] for a character. *)
Fixpoint has_char (c : ascii) (s : string) : bool :=
  match s with
  | EmptyString => false
  | String d r => orb (Ascii.eqb d c) (has_char c r)
  end.

(** [s.split(sep)] for a one-character separator. *)
Fixpoint split_on (sep : ascii) (s : string) : list string :=
  match s with
  | EmptyString => [EmptyString]
  | String c r =>
      if Ascii.eqb c sep then EmptyString :: split_on sep r
      else match split_on sep r with
           | [] => [String c EmptyString]
           | h :: t => String c h :: t
           end
  end.

(** [sep.join(l)]. *)
Fixpoint join (sep : string) (l : list string) : string :=
  match l with
  | [] => EmptyString
  | [x] => x
  | x :: r => x ++ sep ++ join sep r
  end.

(** [s.startswith(c)]. *)
Definition starts_with (c : ascii) (s : string) : bool :=
  match s with
  | EmptyString => false
  | String d _ => Ascii.eqb d c
  end.

(** [x in l] for a list of strings. *)
Definition mem (x : string) (l : list string) : bool :=
  existsb (String.eqb x) l.

(** The part of [s] from its last [c] on, with the position of that
    [c] ([s.rfind(c)] and [s[i:]]); [None] when [c] does not occur. *)
Fixpoint rfind_from (c : ascii) (s : string) : option (nat * string) :=
  match s with
  | EmptyString => None
  | String d r =>
      match rfind_from c r with
      | Some (i, t) => Some (S i, t)
      | None => if Ascii.eqb d c then Some (0, s) else None
      end
  end.

End Str.

(** ** [pathlib] paths *)

Definition slash : ascii := "/"%char.
Definition dot : ascii := "."%char.

(** A [PurePosixPath]: its anchor and its parts below the anchor.
    The anchor is nothing for a relative path, the root [/], or the
    root [//] that POSIX keeps apart. *)
Inductive anchor := Relative | Root | DoubleRoot.

Record Path := mkPath { anchor_of : anchor; parts : list string }.

(** [p.is_absolute()]. *)
Definition is_absolute (p : Path) : bool :=
  match anchor_of p with Relative => false | _ => true end.

(** A part as the parser keeps it: not empty and not [.]. *)
Definition kept_part (s : string) : bool :=
  negb (orb (String.eqb s "") (String.eqb s ".")).

(** The string without its first character. *)
Definition rest_of (s : string) : string :=
  match s with
  | EmptyString => EmptyString
  | String _ r => r
  end.

(** [Path(s)].  Exactly two leading slashes make the root [//]; one
    slash, or three and more, the root [/]. *)
Definition Path_of (s : string) : Path :=
  {| anchor_of :=
       if Str.starts_with slash s then
         if andb (Str.starts_with slash (rest_of s))
                 (negb (Str.starts_with slash (rest_of (rest_of s))))
         then DoubleRoot else Root
       else Relative;
     parts := filter kept_part (Str.split_on slash s) |}.

(** [p / s]: an absolute right operand replaces the left one. *)
Definition joinpath (p : Path) (s : string) : Path :=
  let q := Path_of s in
  if is_absolute q then q
  else {| anchor_of := anchor_of p; parts := parts p ++ parts q |}.

(** [str(p)]. *)
Definition str (p : Path) : string :=
  match anchor_of p with
  | Root => String slash (Str.join "/" (parts p))
  | DoubleRoot => String slash (String slash (Str.join "/" (parts p)))
  | Relative =>
      match parts p with
      | [] => "."
      | _ => Str.join "/" (parts p)
      end
  end.

(** [p.name]: the last part, or the empty string. *)
Definition name (p : Path) : string := last (parts p) "".

(** [p.parent]. *)
Definition parent (p : Path) : Path :=
  {| anchor_of := anchor_of p; parts := removelast (parts p) |}.

(** [p.suffix]: the name from its last dot on, unless that dot opens
    or closes the name. *)
Definition suffix (p : Path) : string :=
  let n := name p in
  match Str.rfind_from dot n with
  | Some (i, t) =>
      if andb (Nat.ltb 0 i) (Nat.ltb i (String.length n - 1)) then t else ""
  | None => ""
  end.

(** ** JSON values and files *)

Inductive json :=
| JNull
| JBool (b : bool)
| JNum (z : Z)
| JStr (s : string)
| JArr (l : list json)
| JObj (items : list (string * json)).

(** A [dict] with string keys, as [json.load] builds one from an
    object: its items in insertion order. *)
Definition dict := list (string * json).

(** [d.get(k)]. *)
Fixpoint dict_get (k : string) (d : dict) : option json :=
  match d with
  | [] => None
  | (k', v) :: r => if String.eqb k' k then Some v else dict_get k r
  end.

(** What reading a file and [json.load] make of its bytes: text that
    is not JSON, a value, or bytes that are no text at all (reading
    them raises [UnicodeDecodeError]). *)
Inductive content :=
| NotJson
| Json (j : json)
| NotText.

Inductive node :=
| File (size : Z) (data : content)
| Dir.

(** ** The filesystem *)

Definition abspath := list string.
Definition filesystem := list (abspath * node).

Definition path_eqb (p q : abspath) : bool :=
  if list_eq_dec string_dec p q then true else false.

Fixpoint lookup (fs : filesystem) (p : abspath) : option node :=
  match fs with
  | [] => None
  | (q, n) :: r => if path_eqb q p then Some n else lookup r p
  end.

(** The root is always a directory. *)
Definition node_at (fs : filesystem) (p : abspath) : option node :=
  match p with
  | [] => Some Dir
  | _ => lookup fs p
  end.

Definition remove (p : abspath) (fs : filesystem) : filesystem :=
  filter (fun e => negb (path_eqb (fst e) p)) fs.

Definition put (p : abspath) (n : node) (fs : filesystem) : filesystem :=
  remove p fs ++ [(p, n)].

(** [strip_prefix pre p] is [Some rest] when [p = pre ++ rest]. *)
Fixpoint strip_prefix (pre p : abspath) : option abspath :=
  match pre, p with
  | [], _ => Some p
  | a :: pre', b :: p' => if String.eqb a b then strip_prefix pre' p' else None
  | _ :: _, [] => None
  end.

Definition is_prefix (pre p : abspath) : bool :=
  match strip_prefix pre p with Some _ => true | None => false end.

(** Moves the directory at [src], with all entries below it, to [dst]. *)
Definition rekey (src dst : abspath) (fs : filesystem) : filesystem :=
  map (fun e => match strip_prefix src (fst e) with
                | Some rest => (dst ++ rest, snd e)
                | None => e
                end) fs.

Definition fs_exists (fs : filesystem) (p : abspath) : bool :=
  match node_at fs p with Some _ => true | None => false end.

Definition fs_is_dir (fs : filesystem) (p : abspath) : bool :=
  match node_at fs p with Some Dir => true | _ => false end.

Definition fs_is_file (fs : filesystem) (p : abspath) : bool :=
  match node_at fs p with Some (File _ _) => true | _ => false end.

(** [os.rename] with the fallbacks of [shutil.move], towards a
    destination that is not an existing directory.  [None] stands for
    the [OSError] raised, with the filesystem as it was. *)
Definition rename_to (src real_dst : abspath) (fs : filesystem) : option filesystem :=
  match node_at fs src with
  | None => None
  | Some (File size data) =>
      if path_eqb src real_dst then Some fs
      else if fs_is_dir fs (removelast real_dst)
           then Some (put real_dst (File size data) (remove src fs))
           else None
  | Some Dir =>
      if is_prefix src real_dst then None
      else if fs_exists fs real_dst then None
      else if fs_is_dir fs (removelast real_dst)
           then Some (rekey src real_dst fs)
           else None
  end.

(** [mkdir(parents=True, exist_ok=True)], walking down from the root:
    a missing directory is created, an existing one is kept, a file in
    the way is an error. *)
Fixpoint mkdir_from (walked todo : abspath) (fs : filesystem) : option filesystem :=
  match todo with
  | [] => Some fs
  | c :: rest =>
      let p := walked ++ [c] in
      match node_at fs p with
      | Some Dir => mkdir_from p rest fs
      | Some (File _ _) => None
      | None => mkdir_from p rest (fs ++ [(p, Dir)])
      end
  end.

Definition mkdir_parents (p : abspath) (fs : filesystem) : option filesystem :=
  mkdir_from [] p fs.

(** The names of the entries directly inside [dir], in listing order. *)
Definition entry_name (dir : abspath) (e : abspath * node) : option string :=
  match strip_prefix dir (fst e) with
  | Some [n] => Some n
  | _ => None
  end.

Fixpoint listdir (dir : abspath) (fs : filesystem) : list string :=
  match fs with
  | [] => []
  | e :: r => match entry_name dir e with
              | Some n => n :: listdir dir r
              | None => listdir dir r
              end
  end.

(** ** The world the program runs in *)

(** What the program prints. *)
Inductive event :=
| AskRetry (action_desc : string)
| PleaseEnterYN
| CreatedFolder (folder : string)
| CannotCreateFolder (folder_path : string)
| DirectoryMissing (directory_path : string)
| NotADirectory (directory_path : string)
| NoFilesFound
| FoundFiles (n : nat)
| DryRunMode
| SkippedExists (file folder : string)
| WouldMove (file folder : string)
| Moved (file folder : string)
| CannotMove (file : string)
| ErrorProcessing (file : string)
| LogMalformed
| LogCorrupted
| LogReadError
| LogWriteError
| DryRunComplete (files would_move would_skip : nat)
| OrganizationComplete (moved : nat)
| FilesSkipped (skipped : nat)
| Statistics (moved : nat) (total_size : Z) (by_category : list (string * (nat * Z)))
| NoMoveLog
| MoveLogMalformed
| MoveLogNotJson
| MoveLogUnreadable
| NoMovesRecorded
| AskConfirm
| UndoCancelled
| SkippedInvalidPath (file : string)
| SkippedOccupied (file : string)
| CreatingParent (file : string)
| CannotCreateParent (file : string)
| Restored (file : string)
| CannotRestore (file : string)
| SkippedNotFound (file : string)
| UndoComplete (restored : nat)
| UndoSkipped (skipped : nat).

Record World := mkWorld {
  fs : filesystem;
  cwd : abspath;                 (* the working directory *)
  stdin : list string;           (* the lines [input()] will return *)
  stdout : list event;
  clock : nat;                   (* calls of [datetime.now()] so far *)
  isoformat_at : nat -> string;  (* the timestamp each call returns *)
  dumped_size : json -> Z;       (* the length of what [json.dump] writes *)
  error_log : list string        (* the messages [logger.exception] recorded *)
}.

Definition set_fs (f : filesystem) (w : World) : World :=
  mkWorld f (cwd w) (stdin w) (stdout w) (clock w) (isoformat_at w) (dumped_size w)
          (error_log w).

Definition set_stdin (l : list string) (w : World) : World :=
  mkWorld (fs w) (cwd w) l (stdout w) (clock w) (isoformat_at w) (dumped_size w)
          (error_log w).

Definition print (e : event) (w : World) : World :=
  mkWorld (fs w) (cwd w) (stdin w) (stdout w ++ [e]) (clock w) (isoformat_at w) (dumped_size w)
          (error_log w).

Definition prints (l : list event) (w : World) : World :=
  mkWorld (fs w) (cwd w) (stdin w) (stdout w ++ l) (clock w) (isoformat_at w) (dumped_size w)
          (error_log w).

(** [logger.exception(message)]: the message, with the traceback that
    goes with it, is appended to the file the logger holds open. *)
Definition log_exception (message : string) (w : World) : World :=
  mkWorld (fs w) (cwd w) (stdin w) (stdout w) (clock w) (isoformat_at w) (dumped_size w)
          (error_log w ++ [message]).

(** [datetime.now().isoformat()]. *)
Definition now_isoformat (w : World) : string * World :=
  (isoformat_at w (clock w),
   mkWorld (fs w) (cwd w) (stdin w) (stdout w) (S (clock w)) (isoformat_at w) (dumped_size w)
           (error_log w)).

(** The absolute location a path denotes, for a path the operating
    system resolves as it is written: a relative one is taken from
    the working directory, and the parts are walked down as they
    are.  A [..] part, on which the system would walk up, is not
    interpreted: the properties below that depend on it take their
    paths without such parts ([lexical]). *)
Definition resolve (w : World) (p : Path) : abspath :=
  if is_absolute p then parts p else cwd w ++ parts p.

Definition exists_ (w : World) (p : Path) : bool := fs_exists (fs w) (resolve w p).
Definition is_dir (w : World) (p : Path) : bool := fs_is_dir (fs w) (resolve w p).
Definition is_file (w : World) (p : Path) : bool := fs_is_file (fs w) (resolve w p).

(** [p.stat().st_size]; [None] when there is nothing at [p].  The size
    of a directory is not modelled. *)
Definition st_size (w : World) (p : Path) : option Z :=
  match node_at (fs w) (resolve w p) with
  | Some (File size _) => Some size
  | Some Dir => Some 0%Z
  | None => None
  end.

(** The entry [n] of the directory [p], as [iterdir] builds it. *)
Definition child_path (p : Path) (n : string) : Path :=
  mkPath (anchor_of p) (parts p ++ [n]).

(** [p.iterdir()]: the children of [p], as paths below [p]. *)
Definition iterdir (w : World) (p : Path) : list Path :=
  map (child_path p) (listdir (resolve w p) (fs w)).

(** [p.mkdir(parents=True, exist_ok=True)]. *)
Definition mkdir (w : World) (p : Path) : option World :=
  match mkdir_parents (resolve w p) (fs w) with
  | Some f => Some (set_fs f w)
  | None => None
  end.

(** [shutil.move] on the table: a destination that is a directory
    receives the source under its own name. *)
Definition move_fs (f : filesystem) (src_parts : list string) (s d : abspath)
  : option filesystem :=
  if fs_is_dir f d then
    match src_parts with
    | [] => None
    | _ =>
        if path_eqb s d then Some f
        else let real_dst := d ++ [last src_parts ""] in
             if fs_exists f real_dst then None
             else rename_to s real_dst f
    end
  else rename_to s d f.

(** [shutil.move(str(src), str(dst))]. *)
Definition shutil_move (w : World) (src dst : Path) : option World :=
  match move_fs (fs w) (parts src) (resolve w src) (resolve w dst) with
  | Some f => Some (set_fs f w)
  | None => None
  end.

(** [open(p, 'r')] followed by [json.load]. *)
Inductive loaded :=
| Loaded (j : json)
| DecodeError
| ReadError.

Definition load_json (w : World) (p : Path) : loaded :=
  match node_at (fs w) (resolve w p) with
  | Some (File _ (Json j)) => Loaded j
  | Some (File _ NotJson) => DecodeError
  | Some (File _ NotText) => ReadError
  | _ => ReadError
  end.

(** [open(p, 'w')] followed by [json.dump]. *)
Definition dump_json (w : World) (p : Path) (j : json) : option World :=
  let q := resolve w p in
  let written := set_fs (put q (File (dumped_size w j) (Json j)) (fs w)) w in
  match node_at (fs w) q with
  | Some Dir => None
  | Some (File _ _) => Some written
  | None => if fs_is_dir (fs w) (removelast q) then Some written else None
  end.

(** ** Exceptions *)

Inductive exn :=
| EOFError      (* [input()] at the end of standard input *)
| TypeError     (* [Path(x)] for an [x] that is not a string *)
| OutOfFuel.    (* a retry loop cut short; see [*_enough_fuel] *)

Inductive Res (A : Type) :=
| Ret (a : A) (w : World)
| Exc (e : exn) (w : World).
Arguments Ret {A} a w.
Arguments Exc {A} e w.

(** ** The program *)

(** The name of the move log inside an organized directory. *)
Definition move_log_name : string := "py_sort_moves.json".
Definition error_log_name : string := "py_sort.log".

Definition quoted (what s : string) : string := what ++ " '" ++ s ++ "'".

(** [input(...).strip().lower()] read as an answer to [Retry? (y/n)]. *)
Definition retry_answer (line : string) : option bool :=
  let response := Str.lower (Str.strip line) in
  if Str.mem response ["y"; "yes"] then Some true
  else if Str.mem response ["n"; "no"] then Some false
  else None.

Fixpoint prompt_retry_from (action_desc : string) (lines : list string) (w : World)
  : Res bool :=
  match lines with
  | [] => Exc EOFError (set_stdin [] (print (AskRetry action_desc) w))
  | line :: rest =>
      let w1 := set_stdin rest (print (AskRetry action_desc) w) in
      match retry_answer line with
      | Some b => Ret b w1
      | None => prompt_retry_from action_desc rest (print PleaseEnterYN w1)
      end
  end.

Definition prompt_retry (action_desc : string) (w : World) : Res bool :=
  prompt_retry_from action_desc (stdin w) w.

Definition sorting_rules := list (string * list string).

Definition get_default_sorting_rules : sorting_rules :=
  [ ("Images", [".jpg"; ".jpeg"; ".png"; ".gif"; ".bmp"; ".svg"; ".webp"; ".tiff"; ".ico"; ".raw";
                ".heic"; ".heif"; ".cr2"; ".nef"; ".arw"; ".dng"; ".psd"]);
    ("Documents", [".pdf"; ".doc"; ".docx"; ".txt"; ".rtf"; ".odt"; ".pages"; ".md"; ".tex";
                   ".epub"; ".mobi"; ".azw"; ".azw3"; ".log"]);
    ("Videos", [".mp4"; ".avi"; ".mov"; ".wmv"; ".flv"; ".webm"; ".mkv"; ".m4v"; ".3gp";
                ".mpg"; ".mpeg"; ".vob"; ".ogv"]);
    ("Audio", [".mp3"; ".wav"; ".flac"; ".aac"; ".ogg"; ".m4a"; ".wma"; ".opus"; ".aiff";
               ".au"; ".mid"; ".midi"]);
    ("Archives", [".zip"; ".rar"; ".7z"; ".tar"; ".gz"; ".bz2"; ".xz"; ".tar.gz"; ".tar.bz2";
                  ".cab"; ".iso"; ".img"]);
    ("Code", [".py"; ".js"; ".html"; ".css"; ".java"; ".cpp"; ".c"; ".php"; ".rb"; ".go";
              ".rs"; ".ts"; ".jsx"; ".tsx"; ".swift"; ".kt"; ".scala"; ".sh"; ".bash";
              ".json"; ".xml"; ".yaml"; ".yml"; ".sql"]);
    ("Spreadsheets", [".xls"; ".xlsx"; ".csv"; ".ods"; ".numbers"; ".tsv"; ".xlsm"]);
    ("Presentations", [".ppt"; ".pptx"; ".odp"; ".key"; ".pps"; ".ppsx"]);
    ("Executables", [".exe"; ".msi"; ".deb"; ".rpm"; ".dmg"; ".app"; ".apk"; ".jar"]) ].

(** The [while True] of [create_folder_if_not_exists]; every further
    turn has read at least one line of standard input. *)
Fixpoint create_folder_loop (fuel : nat) (folder_path : Path) (w : World) : Res unit :=
  match fuel with
  | O => Exc OutOfFuel w
  | S fuel' =>
      if exists_ w folder_path then Ret tt w
      else
        match mkdir w folder_path with
        | Some w1 => Ret tt (print (CreatedFolder (name folder_path)) w1)
        | None =>
            let w1 := print (CannotCreateFolder (str folder_path))
                            (log_exception ("OS error creating folder " ++ str folder_path)
                                           w) in
            match prompt_retry (quoted "Cannot create folder" (str folder_path)) w1 with
            | Ret true w2 => create_folder_loop fuel' folder_path w2
            | Ret false w2 => Ret tt w2
            | Exc e w2 => Exc e w2
            end
        end
  end.

Definition create_folder_if_not_exists (folder_path : Path) (w : World) : Res unit :=
  create_folder_loop (S (List.length (stdin w))) folder_path w.

Definition get_file_extension (file_path : Path) : string :=
  Str.lower (suffix file_path).

Fixpoint find_target_folder (file_extension : string) (rules : sorting_rules) : string :=
  match rules with
  | [] => "Other"
  | (folder_name, extensions) :: rest =>
      if Str.mem file_extension extensions then folder_name
      else find_target_folder file_extension rest
  end.

(** The record [log_move] appends. *)
Definition move_items (timestamp : string) (original_path new_path : Path) : dict :=
  [("timestamp", JStr timestamp);
   ("original", JStr (str original_path));
   ("new", JStr (str new_path))].

Definition move_record (timestamp : string) (original_path new_path : Path) : json :=
  JObj (move_items timestamp original_path new_path).

(** The first half of [log_move]: the moves already in the log, an
    unreadable log counting as empty. *)
Definition load_moves (log_file : Path) (w : World) : list json * World :=
  if exists_ w log_file then
    match load_json w log_file with
    | Loaded (JArr moves) => (moves, w)
    | Loaded _ => ([], print LogMalformed w)
    | DecodeError => ([], print LogCorrupted w)
    | ReadError =>
        ([], print LogReadError
               (log_exception ("Error reading move log " ++ str log_file) w))
    end
  else ([], w).

Definition log_move (directory original_path new_path : Path) (w : World) : World :=
  let log_file := joinpath directory move_log_name in
  let '(moves, w1) := load_moves log_file w in
  let '(timestamp, w2) := now_isoformat w1 in
  let moves' := moves ++ [move_record timestamp original_path new_path] in
  match dump_json w2 log_file (JArr moves') with
  | Some w3 => w3
  | None =>
      print LogWriteError
            (log_exception ("Error writing to move log " ++ str log_file) w2)
  end.

(** The counters of one [organize_files] run. *)
Record Stats := mkStats {
  moved_count : nat;
  skipped_count : nat;
  total_size : Z;
  category_stats : list (string * (nat * Z))
}.

Definition no_stats : Stats := mkStats 0 0 0%Z [].

Definition skip (st : Stats) : Stats :=
  mkStats (moved_count st) (S (skipped_count st)) (total_size st) (category_stats st).

(** [setdefault] of the category and the two [+=] on it. *)
Fixpoint count_in_category (folder : string) (size : Z) (cs : list (string * (nat * Z)))
  : list (string * (nat * Z)) :=
  match cs with
  | [] => [(folder, (1, size))]
  | (k, (n, s)) :: r =>
      if String.eqb k folder then (k, (S n, (s + size)%Z)) :: r
      else (k, (n, s)) :: count_in_category folder size r
  end.

Definition count_move (folder : string) (size : Z) (st : Stats) : Stats :=
  mkStats (S (moved_count st)) (skipped_count st) (total_size st + size)%Z
          (count_in_category folder size (category_stats st)).

(** The inner [while True] of [organize_files]: move, log, count; on
    failure ask whether to retry. *)
Fixpoint move_loop (fuel : nat) (directory file_path target_file_path : Path)
    (target_folder : string) (file_size : Z) (st : Stats) (w : World) : Res Stats :=
  match fuel with
  | O => Exc OutOfFuel w
  | S fuel' =>
      match shutil_move w file_path target_file_path with
      | Some w1 =>
          let w2 := print (Moved (name file_path) target_folder) w1 in
          let w3 := log_move directory file_path target_file_path w2 in
          Ret (count_move target_folder file_size st) w3
      | None =>
          let w1 := print (CannotMove (name file_path))
                          (log_exception ("OS error moving " ++ str file_path) w) in
          match prompt_retry (quoted "Cannot move" (name file_path)) w1 with
          | Ret true w2 =>
              move_loop fuel' directory file_path target_file_path target_folder file_size st w2
          | Ret false w2 => Ret (skip st) w2
          | Exc e w2 => Exc e w2
          end
      end
  end.

(** The handler of the [try] in the loop of [organize_files]. *)
Definition error_processing (file_path : Path) (w : World) : World :=
  log_exception ("Error processing " ++ str file_path)
                (print (ErrorProcessing (name file_path)) w).

(** The body of the [for] loop of [organize_files], with its
    [try ... except Exception]. *)
Definition organize_file (directory : Path) (dry_run : bool) (rules : sorting_rules)
    (file_path : Path) (st : Stats) (w : World) : Stats * World :=
  let file_extension := get_file_extension file_path in
  let target_folder := find_target_folder file_extension rules in
  match st_size w file_path with
  | None => (skip st, error_processing file_path w)
  | Some file_size =>
      let target_dir := joinpath directory target_folder in
      let target_file_path := joinpath target_dir (name file_path) in
      if exists_ w target_file_path then
        (skip st, print (SkippedExists (name file_path) target_folder) w)
      else if dry_run then
        (count_move target_folder file_size st,
         print (WouldMove (name file_path) target_folder) w)
      else
        match create_folder_if_not_exists target_dir w with
        | Exc _ w1 => (skip st, error_processing file_path w1)
        | Ret _ w1 =>
            match move_loop (S (List.length (stdin w1))) directory file_path target_file_path
                            target_folder file_size st w1 with
            | Ret st' w2 => (st', w2)
            | Exc _ w2 => (skip st, error_processing file_path w2)
            end
        end
  end.

Fixpoint organize_loop (directory : Path) (dry_run : bool) (rules : sorting_rules)
    (files : list Path) (st : Stats) (w : World) : Stats * World :=
  match files with
  | [] => (st, w)
  | file_path :: rest =>
      let '(st', w') := organize_file directory dry_run rules file_path st w in
      organize_loop directory dry_run rules rest st' w'
  end.

(** The list comprehension building [files_to_organize]. *)
Definition files_to_organize (directory : Path) (w : World) : list Path :=
  filter (fun f => andb (is_file w f)
                        (negb (Str.mem (name f) [error_log_name; move_log_name])))
         (iterdir w directory).

(** [sorted(category_stats.items(), key=count, reverse=True)]: stable,
    by decreasing count. *)
Fixpoint insert_by_count (x : string * (nat * Z)) (l : list (string * (nat * Z)))
  : list (string * (nat * Z)) :=
  match l with
  | [] => [x]
  | y :: r => if Nat.ltb (fst (snd y)) (fst (snd x)) then x :: l
              else y :: insert_by_count x r
  end.

Definition sorted_categories (cs : list (string * (nat * Z))) : list (string * (nat * Z)) :=
  fold_left (fun acc x => insert_by_count x acc) cs [].

(** The summary printed after the loop. *)
Definition print_summary (dry_run show_stats : bool) (files : nat) (st : Stats) (w : World)
  : World :=
  if dry_run then print (DryRunComplete files (moved_count st) (skipped_count st)) w
  else
    let w1 := print (OrganizationComplete (moved_count st)) w in
    let w2 := if Nat.ltb 0 (skipped_count st) then print (FilesSkipped (skipped_count st)) w1
              else w1 in
    if andb show_stats (Nat.ltb 0 (moved_count st))
    then print (Statistics (moved_count st) (total_size st)
                           (sorted_categories (category_stats st))) w2
    else w2.

(** [organize_files] up to the end of its loop: [None] when it returns
    before the loop. *)
Definition organize_run (directory_path : string) (dry_run : bool) (rules : sorting_rules)
    (w : World) : option (nat * Stats) * World :=
  let directory := Path_of directory_path in
  if negb (exists_ w directory) then (None, print (DirectoryMissing directory_path) w)
  else if negb (is_dir w directory) then (None, print (NotADirectory directory_path) w)
  else
    let files := files_to_organize directory w in
    match files with
    | [] => (None, print NoFilesFound w)
    | _ =>
        let w1 := print (FoundFiles (List.length files)) w in
        let w2 := if dry_run then print DryRunMode w1 else w1 in
        let '(st, w3) := organize_loop directory dry_run rules files no_stats w2 in
        (Some (List.length files, st), w3)
    end.

(** [organize_files], for the rules that its call of
    [load_sorting_rules] returned.  That call comes after the two
    checks on the directory and before the files are listed; what it
    prints and what the logger records for it are given by
    [load_sorting_rules] below and are not repeated here. *)
Definition organize_files (directory_path : string) (dry_run : bool) (rules : sorting_rules)
    (show_stats : bool) (w : World) : World :=
  match organize_run directory_path dry_run rules w with
  | (None, w') => w'
  | (Some (files, st), w') => print_summary dry_run show_stats files st w'
  end.

(** [Path(x)] for a value taken from the log: only a string is a path. *)
Definition path_arg (x : json) (w : World) : Res Path :=
  match x with
  | JStr s => Ret (Path_of s) w
  | _ => Exc TypeError w
  end.

(** [move.get(key, '')]. *)
Definition get_or_empty (key : string) (move : dict) : json :=
  match dict_get key move with
  | Some v => v
  | None => JStr ""
  end.

(** [all(isinstance(m, dict) for m in moves)], with the dicts. *)
Fixpoint all_dicts (moves : list json) : option (list dict) :=
  match moves with
  | [] => Some []
  | JObj items :: rest =>
      match all_dicts rest with
      | Some ds => Some (items :: ds)
      | None => None
      end
  | _ :: _ => None
  end.

(** The [while True] of [undo_organization]: move back; on failure ask
    whether to retry.  The counters are [(restored_count, skipped_count)]. *)
Fixpoint restore_loop (fuel : nat) (new_path original_path : Path)
    (counts : nat * nat) (w : World) : Res (nat * nat) :=
  match fuel with
  | O => Exc OutOfFuel w
  | S fuel' =>
      match shutil_move w new_path original_path with
      | Some w1 => Ret (S (fst counts), snd counts) (print (Restored (name new_path)) w1)
      | None =>
          let w1 := print (CannotRestore (name new_path))
                          (log_exception ("OS error restoring " ++ str new_path) w) in
          match prompt_retry (quoted "Cannot restore" (name new_path)) w1 with
          | Ret true w2 => restore_loop fuel' new_path original_path counts w2
          | Ret false w2 => Ret (fst counts, S (snd counts)) w2
          | Exc e w2 => Exc e w2
          end
      end
  end.

(** The body of the [for move in reversed(moves)] loop. *)
Definition undo_move (move : dict) (counts : nat * nat) (w : World) : Res (nat * nat) :=
  match path_arg (get_or_empty "original" move) w with
  | Exc e w' => Exc e w'
  | Ret original_path _ =>
      match path_arg (get_or_empty "new" move) w with
      | Exc e w' => Exc e w'
      | Ret new_path _ =>
          let skipped := (fst counts, S (snd counts)) in
          if orb (negb (is_absolute original_path)) (negb (is_absolute new_path)) then
            Ret skipped (print (SkippedInvalidPath (name new_path)) w)
          else if exists_ w new_path then
            if exists_ w original_path then
              Ret skipped (print (SkippedOccupied (name new_path)) w)
            else if negb (exists_ w (parent original_path)) then
              let w1 := print (CreatingParent (name new_path)) w in
              match mkdir w1 (parent original_path) with
              | None => Ret skipped (print (CannotCreateParent (name new_path)) w1)
              | Some w2 =>
                  restore_loop (S (List.length (stdin w2))) new_path original_path counts w2
              end
            else restore_loop (S (List.length (stdin w))) new_path original_path counts w
          else Ret skipped (print (SkippedNotFound (name new_path)) w)
      end
  end.

Fixpoint undo_loop (moves : list dict) (counts : nat * nat) (w : World) : Res (nat * nat) :=
  match moves with
  | [] => Ret counts w
  | move :: rest =>
      match undo_move move counts w with
      | Ret counts' w' => undo_loop rest counts' w'
      | Exc e w' => Exc e w'
      end
  end.

(** [undo_organization] up to the end of its loop: [None] when it
    returns before the loop. *)
Definition undo_run (directory_path : string) (w : World) : Res (option (nat * nat)) :=
  let directory := Path_of directory_path in
  if negb (exists_ w directory) then Ret None (print (DirectoryMissing directory_path) w)
  else if negb (is_dir w directory) then Ret None (print (NotADirectory directory_path) w)
  else
    let log_file := joinpath directory move_log_name in
    if negb (exists_ w log_file) then Ret None (print NoMoveLog w)
    else
      match load_json w log_file with
      | DecodeError => Ret None (print MoveLogNotJson w)
      | ReadError =>
          Ret None (print MoveLogUnreadable
                      (log_exception ("Unexpected error loading move log " ++ str log_file)
                                     w))
      | Loaded (JArr moves) =>
          match all_dicts moves with
          | None => Ret None (print MoveLogMalformed w)
          | Some [] => Ret None (print NoMovesRecorded w)
          | Some dicts =>
              let w1 := print AskConfirm w in
              match stdin w1 with
              | [] => Exc EOFError w1
              | line :: rest =>
                  let w2 := set_stdin rest w1 in
                  if String.eqb (Str.lower (Str.strip line)) "y" then
                    match undo_loop (rev dicts) (0, 0) w2 with
                    | Ret counts w3 => Ret (Some counts) w3
                    | Exc e w3 => Exc e w3
                    end
                  else Ret None (print UndoCancelled w2)
              end
          end
      | Loaded _ => Ret None (print MoveLogMalformed w)
      end.

Definition undo_organization (directory_path : string) (w : World) : Res unit :=
  match undo_run directory_path w with
  | Ret None w' => Ret tt w'
  | Ret (Some (restored, skipped)) w' =>
      let w1 := print (UndoComplete restored) w' in
      Ret tt (if Nat.ltb 0 skipped then print (UndoSkipped skipped) w1 else w1)
  | Exc e w' => Exc e w'
  end.

(** [main], after argument parsing: [directory] defaults to ["."]. *)
Definition main (directory : option string) (dry_run undo show_stats : bool)
    (rules : sorting_rules) (w : World) : Res unit :=
  let directory := match directory with Some d => d | None => "." end in
  if undo then undo_organization directory w
  else Ret tt (organize_files directory dry_run rules show_stats w).

(** ** The rest of the program *)

(** *** [load_sorting_rules] *)

(** What [load_sorting_rules] reports when it falls back to the
    built-in rules: a warning for a missing file; for the two others
    an error message, with a record of the logger. *)
Inductive config_message :=
| ConfigNotFound (config_path : string)
| ConfigInvalidJson (config_path : string)
| ConfigUnexpectedError (config_path : string).

(** The dictionary of the rules as a JSON value. *)
Definition rules_to_json (rules : sorting_rules) : json :=
  JObj (map (fun r => (fst r, JArr (map JStr (snd r)))) rules).

(** Whether a path string asks for a directory: it ends with a slash
    or with a [.] component. *)
Definition asks_for_directory (s : string) : bool :=
  negb (kept_part (last (Str.split_on slash s) ".")).

(** Whether a file stands where the path needs a directory. *)
Definition blocked_by_file (f : filesystem) (q : abspath) : bool :=
  existsb (fun k => fs_is_file f (firstn k q)) (seq 1 (List.length q - 1)).

(** [open(config_path, 'r')] followed by [json.load], with the three
    handlers of [load_sorting_rules].  The function prints and returns;
    what it prints is returned beside the rules. *)
Definition load_sorting_rules (config_path : string) (w : World)
  : json * list config_message :=
  let defaults := rules_to_json get_default_sorting_rules in
  let q := resolve w (Path_of config_path) in
  if String.eqb config_path EmptyString then (defaults, [ConfigNotFound config_path])
  else
    match node_at (fs w) q with
    | None =>
        if blocked_by_file (fs w) q then (defaults, [ConfigUnexpectedError config_path])
        else (defaults, [ConfigNotFound config_path])
    | Some Dir => (defaults, [ConfigUnexpectedError config_path])
    | Some (File _ data) =>
        if asks_for_directory config_path
        then (defaults, [ConfigUnexpectedError config_path])
        else match data with
             | Json j => (j, [])
             | NotJson => (defaults, [ConfigInvalidJson config_path])
             | NotText => (defaults, [ConfigUnexpectedError config_path])
             end
    end.

(** *** [rename_file] *)

Module Rename.

(** [s.replace(old, new)] for a non-empty [old]: [skip] characters of
    an occurrence already replaced are still to be passed over. *)
Fixpoint replace_from (old new : string) (skip : nat) (s : string) : string :=
  match s with
  | EmptyString => EmptyString
  | String c r =>
      match skip with
      | S k => replace_from old new k r
      | O =>
          if String.prefix old s
          then new ++ replace_from old new (String.length old - 1) r
          else String c (replace_from old new 0 r)
      end
  end.

Definition replace (old new s : string) : string := replace_from old new 0 s.

(** [s.encode('ascii', 'ignore').decode()]: the characters that are
    not ASCII are dropped. *)
Fixpoint encode_ascii_ignore (s : string) : string :=
  match s with
  | EmptyString => EmptyString
  | String c r =>
      if Nat.ltb (nat_of_ascii c) 128 then String c (encode_ascii_ignore r)
      else encode_ascii_ignore r
  end.

(** [\w], [\s] and [-]: what [re.sub(r'[^\w\s-]', '', s)] keeps.  A
    word character is [_] or alphanumeric: the ASCII digits and
    letters and, in the Latin-1 supplement, the letters, the
    superscript digits and the fractions. *)
Definition is_word (c : ascii) : bool :=
  let n := nat_of_ascii c in
  orb (andb (Nat.leb 48 n) (Nat.leb n 57))
      (orb (andb (Nat.leb 65 n) (Nat.leb n 90))
           (orb (andb (Nat.leb 97 n) (Nat.leb n 122))
                (orb (Nat.eqb n 95)
                     (orb (existsb (Nat.eqb n) [170; 178; 179; 181; 185; 186; 188; 189; 190])
                          (andb (Nat.leb 192 n)
                                (negb (orb (Nat.eqb n 215) (Nat.eqb n 247)))))))).

Definition kept_char (c : ascii) : bool :=
  orb (is_word c) (orb (Str.is_space c) (Nat.eqb (nat_of_ascii c) 45)).

Fixpoint sub_unwanted (s : string) : string :=
  match s with
  | EmptyString => EmptyString
  | String c r => if kept_char c then String c (sub_unwanted r) else sub_unwanted r
  end.

(** [s.replace(' ', '_')]. *)
Fixpoint spaces_to_underscores (s : string) : string :=
  match s with
  | EmptyString => EmptyString
  | String c r =>
      String (if Nat.eqb (nat_of_ascii c) 32 then "_"%char else c) (spaces_to_underscores r)
  end.

(** [str(counter)]. *)
Definition decimal (n : nat) : string :=
  DecimalString.NilEmpty.string_of_uint (Nat.to_uint n).

(** [p.stem]: the name without its suffix. *)
Definition stem (p : Path) : string :=
  let n := name p in
  match Str.rfind_from dot n with
  | Some (i, _) =>
      if andb (Nat.ltb 0 i) (Nat.ltb i (String.length n - 1)) then String.substring 0 i n
      else n
  | None => n
  end.

(** The [while candidate in existing_names] loop, on the candidate
    and the counter it has reached.  Each turn tries a name not tried
    before, so the turns are bounded by the names in the set. *)
Fixpoint first_free (fuel : nat) (new_name ext : string) (existing_names : list string)
    (counter : nat) (candidate : string) : option string :=
  match fuel with
  | O => None
  | S fuel' =>
      if Str.mem candidate existing_names
      then first_free fuel' new_name ext existing_names (S counter)
                      (new_name ++ "_" ++ decimal counter ++ ext)
      else Some candidate
  end.

(** [rename_file(file_path, pattern, existing_names)]: the new name
    and the set with that name added.  [nfkd] stands for
    [unicodedata.normalize('NFKD', _)], of whose result the encoding
    keeps the ASCII characters only, and [date] for
    [datetime.now().strftime("%Y-%m-%d_%H-%M-%S")]. *)
Definition rename_file (nfkd : string -> string) (date : string)
    (file_path : Path) (pattern : string) (existing_names : list string)
  : option (string * list string) :=
  let name_ := stem file_path in
  let ext := suffix file_path in
  let clean_name :=
    Str.lower (spaces_to_underscores
                 (sub_unwanted (encode_ascii_ignore (nfkd name_)))) in
  let new_name := replace "{date}" date pattern in
  let new_name := replace "{clean}" clean_name new_name in
  let new_name := replace "{lower}" (Str.lower name_) new_name in
  match first_free (S (S (List.length existing_names))) new_name ext existing_names 1
                   (new_name ++ ext) with
  | Some candidate => Some (candidate, candidate :: existing_names)
  | None => None
  end.

End Rename.

(** ** Vocabulary of the properties *)

(** A name a directory entry can bear: not empty, not [.] or [..],
    and free of separators. *)
Definition valid_name (s : string) : bool :=
  andb (kept_part s) (andb (negb (String.eqb s "..")) (negb (Str.has_char slash s))).

(** A part as [Path_of] produces them. *)
Definition clean_part (s : string) : bool :=
  andb (kept_part s) (negb (Str.has_char slash s)).

(** What a change of the table may do to an entry: keep it, or put a
    new directory where there was nothing. *)
Definition kept_or_new_dir (f f' : filesystem) (q : abspath) : Prop :=
  node_at f' q = node_at f q \/ (node_at f q = None /\ node_at f' q = Some Dir).

Definition only_new_dirs (f f' : filesystem) : Prop :=
  forall q, kept_or_new_dir f f' q.

(** The path [organize_file] computes for a file. *)
Definition target_of (directory : Path) (rules : sorting_rules) (file_path : Path) : Path :=
  joinpath (joinpath directory (find_target_folder (get_file_extension file_path) rules))
           (name file_path).

(** A path value of the log that [Path] accepts: a string, or none. *)
Definition string_or_missing (key : string) (move : dict) : Prop :=
  match dict_get key move with
  | Some (JStr _) | None => True
  | Some _ => False
  end.

(** The messages that report a failure of the filesystem, a declined
    retry, or an exception caught while a file was processed. *)
Definition is_error (e : event) : bool :=
  match e with
  | CannotCreateFolder _ | CannotMove _ | ErrorProcessing _ => true
  | _ => false
  end.

(** What was printed between two worlds of one run. *)
Definition printed_since (w w' : World) : list event :=
  skipn (List.length (stdout w)) (stdout w').

(** The world a call leaves, returning or raising. *)
Definition res_world {A : Type} (r : Res A) : World :=
  match r with
  | Ret _ w => w
  | Exc _ w => w
  end.

(** How a run changes the world whatever it does: the working
    directory stays, and output is only added. *)
Definition evolves (w w' : World) : Prop :=
  cwd w' = cwd w /\ exists printed, stdout w' = stdout w ++ printed.

(** The moves a log at [l] holds, as [load_moves] reads them. *)
Definition logged_moves (f : filesystem) (l : abspath) : list json :=
  match node_at f l with
  | Some (File _ (Json (JArr moves))) => moves
  | _ => []
  end.

(** Whether [open(l, 'w')] succeeds. *)
Definition can_write (f : filesystem) (l : abspath) : bool :=
  match node_at f l with
  | Some Dir => false
  | Some (File _ _) => true
  | None => fs_is_dir f (removelast l)
  end.

(** A table in which no location is listed twice and every name is
    one a directory entry can bear. *)
Definition well_formed (f : filesystem) : Prop :=
  NoDup (map fst f) /\
  forall k n, In (k, n) f -> Forall (fun s => valid_name s = true) k.

(** Category names that are plain folder names. *)
Definition plain_categories (rules : sorting_rules) : Prop :=
  forall folder extensions, In (folder, extensions) rules -> valid_name folder = true.

(** What making the folder [c] inside [r] may do to the table: every
    entry is kept or is a new directory, and inside [r] nothing changes
    but at [c] itself. *)
Definition made_folder (r : abspath) (c : string) (f f' : filesystem) : Prop :=
  only_new_dirs f f' /\
  forall x, x <> [] -> x <> [c] -> node_at f' (r ++ x) = node_at f (r ++ x).

(** Decision procedures for the two conditions above. *)
Fixpoint no_dup_paths (l : list abspath) : bool :=
  match l with
  | [] => true
  | p :: r => andb (negb (existsb (path_eqb p) r)) (no_dup_paths r)
  end.

Definition well_formedb (f : filesystem) : bool :=
  andb (no_dup_paths (map fst f))
       (forallb (fun e => forallb valid_name (fst e)) f).

Definition plain_categoriesb (rules : sorting_rules) : bool :=
  forallb (fun r => valid_name (fst r)) rules.

(** Category names that are plain folder names other than the name of
    the move log. *)
Definition proper_categories (rules : sorting_rules) : Prop :=
  forall folder extensions, In (folder, extensions) rules ->
    valid_name folder = true /\ folder <> move_log_name.

Definition proper_categoriesb (rules : sorting_rules) : bool :=
  forallb (fun r => andb (valid_name (fst r)) (negb (String.eqb (fst r) move_log_name))) rules.

(** The category of the entry [n] of a directory. *)
Definition category_of (directory : Path) (rules : sorting_rules) (n : string) : string :=
  find_target_folder (get_file_extension (child_path directory n)) rules.

(** The items of the record logged for the entry [n]. *)
Definition logged_as (directory : Path) (rules : sorting_rules) (n : string) (d : dict)
  : Prop :=
  exists timestamp,
    d = move_items timestamp (child_path directory n)
          (child_path (child_path directory (category_of directory rules n)) n).

(** The log at [l]: absent with nothing logged, or a file holding the
    records. *)
Definition log_state (f : filesystem) (l : abspath) (ds : list dict) : Prop :=
  (ds = [] /\ node_at f l = None) \/
  exists size, node_at f l = Some (File size (Json (JArr (map JObj ds)))).

(** [p] is at or above [q]. *)
Definition above (p q : abspath) : Prop := exists rest, q = p ++ rest.

(** The folder the entry [n] of the directory goes to, for a
    directory given by an absolute path: the category joined to the
    directory, whether it is a plain name, a nested one or an
    absolute path. *)
Definition target_dir (directory : Path) (rules : sorting_rules) (n : string) : abspath :=
  parts (joinpath directory (category_of directory rules n)).

(** The items of the record logged for the entry [n], whatever the
    name of its category. *)
Definition logged_to (directory : Path) (rules : sorting_rules) (n : string) (d : dict)
  : Prop :=
  exists timestamp,
    d = move_items timestamp (child_path directory n)
          (child_path (joinpath directory (category_of directory rules n)) n).

(** Neither a file to organize nor the move log stands at or above
    the place of a category folder that one of the files goes to: no
    file is named like a category folder or like the first part of a
    nested one, and no category folder is the log or lies below it. *)
Definition way_is_clear (directory : Path) (rules : sorting_rules) (w : World)
    (files : list Path) : Prop :=
  forall g, In g files ->
    let t := resolve w (joinpath directory
                          (find_target_folder (get_file_extension g) rules)) in
    (forall f, In f files -> ~ above (resolve w f) t) /\
    ~ above (resolve w (joinpath directory move_log_name)) t.

Definition way_is_clearb (directory : Path) (rules : sorting_rules) (w : World)
    (files : list Path) : bool :=
  forallb (fun g =>
    let t := resolve w (joinpath directory
                          (find_target_folder (get_file_extension g) rules)) in
    andb (forallb (fun f => negb (is_prefix (resolve w f) t)) files)
         (negb (is_prefix (resolve w (joinpath directory move_log_name)) t)))
    files.

(** ** Scenarios *)

Definition a_file (size : Z) : node := File size NotJson.

Definition world_of (f : filesystem) (cwd_ : abspath) (lines : list string) : World :=
  mkWorld f cwd_ lines [] 0 (fun _ => "2024-01-01T00:00:00") (fun _ => 0%Z) [].

Definition collision_world : World :=
  world_of [(["d"], Dir); (["d"; "a.png"], a_file 5);
            (["d"; "Images"], Dir); (["d"; "Images"; "a.png"], a_file 7)] ["d"] [].

Definition corrupt_log_world : World :=
  world_of [(["d"], Dir); (["d"; "py_sort_moves.json"], a_file 12)] ["d"] [].

Definition a_move (original new_ : string) : dict :=
  [("timestamp", JStr "2024-01-01T00:00:00"); ("original", JStr original); ("new", JStr new_)].

Definition moved_world : World :=
  world_of [(["d"], Dir); (["d"; "Images"], Dir); (["d"; "Images"; "a.png"], a_file 5);
            (["d"; "Documents"], Dir); (["d"; "Documents"; "b.pdf"], a_file 7)] ["d"] [].

Definition home_world : World :=
  world_of [(["home"], Dir); (["home"; "report.pdf"], a_file 3)] ["home"] ["y"].

Definition mixed_world : World :=
  world_of [(["d"], Dir); (["d"; "a.png"], a_file 3); (["d"; "b.txt"], a_file 5);
            (["d"; "Documents"], Dir); (["d"; "Documents"; "b.txt"], a_file 9)] ["d"] [].

Definition clash_world : World :=
  world_of [(["d"], Dir); (["d"; "Images"], a_file 3); (["d"; "a.png"], a_file 5)]
           ["d"] ["y"].

Definition tidy_world : World :=
  world_of [(["d"], Dir); (["d"; "report.pdf"], a_file 3); (["d"; "a.png"], a_file 5);
            (["d"; "notes"], a_file 7); (["d"; "Images"], Dir);
            (["d"; "Images"; "old.png"], a_file 11); (["d"; "py_sort.log"], a_file 0)]
           ["d"] ["y"].

Definition logged_world : World :=
  world_of [(["d"], Dir);
            (["d"; "py_sort_moves.json"],
             File 40 (Json (JArr [JObj (a_move "/d/a.png" "/d/Images/a.png")])))]
           ["d"] [].

(** ** Vocabulary of the further properties *)

(** The files and the bytes the statistics count in all. *)
Definition sum_counts (cs : list (string * (nat * Z))) : nat :=
  fold_right (fun x acc => fst (snd x) + acc) 0 cs.

Definition sum_sizes (cs : list (string * (nat * Z))) : Z :=
  fold_right (fun x acc => (snd (snd x) + acc)%Z) 0%Z cs.

(** Counters that agree with the statistics per category. *)
Definition stats_consistent (st : Stats) : Prop :=
  sum_counts (category_stats st) = moved_count st /\
  sum_sizes (category_stats st) = total_size st /\
  NoDup (map fst (category_stats st)) /\
  forall c n s, In (c, (n, s)) (category_stats st) -> 1 <= n.

(** The order of the statistics: by count, the larger first. *)
Definition count_not_below (x y : string * (nat * Z)) : Prop :=
  fst (snd y) <= fst (snd x).

(** A record the undo passes over: its paths are strings (or are
    missing), and one of them is not absolute, or nothing is at the
    new location, or something is at the original one. *)
Definition record_blocked (w : World) (move : dict) : Prop :=
  exists original new_,
    get_or_empty "original" move = JStr original /\
    get_or_empty "new" move = JStr new_ /\
    (is_absolute (Path_of original) = false \/
     is_absolute (Path_of new_) = false \/
     exists_ w (Path_of new_) = false \/
     exists_ w (Path_of original) = true).

Definition undone_world : World :=
  world_of [(["d"], Dir); (["d"; "a.png"], a_file 5); (["d"; "Images"], Dir);
            (["d"; "Images"; "b.png"], a_file 6); (["d"; "b.png"], a_file 7);
            (["d"; "py_sort_moves.json"],
             File 80 (Json (JArr [JObj (a_move "/d/a.png" "/d/Images/a.png");
                                  JObj (a_move "/d/b.png" "/d/Images/b.png")])))]
           ["d"] ["y"].

Definition restorable_world (lines : list string) : World :=
  world_of [(["d"], Dir); (["d"; "Images"], Dir); (["d"; "Images"; "a.png"], a_file 5);
            (["d"; "py_sort_moves.json"],
             File 40 (Json (JArr [JObj (a_move "/d/a.png" "/d/Images/a.png")])))]
           ["d"] lines.

Definition broken_log_world : World :=
  world_of [(["d"], Dir); (["d"; "Images"], Dir); (["d"; "Images"; "a.png"], a_file 5);
            (["d"; "py_sort_moves.json"],
             File 40 (Json (JArr [JObj (a_move "/d/a.png" "/d/Images/a.png"); JNum 5])))]
           ["d"] ["y"].

Definition occupied_world : World :=
  world_of [(["d"], Dir); (["d"; "a.png"], a_file 5); (["d"; "Images"], a_file 3)]
           ["d"] ["y"; "yes"; "y"].

(** The name [rename_file] builds from the pattern, before the
    extension and the counter. *)
Definition renamed_stem (nfkd : string -> string) (date : string)
    (file_path : Path) (pattern : string) : string :=
  let name_ := Rename.stem file_path in
  let clean_name :=
    Str.lower (Rename.spaces_to_underscores
                 (Rename.sub_unwanted (Rename.encode_ascii_ignore (nfkd name_)))) in
  Rename.replace "{lower}" (Str.lower name_)
    (Rename.replace "{clean}" clean_name (Rename.replace "{date}" date pattern)).

(** The names [rename_file] tries, in the order it tries them: the
    plain one, then the ones numbered from 1. *)
Definition candidate_at (new_name ext : string) (k : nat) : string :=
  match k with
  | O => new_name ++ ext
  | S _ => new_name ++ "_" ++ Rename.decimal k ++ ext
  end.

(** The characters a clean name is made of: digits, lower-case
    letters, [_], [-], and the white space that is not the blank. *)
Definition clean_char (c : ascii) : bool :=
  let n := nat_of_ascii c in
  orb (andb (Nat.leb 48 n) (Nat.leb n 57))
      (orb (andb (Nat.leb 97 n) (Nat.leb n 122))
           (orb (Nat.eqb n 95)
                (orb (Nat.eqb n 45)
                     (orb (andb (Nat.leb 9 n) (Nat.leb n 13))
                          (andb (Nat.leb 28 n) (Nat.leb n 31)))))).

Fixpoint all_chars (p : ascii -> bool) (s : string) : bool :=
  match s with
  | EmptyString => true
  | String c r => andb (p c) (all_chars p r)
  end.

Definition config_world : World :=
  world_of [(["home"], Dir); (["home"; "config.json"], File 1 (Json (JNum 5)));
            (["d"], Dir); (["d"; "a.png"], a_file 5);
            (["d"; "config.json"],
             File 20 (Json (JObj [("Pictures", JArr [JStr ".png"])])))]
           ["home"] [].

(** A path the operating system resolves as it is written: none of
    its parts is [..].  (On a [..] part the system walks up from the
    directory reached, which the lexical [resolve] does not do.) *)
Definition lexical (p : Path) : Prop := ~ In ".." (parts p).

Definition lexicalb (p : Path) : bool := negb (Str.mem ".." (parts p)).

(** What the logger does to its file in a run: it adds records. *)
Definition logs_on (w w' : World) : Prop :=
  exists records, error_log w' = error_log w ++ records.

(** What the logger recorded between two states of a run. *)
Definition logged_since (w w' : World) : list string :=
  skipn (List.length (error_log w)) (error_log w').

(** The file of the logger: [logging.basicConfig(filename="py_sort.log")]
    opens it in the working directory of the process. *)
Definition error_log_path (w : World) : abspath := cwd w ++ [error_log_name].

(** Rules with a nested category and a category given by an absolute
    path. *)
Definition far_rules : sorting_rules :=
  [("Media/Images", [".png"]); ("/archive/Documents", [".pdf"])].

(** * Properties *)

(** ** The model on small inputs *)

Section SmallInputs.

Example suffix_of_archive : suffix (Path_of "/d/a.tar.GZ") = ".GZ".
Proof. reflexivity. Qed.

Example suffix_of_hidden_file : suffix (Path_of ".bashrc") = EmptyString.
Proof. reflexivity. Qed.

Example suffix_of_trailing_dot : suffix (Path_of "notes.") = EmptyString.
Proof. reflexivity. Qed.

Example extension_is_lowered : get_file_extension (Path_of "/d/Photo.JPG") = ".jpg".
Proof. reflexivity. Qed.

Example path_is_normalised :
  Path_of "/d//Images/./a.png" = mkPath Root ["d"; "Images"; "a.png"].
Proof. reflexivity. Qed.

Example empty_path_is_dot : str (Path_of EmptyString) = ".".
Proof. reflexivity. Qed.

Example join_with_absolute : joinpath (Path_of "/d") "/tmp/x" = Path_of "/tmp/x".
Proof. reflexivity. Qed.

Example answer_is_stripped_and_lowered : retry_answer "  Yes " = Some true.
Proof. reflexivity. Qed.

Example answer_maybe_is_asked_again :
  prompt_retry "Cannot move 'a'" (world_of [] [] ["maybe"; "n"; "y"]) =
  Ret false (mkWorld [] [] ["y"]
               [AskRetry "Cannot move 'a'"; PleaseEnterYN; AskRetry "Cannot move 'a'"]
               0 (fun _ => "2024-01-01T00:00:00") (fun _ => 0%Z) []).
Proof. reflexivity. Qed.

Example categories_by_count :
  sorted_categories [("Images", (1, 5%Z)); ("Code", (3, 9%Z)); ("Other", (1, 2%Z))]
  = [("Code", (3, 9%Z)); ("Images", (1, 5%Z)); ("Other", (1, 2%Z))].
Proof. reflexivity. Qed.

(** A file in the way of a folder: the move of [a.png] fails, the
    operator declines the retry, the file is counted as skipped and
    stays; the file [Images] itself then goes to [Other]. *)
Example file_in_the_way_of_folder :
  let w := world_of [(["d"], Dir); (["d"; "a.png"], a_file 5); (["d"; "Images"], a_file 3)]
                    ["d"] ["n"; "y"] in
  exists st w',
    organize_run "/d" false get_default_sorting_rules w = (Some (2, st), w') /\
    moved_count st = 1 /\ skipped_count st = 1 /\
    node_at (fs w') ["d"; "a.png"] = Some (a_file 5) /\
    node_at (fs w') ["d"; "Other"; "Images"] = Some (a_file 3) /\
    stdin w' = ["y"].
Proof. eexists _, _. split; [vm_compute; reflexivity|]. repeat split. Qed.

End SmallInputs.

(** ** Strings and paths *)

Section StringFacts.

Lemma lower_char_idem (c : ascii) :
  Str.lower_char (Str.lower_char c) = Str.lower_char c.
Proof. destruct c as [[] [] [] [] [] [] [] []]; reflexivity. Qed.

Lemma lower_idem (s : string) : Str.lower (Str.lower s) = Str.lower s.
Proof.
  induction s as [|c r IH]; simpl; [reflexivity|].
  now rewrite lower_char_idem, IH.
Qed.

Lemma mem_true_iff (x : string) (l : list string) : Str.mem x l = true <-> In x l.
Proof.
  unfold Str.mem. rewrite existsb_exists. split.
  - intros (y & Hy & E). apply String.eqb_eq in E. now subst.
  - intros H. exists x. split; [assumption | apply String.eqb_refl].
Qed.

Lemma mem_false_iff (x : string) (l : list string) : Str.mem x l = false <-> ~ In x l.
Proof.
  rewrite <- mem_true_iff. destruct (Str.mem x l); split; intros; congruence.
Qed.

Lemma split_on_no_sep (s : string) :
  Str.has_char slash s = false -> Str.split_on slash s = [s].
Proof.
  induction s as [|c r IH]; simpl; [reflexivity|].
  intros H. apply orb_false_iff in H as [Hc Hr].
  rewrite Hc, (IH Hr). reflexivity.
Qed.

Lemma split_on_app_sep (s t : string) :
  Str.has_char slash s = false ->
  Str.split_on slash (s ++ String slash t)%string = s :: Str.split_on slash t.
Proof.
  induction s as [|c r IH]; simpl; intros H.
  - reflexivity.
  - apply orb_false_iff in H as [Hc Hr]. rewrite Hc, (IH Hr). reflexivity.
Qed.

Lemma split_on_join (l : list string) :
  l <> [] ->
  Forall (fun s => Str.has_char slash s = false) l ->
  Str.split_on slash (Str.join "/" l) = l.
Proof.
  induction l as [|x r IH]; intros Hne Hall; [congruence|].
  inversion Hall as [|? ? Hx Hr]; subst.
  destruct r as [|y r'].
  - simpl. now apply split_on_no_sep.
  - change (Str.join "/" (x :: y :: r')) with (x ++ String slash (Str.join "/" (y :: r')))%string.
    rewrite split_on_app_sep by assumption.
    rewrite IH; [reflexivity | discriminate | assumption].
Qed.

Lemma valid_name_clean (s : string) : valid_name s = true -> clean_part s = true.
Proof.
  unfold valid_name, clean_part. intros H.
  apply andb_true_iff in H as [H1 H2]. apply andb_true_iff in H2 as [_ H2].
  now rewrite H1, H2.
Qed.

Lemma clean_part_no_sep (s : string) : clean_part s = true -> Str.has_char slash s = false.
Proof.
  unfold clean_part. intros H. apply andb_true_iff in H as [_ H].
  now apply negb_true_iff in H.
Qed.

Lemma clean_part_kept (s : string) : clean_part s = true -> kept_part s = true.
Proof. unfold clean_part. intros H. now apply andb_true_iff in H as [H _]. Qed.

Lemma filter_kept_clean (l : list string) :
  Forall (fun s => clean_part s = true) l -> filter kept_part l = l.
Proof.
  induction 1 as [|x r Hx _ IH]; simpl; [reflexivity|].
  now rewrite (clean_part_kept _ Hx), IH.
Qed.

Lemma split_on_has_no_sep (s : string) :
  Forall (fun x => Str.has_char slash x = false) (Str.split_on slash s).
Proof.
  induction s as [|c r IH]; simpl.
  - constructor; [reflexivity | constructor].
  - destruct (Ascii.eqb c slash) eqn:E.
    + constructor; [reflexivity | assumption].
    + destruct (Str.split_on slash r) as [|h t].
      * constructor; [simpl; now rewrite E | constructor].
      * inversion IH; subst. constructor; [simpl; now rewrite E | assumption].
Qed.

(** The parts of a parsed path are clean. *)
Lemma Path_of_parts_clean (s : string) :
  Forall (fun x => clean_part x = true) (parts (Path_of s)).
Proof.
  unfold Path_of; simpl. apply Forall_forall. intros x Hx.
  apply filter_In in Hx as [Hin Hk].
  pose proof (split_on_has_no_sep s) as Hall.
  rewrite Forall_forall in Hall. unfold clean_part. now rewrite Hk, (Hall x Hin).
Qed.

Lemma Path_of_valid_name (s : string) :
  valid_name s = true -> Path_of s = mkPath Relative [s].
Proof.
  intros H. pose proof (valid_name_clean _ H) as Hc.
  assert (Hst : Str.starts_with slash s = false).
  { destruct s as [|c r]; [reflexivity|].
    pose proof (clean_part_no_sep _ Hc) as Hs. simpl in Hs.
    now apply orb_false_iff in Hs as [Hs _]. }
  unfold Path_of. rewrite Hst, (split_on_no_sep _ (clean_part_no_sep _ Hc)). simpl.
  now rewrite (clean_part_kept _ Hc).
Qed.

Lemma joinpath_valid_name (p : Path) (s : string) :
  valid_name s = true -> joinpath p s = mkPath (anchor_of p) (parts p ++ [s]).
Proof. intros H. unfold joinpath. now rewrite (Path_of_valid_name _ H). Qed.

Lemma starts_with_join (x : string) (r : list string) :
  clean_part x = true -> Str.starts_with slash (Str.join "/" (x :: r)) = false.
Proof.
  intros Hc. pose proof (clean_part_kept _ Hc) as Hk.
  pose proof (clean_part_no_sep _ Hc) as Hs.
  destruct x as [|c x']; [discriminate Hk|].
  simpl in Hs. apply orb_false_iff in Hs as [Hs _].
  destruct r; simpl; assumption.
Qed.

(** Printing a path and parsing it again gives the same path. *)
Lemma Path_of_str (p : Path) :
  Forall (fun x => clean_part x = true) (parts p) -> Path_of (str p) = p.
Proof.
  destruct p as [a ps]; simpl. intros Hall.
  assert (Hsep : Forall (fun s => Str.has_char slash s = false) ps).
  { eapply Forall_impl; [|exact Hall]. intros x. apply clean_part_no_sep. }
  assert (Hjoin : Str.starts_with slash (Str.join "/" ps) = false).
  { destruct ps as [|x r]; [reflexivity|]. inversion Hall; subst.
    now apply starts_with_join. }
  assert (Hparts : filter kept_part (Str.split_on slash (Str.join "/" ps)) = ps).
  { destruct ps as [|x r]; [reflexivity|].
    rewrite split_on_join by (assumption || discriminate).
    now apply filter_kept_clean. }
  unfold str; cbn [anchor_of parts]. destruct a.
  - destruct ps as [|x r]; [reflexivity|].
    unfold Path_of. rewrite Hjoin, Hparts. reflexivity.
  - unfold Path_of.
    change (Str.starts_with slash (String slash (Str.join "/" ps))) with true.
    change (rest_of (String slash (Str.join "/" ps))) with (Str.join "/" ps).
    rewrite Hjoin. cbn [andb]. f_equal.
    change (Str.split_on slash (String slash (Str.join "/" ps)))
      with (EmptyString :: Str.split_on slash (Str.join "/" ps)).
    change (filter kept_part ("" :: Str.split_on slash (Str.join "/" ps)))
      with (filter kept_part (Str.split_on slash (Str.join "/" ps))).
    exact Hparts.
  - unfold Path_of.
    change (Str.starts_with slash (String slash (String slash (Str.join "/" ps))))
      with true.
    change (rest_of (String slash (String slash (Str.join "/" ps))))
      with (String slash (Str.join "/" ps)).
    change (Str.starts_with slash (String slash (Str.join "/" ps))) with true.
    change (rest_of (String slash (Str.join "/" ps))) with (Str.join "/" ps).
    rewrite Hjoin. cbn [andb negb]. f_equal.
    change (Str.split_on slash (String slash (String slash (Str.join "/" ps))))
      with (EmptyString :: EmptyString :: Str.split_on slash (Str.join "/" ps)).
    change (filter kept_part ("" :: "" :: Str.split_on slash (Str.join "/" ps)))
      with (filter kept_part (Str.split_on slash (Str.join "/" ps))).
    exact Hparts.
Qed.

End StringFacts.

(** ** The filesystem table *)

Section FilesystemFacts.

Lemma path_eqb_eq (p q : abspath) : path_eqb p q = true <-> p = q.
Proof. unfold path_eqb. destruct (list_eq_dec string_dec p q); split; congruence. Qed.

Lemma path_eqb_neq (p q : abspath) : path_eqb p q = false <-> p <> q.
Proof. unfold path_eqb. destruct (list_eq_dec string_dec p q); split; congruence. Qed.

Lemma path_eqb_refl (p : abspath) : path_eqb p p = true.
Proof. now apply path_eqb_eq. Qed.

Lemma path_eqb_sym (p q : abspath) : path_eqb p q = path_eqb q p.
Proof.
  destruct (path_eqb q p) eqn:E.
  - apply path_eqb_eq in E. subst. apply path_eqb_refl.
  - apply path_eqb_neq in E. apply path_eqb_neq. congruence.
Qed.

Lemma lookup_app (a b : filesystem) (q : abspath) :
  lookup (a ++ b) q = match lookup a q with Some x => Some x | None => lookup b q end.
Proof.
  induction a as [|[k n] r IH]; simpl; [reflexivity|].
  destruct (path_eqb k q); [reflexivity | exact IH].
Qed.

Lemma lookup_remove (p q : abspath) (f : filesystem) :
  lookup (remove p f) q = if path_eqb p q then None else lookup f q.
Proof.
  induction f as [|[k n] r IH]; simpl.
  - now destruct (path_eqb p q).
  - destruct (path_eqb k p) eqn:Ekp; simpl.
    + apply path_eqb_eq in Ekp. subst k. rewrite IH. now destruct (path_eqb p q).
    + rewrite IH. destruct (path_eqb k q) eqn:Ekq; [|reflexivity].
      apply path_eqb_eq in Ekq. subst k. rewrite path_eqb_sym, Ekp. reflexivity.
Qed.

Lemma lookup_put (p q : abspath) (n : node) (f : filesystem) :
  lookup (put p n f) q = if path_eqb p q then Some n else lookup f q.
Proof.
  unfold put. rewrite lookup_app, lookup_remove. simpl.
  destruct (path_eqb p q); [reflexivity|]. now destruct (lookup f q).
Qed.

Lemma lookup_snoc (p q : abspath) (n : node) (f : filesystem) :
  lookup (f ++ [(p, n)]) q =
  match lookup f q with Some x => Some x | None => if path_eqb p q then Some n else None end.
Proof. rewrite lookup_app. reflexivity. Qed.

Lemma node_at_nonempty (f : filesystem) (p : abspath) :
  p <> [] -> node_at f p = lookup f p.
Proof. destruct p; [congruence | reflexivity]. Qed.

Lemma node_at_snoc (f : filesystem) (p : abspath) (x : string) :
  node_at f (p ++ [x]) = lookup f (p ++ [x]).
Proof. apply node_at_nonempty. now destruct p. Qed.

Lemma node_at_remove (p q : abspath) (f : filesystem) :
  p <> q -> node_at (remove p f) q = node_at f q.
Proof.
  intros H. destruct q; [reflexivity|]. simpl. rewrite lookup_remove.
  apply path_eqb_neq in H. now rewrite H.
Qed.

Lemma node_at_put_other (p q : abspath) (n : node) (f : filesystem) :
  p <> q -> node_at (put p n f) q = node_at f q.
Proof.
  intros H. destruct q; [reflexivity|]. simpl. rewrite lookup_put.
  apply path_eqb_neq in H. now rewrite H.
Qed.

Lemma node_at_put_same (p : abspath) (n : node) (f : filesystem) :
  p <> [] -> node_at (put p n f) p = Some n.
Proof.
  intros H. rewrite node_at_nonempty by assumption.
  now rewrite lookup_put, path_eqb_refl.
Qed.

Lemma only_new_dirs_refl (f : filesystem) : only_new_dirs f f.
Proof. intros q. now left. Qed.

Lemma only_new_dirs_trans (f g h : filesystem) :
  only_new_dirs f g -> only_new_dirs g h -> only_new_dirs f h.
Proof.
  intros H1 H2 q. destruct (H1 q) as [E1|[E1 E1']], (H2 q) as [E2|[E2 E2']].
  - left. congruence.
  - right. split; congruence.
  - right. split; congruence.
  - congruence.
Qed.

(** A new directory lies on the way to the directory asked for. *)
Lemma mkdir_from_spec (todo walked : abspath) (f f' : filesystem) :
  mkdir_from walked todo f = Some f' ->
  forall q, node_at f' q = node_at f q \/
            (node_at f q = None /\ node_at f' q = Some Dir /\
             exists k rest, todo = k ++ rest /\ k <> [] /\ q = walked ++ k).
Proof.
  revert walked f. induction todo as [|c rest IH]; simpl; intros walked f H q.
  - left. congruence.
  - destruct (node_at f (walked ++ [c])) as [[|]|] eqn:E; [discriminate| |].
    + destruct (IH _ _ H q) as [Hq|(Hq1 & Hq2 & k & r & -> & Hk & ->)]; [now left|].
      right. split; [assumption|]. split; [assumption|].
      exists (c :: k), r. split; [reflexivity|]. split; [discriminate|].
      now rewrite <- app_assoc.
    + destruct (IH _ _ H q) as [Hq|(Hq1 & Hq2 & k & r & -> & Hk & ->)].
      * destruct (list_eq_dec string_dec (walked ++ [c]) q) as [<-|Hne].
        -- right. split; [assumption|]. split.
           ++ rewrite Hq. rewrite node_at_snoc, lookup_snoc, path_eqb_refl.
              rewrite node_at_snoc in E. now rewrite E.
           ++ exists [c], rest. split; [reflexivity|]. split; [discriminate|reflexivity].
        -- left. rewrite Hq. destruct q as [|s0 q0]; [reflexivity|]. simpl.
           rewrite lookup_snoc. apply path_eqb_neq in Hne. rewrite Hne.
           now destruct (lookup f (s0 :: q0)).
      * right. split; [|split; [assumption|]].
        -- destruct ((walked ++ [c]) ++ k) as [|s0 q0] eqn:Eq; [discriminate Hq1|].
           simpl in Hq1 |- *. rewrite lookup_snoc in Hq1.
           destruct (lookup f (s0 :: q0)); [discriminate | reflexivity].
        -- exists (c :: k), r. split; [reflexivity|]. split; [discriminate|].
           now rewrite <- app_assoc.
Qed.

Lemma mkdir_from_only_new_dirs (todo walked : abspath) (f f' : filesystem) :
  mkdir_from walked todo f = Some f' -> only_new_dirs f f'.
Proof.
  intros H q. destruct (mkdir_from_spec _ _ _ _ H q) as [E|(E1 & E2 & _)];
    [now left | now right].
Qed.

(** After [mkdir_from] the directory asked for is there. *)
Lemma mkdir_from_is_dir (todo walked : abspath) (f f' : filesystem) :
  mkdir_from walked todo f = Some f' ->
  fs_is_dir f walked = true -> fs_is_dir f' (walked ++ todo) = true.
Proof.
  revert walked f. induction todo as [|c rest IH]; simpl; intros walked f H Hw.
  - rewrite app_nil_r. congruence.
  - rewrite (app_assoc walked [c] rest : walked ++ c :: rest = (walked ++ [c]) ++ rest).
    destruct (node_at f (walked ++ [c])) as [[|]|] eqn:E; [discriminate| |].
    + apply (IH _ _ H). unfold fs_is_dir. now rewrite E.
    + apply (IH _ _ H). unfold fs_is_dir.
      rewrite node_at_snoc, lookup_snoc, path_eqb_refl.
      rewrite node_at_snoc in E. now rewrite E.
Qed.

End FilesystemFacts.

(** ** Printing *)

Section PrintingFacts.

Lemma prints_nil (w : World) : prints [] w = w.
Proof. destruct w. unfold prints. simpl. now rewrite app_nil_r. Qed.

Lemma print_prints (e : event) (l : list event) (w : World) :
  print e (prints l w) = prints (l ++ [e]) w.
Proof. unfold print, prints. simpl. now rewrite app_assoc. Qed.

Lemma prints_prints (l l' : list event) (w : World) :
  prints l' (prints l w) = prints (l ++ l') w.
Proof. unfold prints. simpl. now rewrite app_assoc. Qed.

Lemma print_as_prints (e : event) (w : World) : print e w = prints [e] w.
Proof. reflexivity. Qed.

End PrintingFacts.

(** ** Rule resolution *)

Section RuleResolution.

Lemma find_target_folder_first (ext : string) (before after : sorting_rules)
    (folder : string) (extensions : list string) :
  In ext extensions ->
  (forall c es, In (c, es) before -> ~ In ext es) ->
  find_target_folder ext (before ++ (folder, extensions) :: after) = folder.
Proof.
  intros Hin Hbefore. induction before as [|[c es] r IH]; simpl.
  - apply mem_true_iff in Hin. now rewrite Hin.
  - assert (Hc : Str.mem ext es = false).
    { apply mem_false_iff. apply (Hbefore c es). now left. }
    rewrite Hc. apply IH. intros c' es' H'. apply (Hbefore c' es'). now right.
Qed.

Lemma find_target_folder_none (ext : string) (rules : sorting_rules) :
  (forall c es, In (c, es) rules -> ~ In ext es) ->
  find_target_folder ext rules = "Other".
Proof.
  induction rules as [|[c es] r IH]; simpl; intros H; [reflexivity|].
  assert (Hc : Str.mem ext es = false).
  { apply mem_false_iff. apply (H c es). now left. }
  rewrite Hc. apply IH. intros c' es' H'. apply (H c' es'). now right.
Qed.

(** C6. [find_target_folder] returns the category whose list holds the
    extension when exactly one does, ["Other"] when none does, and the
    first one in the iteration order of the mapping when several do. *)
Theorem find_target_folder_resolution (ext : string) (rules : sorting_rules) :
  (forall before folder extensions after,
      rules = before ++ (folder, extensions) :: after ->
      In ext extensions ->
      (forall c es, In (c, es) before -> ~ In ext es) ->
      (forall c es, In (c, es) after -> ~ In ext es) ->
      find_target_folder ext rules = folder) /\
  ((forall c es, In (c, es) rules -> ~ In ext es) ->
   find_target_folder ext rules = "Other") /\
  (forall before folder extensions after,
      rules = before ++ (folder, extensions) :: after ->
      In ext extensions ->
      (forall c es, In (c, es) before -> ~ In ext es) ->
      find_target_folder ext rules = folder).
Proof.
  split; [|split].
  - intros before folder extensions after -> Hin Hb _.
    now apply find_target_folder_first.
  - apply find_target_folder_none.
  - intros before folder extensions after -> Hin Hb.
    now apply find_target_folder_first.
Qed.

(** The three cases of C6 on the built-in table and on a table in
    which [".gz"] is listed twice. *)
Lemma find_target_folder_resolution_witness :
  find_target_folder ".pdf" get_default_sorting_rules = "Documents" /\
  find_target_folder ".xyz" get_default_sorting_rules = "Other" /\
  find_target_folder ".gz" [("Docs", [".txt"]); ("Packed", [".gz"]); ("Archives", [".gz"])]
  = "Packed".
Proof.
  split; [|split].
  - apply (proj1 (find_target_folder_resolution ".pdf" get_default_sorting_rules)
             (firstn 1 get_default_sorting_rules) "Documents"
             (snd (nth 1 get_default_sorting_rules ("", [])))
             (skipn 2 get_default_sorting_rules)).
    + reflexivity.
    + simpl. tauto.
    + intros c es H. apply mem_false_iff.
      simpl in H. destruct H as [H|[]]. inversion H; subst. reflexivity.
    + intros c es H. apply mem_false_iff.
      simpl in H.
      repeat (destruct H as [H|H]; [inversion H; subst; reflexivity|]).
      destruct H.
  - apply (proj1 (proj2 (find_target_folder_resolution ".xyz" get_default_sorting_rules))).
    intros c es H. apply mem_false_iff. simpl in H.
    repeat (destruct H as [H|H]; [inversion H; subst; reflexivity|]).
    destruct H.
  - apply (proj2 (proj2 (find_target_folder_resolution ".gz"
             [("Docs", [".txt"]); ("Packed", [".gz"]); ("Archives", [".gz"])]))
             [("Docs", [".txt"])] "Packed" [".gz"] [("Archives", [".gz"])]).
    + reflexivity.
    + simpl. tauto.
    + intros c es H. apply mem_false_iff.
      simpl in H. destruct H as [H|[]]. inversion H; subst. reflexivity.
Defined.

(** The extension looked up is in lower case whatever the file name. *)
Lemma get_file_extension_lower (file_path : Path) :
  Str.lower (get_file_extension file_path) = get_file_extension file_path.
Proof. unfold get_file_extension. apply lower_idem. Qed.

(** C5 as stated fails: with [".PNG"] in the rules, [photo.PNG] goes
    to ["Other"], although the list of ["Images"] holds its extension,
    even letter for letter. *)
Lemma lookup_is_case_sensitive_on_rules :
  In (suffix (Path_of "photo.PNG")) [".PNG"] /\
  find_target_folder (get_file_extension (Path_of "photo.PNG")) [("Images", [".PNG"])]
  = "Other".
Proof. split; [simpl; tauto | reflexivity]. Qed.

(** C5, amended.  The lookup ignores the letter case of the file's own
    extension only: two files whose extensions differ in case alone get
    the same category, which is the first one listing the lower-cased
    extension as it is written in the rules; a list whose entries all
    contain an upper-case letter matches no file. *)
Theorem lookup_lowercases_file_extension_only (rules : sorting_rules) (file_path : Path) :
  (forall other : Path,
      Str.lower (suffix other) = Str.lower (suffix file_path) ->
      find_target_folder (get_file_extension other) rules
      = find_target_folder (get_file_extension file_path) rules) /\
  (forall before folder extensions after,
      rules = before ++ (folder, extensions) :: after ->
      In (Str.lower (suffix file_path)) extensions ->
      (forall c es, In (c, es) before -> ~ In (Str.lower (suffix file_path)) es) ->
      find_target_folder (get_file_extension file_path) rules = folder) /\
  (forall extensions,
      (forall e, In e extensions -> Str.lower e <> e) ->
      Str.mem (get_file_extension file_path) extensions = false).
Proof.
  split; [|split].
  - intros other H. unfold get_file_extension. now rewrite H.
  - intros before folder extensions after -> Hin Hb.
    now apply find_target_folder_first.
  - intros extensions H. apply mem_false_iff. intros Hin.
    apply (H _ Hin). apply get_file_extension_lower.
Qed.

Lemma lookup_lowercases_file_extension_only_witness :
  find_target_folder (get_file_extension (Path_of "/d/photo.PNG")) get_default_sorting_rules
  = find_target_folder (get_file_extension (Path_of "/d/b.png")) get_default_sorting_rules /\
  find_target_folder (get_file_extension (Path_of "/d/b.png")) [("Images", [".png"])]
  = "Images" /\
  Str.mem (get_file_extension (Path_of "/d/b.png")) [".PNG"; ".Png"] = false.
Proof.
  pose proof (lookup_lowercases_file_extension_only get_default_sorting_rules
                (Path_of "/d/b.png")) as (H1 & _ & _).
  pose proof (lookup_lowercases_file_extension_only [("Images", [".png"])]
                (Path_of "/d/b.png")) as (_ & H2 & H3).
  split; [|split].
  - apply H1. reflexivity.
  - apply (H2 [] "Images" [".png"] []); [reflexivity | simpl; tauto | intros c es []].
  - apply H3. intros e [<-|[<-|[]]]; discriminate.
Defined.

End RuleResolution.

(** ** Dry runs and collisions *)

Section OrganizeSteps.

Variables (directory : Path) (rules : sorting_rules).

Lemma is_file_st_size (w : World) (file_path : Path) :
  is_file w file_path = true -> exists size, st_size w file_path = Some size.
Proof.
  unfold is_file, fs_is_file, st_size.
  destruct (node_at (fs w) (resolve w file_path)) as [[size data|]|];
    [now eexists | discriminate | discriminate].
Qed.

Lemma organize_file_dry (file_path : Path) (st : Stats) (w : World) :
  is_file w file_path = true ->
  exists e, snd (organize_file directory true rules file_path st w) = print e w.
Proof.
  intros Hf. destruct (is_file_st_size w file_path Hf) as [size Hs].
  unfold organize_file. rewrite Hs.
  destruct (exists_ w _); now eexists.
Qed.

Lemma organize_loop_dry (files : list Path) (st : Stats) (w : World) :
  (forall f, In f files -> is_file w f = true) ->
  exists printed, snd (organize_loop directory true rules files st w) = prints printed w.
Proof.
  revert st w. induction files as [|f rest IH]; intros st w Hfiles; simpl.
  - exists []. now rewrite prints_nil.
  - destruct (organize_file directory true rules f st w) as [st' w'] eqn:E.
    destruct (organize_file_dry f st w (Hfiles f (or_introl eq_refl))) as [e He].
    rewrite E in He. simpl in He. subst w'.
    destruct (IH st' (print e w)) as [l Hl].
    { intros g Hg. exact (Hfiles g (or_intror Hg)). }
    exists (e :: l).
    rewrite Hl, print_as_prints, prints_prints. reflexivity.
Qed.

(** C7. A file whose target path exists is skipped, in a dry run as in
    a real one: the skip counter goes up by one and no other counter
    moves, the filesystem stays as it is (so the file at the target
    is not overwritten and the source stays where it was), nothing is
    read from standard input, and the loop goes on with the next
    file.  For a file that is there, all that happens is the message
    that it was skipped; only for a path at which there is no file
    does the logger record an error. *)
Theorem collision_is_skipped (dry_run : bool) (file_path : Path) (rest : list Path)
    (st : Stats) (w : World) :
  exists_ w (target_of directory rules file_path) = true ->
  let r := organize_file directory dry_run rules file_path st w in
  skipped_count (fst r) = S (skipped_count st) /\
  moved_count (fst r) = moved_count st /\
  total_size (fst r) = total_size st /\
  category_stats (fst r) = category_stats st /\
  fs (snd r) = fs w /\
  stdin (snd r) = stdin w /\
  (is_file w file_path = true ->
   snd r = print (SkippedExists (name file_path)
                    (find_target_folder (get_file_extension file_path) rules)) w) /\
  (error_log (snd r) = error_log w \/
   is_file w file_path = false /\
   error_log (snd r) = error_log w ++ ["Error processing " ++ str file_path]%string) /\
  organize_loop directory dry_run rules (file_path :: rest) st w
  = organize_loop directory dry_run rules rest (fst r) (snd r).
Proof.
  intros Hex r. unfold target_of in Hex.
  assert (Hloop : organize_loop directory dry_run rules (file_path :: rest) st w
                  = organize_loop directory dry_run rules rest (fst r) (snd r)).
  { cbn [organize_loop]. fold r. now destruct r. }
  revert Hloop. unfold r, organize_file.
  destruct (st_size w file_path) as [size|] eqn:Hs.
  - rewrite Hex. cbn [fst snd]. intros Hloop.
    repeat split; try reflexivity; try assumption. now left.
  - cbn [fst snd]. intros Hloop.
    assert (Hf : is_file w file_path = false).
    { destruct (is_file w file_path) eqn:Hf; [|reflexivity].
      destruct (is_file_st_size w file_path Hf) as [size Hsize]. congruence. }
    repeat split; try reflexivity; try assumption.
    + rewrite Hf. discriminate.
    + right. now split.
Qed.

End OrganizeSteps.

Section DryRun.

(** C2. A dry run only prints: the world it leaves differs from the
    one it found in what was written to standard output and in nothing
    else; in particular the filesystem, with the move log, is the same. *)
Theorem dry_run_only_prints (directory_path : string) (rules : sorting_rules)
    (show_stats : bool) (w : World) :
  (exists printed, organize_files directory_path true rules show_stats w = prints printed w) /\
  fs (organize_files directory_path true rules show_stats w) = fs w.
Proof.
  assert (H : exists printed,
             organize_files directory_path true rules show_stats w = prints printed w).
  { unfold organize_files, organize_run.
    destruct (negb (exists_ w (Path_of directory_path))); [now eexists|].
    destruct (negb (is_dir w (Path_of directory_path))); [now eexists|].
    destruct (files_to_organize (Path_of directory_path) w) as [|f files] eqn:Ef;
      [now eexists|].
    set (w2 := print DryRunMode (print (FoundFiles _) w)).
    destruct (organize_loop (Path_of directory_path) true rules (f :: files) no_stats w2)
      as [st w3] eqn:El.
    destruct (organize_loop_dry (Path_of directory_path) rules (f :: files) no_stats w2)
      as [l Hl].
    { intros g Hg. rewrite <- Ef in Hg. unfold files_to_organize in Hg.
      apply filter_In in Hg as [_ Hg]. now apply andb_true_iff in Hg as [Hg _]. }
    rewrite El in Hl. simpl in Hl. subst w3. unfold print_summary, w2.
    rewrite !print_as_prints, !prints_prints. now eexists. }
  split; [exact H|]. destruct H as [l ->]. reflexivity.
Qed.

End DryRun.

Section CollisionWitness.

Lemma collision_is_skipped_witness :
  let r := organize_file (Path_of "/d") false get_default_sorting_rules (Path_of "/d/a.png")
                         no_stats collision_world in
  skipped_count (fst r) = 1 /\
  moved_count (fst r) = 0 /\
  total_size (fst r) = 0%Z /\
  category_stats (fst r) = [] /\
  fs (snd r) = fs collision_world /\
  stdin (snd r) = stdin collision_world /\
  (is_file collision_world (Path_of "/d/a.png") = true ->
   snd r = print (SkippedExists "a.png" "Images") collision_world) /\
  (error_log (snd r) = error_log collision_world \/
   is_file collision_world (Path_of "/d/a.png") = false /\
   error_log (snd r) = error_log collision_world ++ ["Error processing /d/a.png"]) /\
  organize_loop (Path_of "/d") false get_default_sorting_rules [Path_of "/d/a.png"]
                no_stats collision_world
  = organize_loop (Path_of "/d") false get_default_sorting_rules [] (fst r) (snd r).
Proof.
  apply (collision_is_skipped (Path_of "/d") get_default_sorting_rules false
           (Path_of "/d/a.png") [] no_stats collision_world).
  reflexivity.
Defined.

End CollisionWitness.

(** ** The move log *)

Section MoveLog.

Lemma resolve_same_cwd (w w' : World) (p : Path) :
  cwd w' = cwd w -> resolve w' p = resolve w p.
Proof. intros H. unfold resolve. now rewrite H. Qed.

(** What [dump_json] wrote is what [load_json] reads. *)
Lemma dump_json_load (w w' : World) (p : Path) (j : json) :
  dump_json w p j = Some w' -> load_json w' p = Loaded j.
Proof.
  unfold dump_json, load_json.
  assert (Hput : resolve w p <> [] ->
                 node_at (put (resolve w p) (File (dumped_size w j) (Json j)) (fs w))
                         (resolve w p)
                 = Some (File (dumped_size w j) (Json j))).
  { apply node_at_put_same. }
  destruct (node_at (fs w) (resolve w p)) as [[sz d|]|] eqn:E.
  - intros [= <-].
    rewrite (resolve_same_cwd w (set_fs _ w)) by reflexivity.
    unfold set_fs at 1. cbn [fs]. rewrite Hput; [reflexivity|].
    intros H0. rewrite H0 in E. discriminate.
  - discriminate.
  - destruct (fs_is_dir (fs w) (removelast (resolve w p))); [|discriminate].
    intros [= <-].
    rewrite (resolve_same_cwd w (set_fs _ w)) by reflexivity.
    unfold set_fs at 1. cbn [fs]. rewrite Hput; [reflexivity|].
    intros H0. rewrite H0 in E. discriminate.
Qed.

(** Over an existing file [dump_json] succeeds. *)
Lemma dump_json_over_file (w : World) (p : Path) (j : json) (size : Z) (data : content) :
  node_at (fs w) (resolve w p) = Some (File size data) ->
  exists w', dump_json w p j = Some w'.
Proof. intros H. unfold dump_json. rewrite H. now eexists. Qed.



End MoveLog.

(** ** Undo: records that are skipped *)

Section UndoSkips.

Lemma undo_loop_app (first_ then_ : list dict) (counts : nat * nat) (w : World) :
  undo_loop (first_ ++ then_) counts w =
  match undo_loop first_ counts w with
  | Ret counts' w' => undo_loop then_ counts' w'
  | Exc e w' => Exc e w'
  end.
Proof.
  revert counts w. induction first_ as [|m r IH]; intros counts w; simpl; [reflexivity|].
  destruct (undo_move m counts w); [apply IH | reflexivity].
Qed.

(** A record with a path that is not absolute is skipped. *)
Lemma undo_move_not_absolute (move : dict) (original new_ : string)
    (counts : nat * nat) (w : World) :
  get_or_empty "original" move = JStr original ->
  get_or_empty "new" move = JStr new_ ->
  is_absolute (Path_of original) = false \/ is_absolute (Path_of new_) = false ->
  undo_move move counts w =
  Ret (fst counts, S (snd counts)) (print (SkippedInvalidPath (name (Path_of new_))) w).
Proof.
  intros Ho Hn Habs. unfold undo_move. rewrite Ho, Hn. unfold path_arg.
  destruct Habs as [-> | ->]; [reflexivity|].
  now rewrite orb_true_r.
Qed.

(** C9 as stated fails: a record whose "original" is a relative path
    and whose "new" is a number passes the check on the log, and the
    undo raises on it when it builds the two paths, before it looks
    whether they are absolute.  The record is neither skipped nor
    counted, and the valid record logged before it is not processed:
    its file stays in the category folder. *)
Lemma relative_record_with_number_raises :
  let record := [("original", JStr "a.png"); ("new", JNum 5)] in
  let log := JArr [JObj (a_move "/d/b.pdf" "/d/Documents/b.pdf"); JObj record] in
  let w := world_of [(["d"], Dir); (["d"; "Documents"], Dir);
                     (["d"; "Documents"; "b.pdf"], a_file 7);
                     (["d"; "py_sort_moves.json"], File 20 (Json log))]
                    ["d"] ["y"] in
  dict_get "original" record = Some (JStr "a.png") /\
  is_absolute (Path_of "a.png") = false /\
  all_dicts [JObj (a_move "/d/b.pdf" "/d/Documents/b.pdf"); JObj record]
  = Some [a_move "/d/b.pdf" "/d/Documents/b.pdf"; record] /\
  exists w',
    undo_organization "/d" w = Exc TypeError w' /\
    stdout w' = [AskConfirm] /\
    node_at (fs w') ["d"; "Documents"; "b.pdf"] = Some (a_file 7) /\
    node_at (fs w') ["d"; "b.pdf"] = None.
Proof. repeat split. eexists. repeat split. Qed.

(** C9, amended.  A record whose "original" and "new" values are both
    strings, one of them a path that is not absolute, is skipped and
    counted as skipped, and the records around it are still processed:
    first those logged after it, as if it were not there, and after it,
    unless one of those raised an exception, those logged before it,
    from the state it left alone. *)
Theorem relative_record_is_skipped (before after : list dict) (move : dict)
    (original new_ : string) (counts : nat * nat) (w : World) :
  get_or_empty "original" move = JStr original ->
  get_or_empty "new" move = JStr new_ ->
  is_absolute (Path_of original) = false \/ is_absolute (Path_of new_) = false ->
  undo_loop (rev (before ++ move :: after)) counts w =
  match undo_loop (rev after) counts w with
  | Ret (restored, skipped) w' =>
      undo_loop (rev before) (restored, S skipped)
                (print (SkippedInvalidPath (name (Path_of new_))) w')
  | Exc e w' => Exc e w'
  end.
Proof.
  intros Ho Hn Habs.
  rewrite rev_app_distr. simpl rev. rewrite <- app_assoc, undo_loop_app.
  destruct (undo_loop (rev after) counts w) as [[restored skipped] w'|e w'];
    [|reflexivity].
  simpl. now rewrite (undo_move_not_absolute move original new_ _ _ Ho Hn Habs).
Qed.

Lemma relative_record_is_skipped_witness :
  undo_loop (rev ([a_move "/d/a.png" "/d/Images/a.png"]
                  ++ a_move "c.txt" "Documents/c.txt"
                  :: [a_move "/d/b.pdf" "/d/Documents/b.pdf"])) (0, 0) moved_world =
  match undo_loop (rev [a_move "/d/b.pdf" "/d/Documents/b.pdf"]) (0, 0) moved_world with
  | Ret (restored, skipped) w' =>
      undo_loop (rev [a_move "/d/a.png" "/d/Images/a.png"]) (restored, S skipped)
                (print (SkippedInvalidPath (name (Path_of "Documents/c.txt"))) w')
  | Exc e w' => Exc e w'
  end.
Proof.
  apply (relative_record_is_skipped [a_move "/d/a.png" "/d/Images/a.png"]
           [a_move "/d/b.pdf" "/d/Documents/b.pdf"] (a_move "c.txt" "Documents/c.txt")
           "c.txt" "Documents/c.txt" (0, 0) moved_world).
  - reflexivity.
  - reflexivity.
  - left. reflexivity.
Defined.

(** In that run both absolute records are restored around the skipped one. *)
Example relative_record_run :
  match undo_loop (rev [a_move "/d/a.png" "/d/Images/a.png";
                        a_move "c.txt" "Documents/c.txt";
                        a_move "/d/b.pdf" "/d/Documents/b.pdf"]) (0, 0) moved_world with
  | Ret counts w' =>
      counts = (2, 1) /\
      node_at (fs w') ["d"; "a.png"] = Some (a_file 5) /\
      node_at (fs w') ["d"; "b.pdf"] = Some (a_file 7)
  | Exc _ _ => False
  end.
Proof. vm_compute. repeat split. Qed.

(** C10 as stated fails: a record without "original" whose "new" is a
    number passes the check on the log, and the undo raises on it. *)
Lemma record_with_number_raises :
  let log := JArr [JObj [("new", JNum 5)]] in
  let w := world_of [(["d"], Dir); (["d"; "py_sort_moves.json"], File 20 (Json log))]
                    ["d"] ["y"] in
  dict_get "original" [("new", JNum 5)] = None /\
  all_dicts [JObj [("new", JNum 5)]] = Some [[("new", JNum 5)]] /\
  exists w', undo_organization "/d" w = Exc TypeError w'.
Proof. repeat split. now eexists. Qed.

(** C10, amended.  A record that is an object, lacks "original" or
    "new", and holds a string under the other key if it has it, passes
    the check on the log; the missing value reads as the empty string,
    whose path is not absolute, so the record is skipped and counted,
    without an exception, and the loop goes on with the next record. *)
Theorem record_missing_key_is_skipped (move : dict) (rest : list dict)
    (counts : nat * nat) (w : World) :
  dict_get "original" move = None \/ dict_get "new" move = None ->
  string_or_missing "original" move ->
  string_or_missing "new" move ->
  all_dicts [JObj move] = Some [move] /\
  (get_or_empty "original" move = JStr "" \/ get_or_empty "new" move = JStr "") /\
  is_absolute (Path_of "") = false /\
  exists file,
    undo_move move counts w
    = Ret (fst counts, S (snd counts)) (print (SkippedInvalidPath file) w) /\
    undo_loop (move :: rest) counts w
    = undo_loop rest (fst counts, S (snd counts)) (print (SkippedInvalidPath file) w).
Proof.
  intros Hmiss Ho Hn.
  split; [reflexivity|].
  split; [unfold get_or_empty; destruct Hmiss as [-> | ->]; tauto|].
  split; [reflexivity|].
  assert (Hstr : exists o n, get_or_empty "original" move = JStr o /\
                             get_or_empty "new" move = JStr n /\
                             (is_absolute (Path_of o) = false \/
                              is_absolute (Path_of n) = false)).
  { unfold string_or_missing in Ho, Hn. unfold get_or_empty.
    destruct (dict_get "original" move) as [[]|] eqn:Eo; try contradiction;
      destruct (dict_get "new" move) as [[]|] eqn:En; try contradiction.
    - destruct Hmiss; discriminate.
    - eexists _, _. split; [reflexivity|]. split; [reflexivity|]. now right.
    - eexists _, _. split; [reflexivity|]. split; [reflexivity|]. now left.
    - eexists _, _. split; [reflexivity|]. split; [reflexivity|]. now left. }
  destruct Hstr as (o & n & Eo & En & Habs).
  exists (name (Path_of n)).
  pose proof (undo_move_not_absolute move o n counts w Eo En Habs) as Hm.
  split; [exact Hm|]. simpl. now rewrite Hm.
Qed.

Lemma record_missing_key_is_skipped_witness :
  all_dicts [JObj [("original", JStr "/d/a.png")]] = Some [[("original", JStr "/d/a.png")]] /\
  (get_or_empty "original" [("original", JStr "/d/a.png")] = JStr "" \/
   get_or_empty "new" [("original", JStr "/d/a.png")] = JStr "") /\
  is_absolute (Path_of "") = false /\
  exists file,
    undo_move [("original", JStr "/d/a.png")] (0, 0) moved_world
    = Ret (0, 1) (print (SkippedInvalidPath file) moved_world) /\
    undo_loop ([("original", JStr "/d/a.png")] :: [a_move "/d/b.pdf" "/d/Documents/b.pdf"])
              (0, 0) moved_world
    = undo_loop [a_move "/d/b.pdf" "/d/Documents/b.pdf"] (0, 1)
                (print (SkippedInvalidPath file) moved_world).
Proof.
  apply (record_missing_key_is_skipped [("original", JStr "/d/a.png")]
           [a_move "/d/b.pdf" "/d/Documents/b.pdf"] (0, 0) moved_world).
  - right. reflexivity.
  - exact I.
  - exact I.
Defined.

End UndoSkips.

(** ** The paths written to the log *)

Section LoggedPaths.

(** C4 fails on the code.  Run without a directory argument, in a
    working directory that holds [report.pdf], the program logs the
    move with the paths as it built them from ["."]: "report.pdf" and
    "Documents/report.pdf", neither of them absolute.  The undo that
    follows finds no absolute path in the record, skips it, and leaves
    the file where organize put it. *)
Theorem default_directory_logs_relative_paths :
  exists w1 w2,
    main None false false true get_default_sorting_rules home_world = Ret tt w1 /\
    load_json w1 (Path_of "py_sort_moves.json")
    = Loaded (JArr [JObj [("timestamp", JStr "2024-01-01T00:00:00");
                          ("original", JStr "report.pdf");
                          ("new", JStr "Documents/report.pdf")]]) /\
    is_absolute (Path_of "report.pdf") = false /\
    is_absolute (Path_of "Documents/report.pdf") = false /\
    undo_run "." w1 = Ret (Some (0, 1)) w2 /\
    fs w2 = fs w1 /\
    node_at (fs w2) ["home"; "report.pdf"] = None /\
    node_at (fs w2) ["home"; "Documents"; "report.pdf"] = Some (a_file 3).
Proof.
  eexists _, _. split; [reflexivity|]. vm_compute. repeat split.
Qed.

End LoggedPaths.

(** ** How the steps of a run change the world *)

Section Evolution.

Lemma evolves_refl (w : World) : evolves w w.
Proof. split; [reflexivity|]. exists []. now rewrite app_nil_r. Qed.

Lemma evolves_trans (w1 w2 w3 : World) : evolves w1 w2 -> evolves w2 w3 -> evolves w1 w3.
Proof.
  intros [C1 [l1 O1]] [C2 [l2 O2]]. split; [congruence|].
  exists (l1 ++ l2). now rewrite O2, O1, app_assoc.
Qed.

Lemma evolves_print (e : event) (w : World) : evolves w (print e w).
Proof. split; [reflexivity|]. now exists [e]. Qed.

Lemma evolves_log_exception (message : string) (w : World) :
  evolves w (log_exception message w).
Proof. split; [reflexivity|]. exists []. simpl. now rewrite app_nil_r. Qed.

Lemma evolves_logged_print (message : string) (e : event) (w : World) :
  evolves w (print e (log_exception message w)).
Proof. split; [reflexivity|]. now exists [e]. Qed.

Lemma evolves_set_stdin (l : list string) (w : World) : evolves w (set_stdin l w).
Proof. split; [reflexivity|]. exists []. simpl. now rewrite app_nil_r. Qed.

Lemma evolves_set_fs (f : filesystem) (w : World) : evolves w (set_fs f w).
Proof. split; [reflexivity|]. exists []. simpl. now rewrite app_nil_r. Qed.

Lemma printed_since_app (w w' : World) (l : list event) :
  stdout w' = stdout w ++ l -> printed_since w w' = l.
Proof.
  intros H. unfold printed_since. rewrite H.
  rewrite skipn_app, skipn_all, Nat.sub_diag. reflexivity.
Qed.

(** What a step printed is part of what the run around it printed. *)
Lemma printed_since_within (w0 w1 w2 w3 : World) (e : event) :
  evolves w0 w1 -> evolves w1 w2 -> evolves w2 w3 ->
  In e (printed_since w1 w2) -> In e (printed_since w0 w3).
Proof.
  intros [_ [l1 O1]] [_ [l2 O2]] [_ [l3 O3]] Hin.
  rewrite (printed_since_app _ _ _ O2) in Hin.
  rewrite (printed_since_app w0 w3 (l1 ++ l2 ++ l3)).
  - apply in_or_app. right. apply in_or_app. now left.
  - now rewrite O3, O2, O1, <- !app_assoc.
Qed.

Lemma printed_since_print (e : event) (w w' : World) :
  evolves (print e w) w' -> In e (printed_since w w').
Proof.
  intros [_ [l O]]. rewrite (printed_since_app w w' (e :: l)); [now left|].
  rewrite O. unfold print. simpl. now rewrite <- app_assoc.
Qed.

Lemma evolves_error_processing (file_path : Path) (w : World) :
  evolves w (error_processing file_path w).
Proof. split; [reflexivity|]. now exists [ErrorProcessing (name file_path)]. Qed.

Lemma printed_error_processing (file_path : Path) (w : World) :
  In (ErrorProcessing (name file_path)) (printed_since w (error_processing file_path w)).
Proof.
  rewrite (printed_since_app w _ [ErrorProcessing (name file_path)]); [now left | reflexivity].
Qed.

Lemma resolve_evolves (w w' : World) (p : Path) : evolves w w' -> resolve w' p = resolve w p.
Proof. intros [H _]. now apply resolve_same_cwd. Qed.

(** [prompt_retry] reads and prints, and leaves the filesystem alone. *)
Lemma prompt_retry_from_spec (action_desc : string) (lines : list string) (w : World) :
  let r := prompt_retry_from action_desc lines w in
  evolves w (res_world r) /\ fs (res_world r) = fs w /\
  List.length (stdin (res_world r)) <= List.length lines /\
  (forall b w', r = Ret b w' -> List.length (stdin w') < List.length lines).
Proof.
  revert w. induction lines as [|line rest IH]; intros w; simpl.
  - split; [|split; [reflexivity|split; [simpl; lia|discriminate]]].
    eapply evolves_trans; [apply evolves_print | apply evolves_set_stdin].
  - destruct (retry_answer line) as [b|].
    + split; [|split; [reflexivity|split; [simpl; lia|]]].
      * eapply evolves_trans; [apply evolves_print | apply evolves_set_stdin].
      * intros b' w' [= _ <-]. simpl. lia.
    + specialize (IH (print PleaseEnterYN
                        (set_stdin rest (print (AskRetry action_desc) w)))).
      simpl in IH. destruct IH as (Hev & Hfs & Hlen & Hret).
      split; [|split; [exact Hfs|split; [lia|]]].
      * eapply evolves_trans; [|exact Hev].
        eapply evolves_trans; [apply evolves_print|].
        eapply evolves_trans; [apply evolves_set_stdin | apply evolves_print].
      * intros b w' E. specialize (Hret b w' E). lia.
Qed.

Lemma prompt_retry_spec (action_desc : string) (w : World) :
  let r := prompt_retry action_desc w in
  evolves w (res_world r) /\ fs (res_world r) = fs w /\
  (forall b w', r = Ret b w' -> List.length (stdin w') < List.length (stdin w)).
Proof.
  destruct (prompt_retry_from_spec action_desc (stdin w) w) as (H1 & H2 & _ & H4).
  unfold prompt_retry. cbv zeta. split; [exact H1|]. split; [exact H2 | exact H4].
Qed.

Lemma mkdir_spec (w w' : World) (p : Path) :
  mkdir w p = Some w' ->
  evolves w w' /\ mkdir_parents (resolve w p) (fs w) = Some (fs w').
Proof.
  unfold mkdir. destruct (mkdir_parents (resolve w p) (fs w)) as [f|]; [|discriminate].
  intros [= <-]. split; [apply evolves_set_fs | reflexivity].
Qed.

(** [create_folder_if_not_exists] leaves the filesystem as it is or as
    [mkdir] made it. *)
Lemma create_folder_loop_spec (fuel : nat) (folder_path : Path) (w : World) :
  let r := create_folder_loop fuel folder_path w in
  evolves w (res_world r) /\
  (fs (res_world r) = fs w \/
   mkdir_parents (resolve w folder_path) (fs w) = Some (fs (res_world r))).
Proof.
  revert w. induction fuel as [|fuel IH]; intros w; simpl.
  - split; [apply evolves_refl | now left].
  - destruct (exists_ w folder_path); [split; [apply evolves_refl | now left]|].
    destruct (mkdir w folder_path) as [w1|] eqn:Em.
    + apply mkdir_spec in Em as [Hev Hm]. simpl. split; [|now right].
      eapply evolves_trans; [exact Hev | apply evolves_print].
    + set (w1 := print (CannotCreateFolder (str folder_path)) (log_exception _ w)).
      destruct (prompt_retry_spec (quoted "Cannot create folder" (str folder_path)) w1)
        as (Hev & Hfs & _).
      assert (Hev1 : evolves w w1) by apply evolves_logged_print.
      destruct (prompt_retry _ w1) as [[|] w2|e w2]; simpl in Hev, Hfs |- *.
      * destruct (IH w2) as [Hev2 Hfs2].
        split; [eapply evolves_trans; [|exact Hev2]; eapply evolves_trans; eassumption|].
        rewrite Hfs in Hfs2. change (fs w1) with (fs w) in Hfs2.
        rewrite (resolve_evolves w w2) in Hfs2
          by (eapply evolves_trans; eassumption).
        exact Hfs2.
      * split; [eapply evolves_trans; eassumption | left; exact Hfs].
      * split; [eapply evolves_trans; eassumption | left; exact Hfs].
Qed.

Lemma load_moves_spec (log_file : Path) (w : World) :
  fst (load_moves log_file w) = logged_moves (fs w) (resolve w log_file) /\
  evolves w (snd (load_moves log_file w)) /\
  fs (snd (load_moves log_file w)) = fs w.
Proof.
  unfold load_moves, exists_, fs_exists, load_json, logged_moves.
  destruct (node_at (fs w) (resolve w log_file)) as [[sz [|[| | | |l|]|]|]|];
    simpl; repeat split; try apply evolves_refl; try apply evolves_print;
    try apply evolves_logged_print.
Qed.

(** [log_move] rewrites the log with one more record when it can
    write it, and changes nothing of the filesystem otherwise. *)
Lemma log_move_spec (directory original_path new_path : Path) (w : World) :
  let w' := log_move directory original_path new_path w in
  let l := resolve w (joinpath directory move_log_name) in
  evolves w w' /\
  exists timestamp size,
    fs w' = if can_write (fs w) l
            then put l (File size
                          (Json (JArr (logged_moves (fs w) l
                                       ++ [move_record timestamp original_path new_path]))))
                     (fs w)
            else fs w.
Proof.
  unfold log_move.
  destruct (load_moves_spec (joinpath directory move_log_name) w) as (Hm & Hev & Hfs).
  destruct (load_moves (joinpath directory move_log_name) w) as [moves w1].
  simpl in Hm, Hev, Hfs. unfold now_isoformat.
  set (w2 := mkWorld _ _ _ _ _ _ _ _).
  assert (Hev2 : evolves w w2).
  { destruct Hev as [Hc Ho]. split; [exact Hc | exact Ho]. }
  unfold dump_json. rewrite (resolve_evolves w w2 _ Hev2).
  change (fs w2) with (fs w1). rewrite Hfs. unfold can_write. subst moves.
  set (l := resolve w (joinpath directory move_log_name)).
  split.
  - destruct (node_at (fs w) l) as [[|]|].
    + eapply evolves_trans; [exact Hev2 | apply evolves_set_fs].
    + eapply evolves_trans; [exact Hev2 | apply evolves_logged_print].
    + destruct (fs_is_dir (fs w) (removelast l)).
      * eapply evolves_trans; [exact Hev2 | apply evolves_set_fs].
      * eapply evolves_trans; [exact Hev2 | apply evolves_logged_print].
  - eexists _, _.
    destruct (node_at (fs w) l) as [[|]|]; [reflexivity | exact Hfs |].
    destruct (fs_is_dir (fs w) (removelast l)); [reflexivity | exact Hfs].
Qed.

End Evolution.

(** ** The retry loops end *)

Section EnoughFuel.

Lemma prompt_retry_from_raises (action_desc : string) (lines : list string) (w w' : World)
    (e : exn) :
  prompt_retry_from action_desc lines w = Exc e w' -> e = EOFError.
Proof.
  revert w. induction lines as [|line rest IH]; intros w; simpl.
  - now intros [= <- _].
  - destruct (retry_answer line); [discriminate | apply IH].
Qed.

(** With one unit of fuel per line of input and one to spare, as
    [create_folder_if_not_exists] starts it, the loop does not run out. *)
Lemma create_folder_loop_enough_fuel (fuel : nat) (folder_path : Path) (w w' : World) :
  List.length (stdin w) < fuel ->
  create_folder_loop fuel folder_path w <> Exc OutOfFuel w'.
Proof.
  revert w. induction fuel as [|fuel IH]; intros w Hlen; [lia|]. simpl.
  destruct (exists_ w folder_path); [discriminate|].
  destruct (mkdir w folder_path); [discriminate|].
  set (w1 := print (CannotCreateFolder (str folder_path)) (log_exception _ w)).
  destruct (prompt_retry_spec (quoted "Cannot create folder" (str folder_path)) w1)
    as (_ & _ & Hshort).
  destruct (prompt_retry _ w1) as [[|] w2|e w2] eqn:E.
  - apply IH. specialize (Hshort true w2 eq_refl).
    change (stdin w1) with (stdin w) in Hshort. lia.
  - discriminate.
  - apply prompt_retry_from_raises in E. subst e. discriminate.
Qed.

Lemma move_loop_enough_fuel (fuel : nat) (directory file_path target : Path)
    (target_folder : string) (size : Z) (st : Stats) (w w' : World) :
  List.length (stdin w) < fuel ->
  move_loop fuel directory file_path target target_folder size st w <> Exc OutOfFuel w'.
Proof.
  revert w. induction fuel as [|fuel IH]; intros w Hlen; [lia|]. simpl.
  destruct (shutil_move w file_path target); [discriminate|].
  set (w1 := print (CannotMove (name file_path)) (log_exception _ w)).
  destruct (prompt_retry_spec (quoted "Cannot move" (name file_path)) w1)
    as (_ & _ & Hshort).
  destruct (prompt_retry _ w1) as [[|] w2|e w2] eqn:E.
  - apply IH. specialize (Hshort true w2 eq_refl).
    change (stdin w1) with (stdin w) in Hshort. lia.
  - discriminate.
  - apply prompt_retry_from_raises in E. subst e. discriminate.
Qed.

Lemma restore_loop_enough_fuel (fuel : nat) (new_path original_path : Path)
    (counts : nat * nat) (w w' : World) :
  List.length (stdin w) < fuel ->
  restore_loop fuel new_path original_path counts w <> Exc OutOfFuel w'.
Proof.
  revert w. induction fuel as [|fuel IH]; intros w Hlen; [lia|]. simpl.
  destruct (shutil_move w new_path original_path); [discriminate|].
  set (w1 := print (CannotRestore (name new_path)) (log_exception _ w)).
  destruct (prompt_retry_spec (quoted "Cannot restore" (name new_path)) w1)
    as (_ & _ & Hshort).
  destruct (prompt_retry _ w1) as [[|] w2|e w2] eqn:E.
  - apply IH. specialize (Hshort true w2 eq_refl).
    change (stdin w1) with (stdin w) in Hshort. lia.
  - discriminate.
  - apply prompt_retry_from_raises in E. subst e. discriminate.
Qed.

(** [undo_organization] never ends in the cut of a retry loop: it
    returns, or raises what the program raises. *)
Lemma undo_move_enough_fuel (move : dict) (counts : nat * nat) (w w' : World) :
  undo_move move counts w <> Exc OutOfFuel w'.
Proof.
  unfold undo_move, path_arg.
  destruct (get_or_empty "original" move); try discriminate.
  destruct (get_or_empty "new" move); try discriminate.
  destruct (orb _ _); [discriminate|].
  destruct (exists_ w _); [|discriminate].
  destruct (exists_ w _); [discriminate|].
  destruct (negb _).
  - destruct (mkdir _ _) as [w2|]; [|discriminate].
    apply restore_loop_enough_fuel. lia.
  - apply restore_loop_enough_fuel. lia.
Qed.

Lemma undo_loop_enough_fuel (moves : list dict) (counts : nat * nat) (w w' : World) :
  undo_loop moves counts w <> Exc OutOfFuel w'.
Proof.
  revert counts w. induction moves as [|m r IH]; intros counts w; simpl; [discriminate|].
  destruct (undo_move m counts w) as [c1 w1|e w1] eqn:E; [apply IH|].
  intros [= -> ->]. now apply undo_move_enough_fuel in E.
Qed.

End EnoughFuel.

(** ** One file of a real run *)

Section RealStep.

Lemma made_folder_refl (r : abspath) (c : string) (f : filesystem) : made_folder r c f f.
Proof. split; [apply only_new_dirs_refl | reflexivity]. Qed.

Lemma mkdir_parents_made_folder (r : abspath) (c : string) (f f' : filesystem) :
  mkdir_parents (r ++ [c]) f = Some f' -> made_folder r c f f'.
Proof.
  intros H. split; [now apply (mkdir_from_only_new_dirs _ _ _ _ H)|].
  intros x Hx Hxc.
  destruct (mkdir_from_spec _ _ _ _ H (r ++ x)) as [E|(_ & _ & k & rest & Ek & Hk & Eq)];
    [exact E|].
  exfalso. simpl in Eq. subst k. rewrite <- app_assoc in Ek.
  apply app_inv_head in Ek.
  destruct x as [|y x']; [congruence|]. simpl in Ek. injection Ek as <- Ek.
  symmetry in Ek. apply app_eq_nil in Ek as [-> _]. congruence.
Qed.

Lemma mkdir_parents_is_dir (p : abspath) (f f' : filesystem) :
  mkdir_parents p f = Some f' -> fs_is_dir f' p = true.
Proof. intros H. now apply (mkdir_from_is_dir p [] f f' H). Qed.

Lemma kept_if_present (f f' : filesystem) (q : abspath) (n : node) :
  only_new_dirs f f' -> node_at f q = Some n -> node_at f' q = Some n.
Proof. intros H E. destruct (H q) as [E'|[E' _]]; congruence. Qed.

(** The inner loop moves the file and logs the move, or gives up
    after a reported failure with the filesystem as it was. *)
Lemma move_loop_spec (fuel : nat) (directory file_path target : Path)
    (target_folder : string) (size : Z) (st : Stats) (w : World) :
  let r := move_loop fuel directory file_path target target_folder size st w in
  evolves w (res_world r) /\
  match r with
  | Ret st' w' =>
      (st' = skip st /\ fs w' = fs w /\
       exists e, is_error e = true /\ In e (printed_since w w')) \/
      (st' = count_move target_folder size st /\
       exists f2 w1,
         move_fs (fs w) (parts file_path) (resolve w file_path) (resolve w target) = Some f2 /\
         evolves w w1 /\ fs w1 = f2 /\ w' = log_move directory file_path target w1)
  | Exc _ w' => fs w' = fs w
  end.
Proof.
  revert w. induction fuel as [|fuel IH]; intros w; simpl.
  - split; [apply evolves_refl | reflexivity].
  - unfold shutil_move.
    destruct (move_fs (fs w) (parts file_path) (resolve w file_path) (resolve w target))
      as [f2|] eqn:Em.
    + set (w1 := print (Moved (name file_path) target_folder) (set_fs f2 w)).
      assert (Hev1 : evolves w w1).
      { eapply evolves_trans; [apply evolves_set_fs | apply evolves_print]. }
      split.
      * eapply evolves_trans; [exact Hev1|]. simpl.
        apply (log_move_spec directory file_path target w1).
      * right. split; [reflexivity|]. exists f2, w1.
        split; [reflexivity|]. split; [exact Hev1|]. split; reflexivity.
    + set (w1 := print (CannotMove (name file_path)) (log_exception _ w)).
      destruct (prompt_retry_spec (quoted "Cannot move" (name file_path)) w1)
        as (Hev & Hfs & _).
      assert (Hev1 : evolves w w1) by apply evolves_logged_print.
      destruct (prompt_retry _ w1) as [[|] w2|e w2]; simpl in Hev, Hfs.
      * assert (Hev2 : evolves w w2) by (eapply evolves_trans; eassumption).
        assert (Hfs2 : fs w2 = fs w) by exact Hfs.
        destruct (IH w2) as [Hev3 Hr].
        split; [eapply evolves_trans; eassumption|].
        destruct (move_loop fuel directory file_path target target_folder size st w2)
          as [st' w'|e w']; simpl in Hev3.
        -- destruct Hr as [(-> & Hfs' & e & He & Hin)|(-> & f2 & w1' & Hm & Hev' & Hf & ->)].
           ++ left. split; [reflexivity|]. split; [congruence|]. exists e.
              split; [exact He|].
              apply (printed_since_within w w2 w' w' e Hev2 Hev3 (evolves_refl _) Hin).
           ++ exfalso.
              rewrite Hfs2, !(resolve_evolves w w2) in Hm by exact Hev2.
              congruence.
        -- congruence.
      * split; [eapply evolves_trans; eassumption|].
        left. split; [reflexivity|]. split; [exact Hfs|].
        exists (CannotMove (name file_path)). split; [reflexivity|].
        apply printed_since_print. exact Hev.
      * split; [eapply evolves_trans; eassumption | exact Hfs].
Qed.

End RealStep.

(** ** A run over plain category names *)

Section PlainRun.

Variables (directory : Path) (rules : sorting_rules).
Hypothesis Hplain : plain_categories rules.

Lemma target_folder_valid (ext : string) :
  valid_name (find_target_folder ext rules) = true.
Proof.
  unfold plain_categories in Hplain.
  induction rules as [|[c es] r IH]; simpl; [reflexivity|].
  destruct (Str.mem ext es).
  - apply (Hplain c es). now left.
  - apply IH. intros c' es' H. apply (Hplain c' es'). now right.
Qed.

Lemma resolve_child (w : World) (p : Path) (n : string) :
  resolve w (child_path p n) = resolve w p ++ [n].
Proof.
  unfold resolve, child_path, is_absolute. simpl.
  destruct (anchor_of p); [apply app_assoc | reflexivity | reflexivity].
Qed.

Lemma name_child (p : Path) (n : string) : name (child_path p n) = n.
Proof. unfold name, child_path. simpl. apply last_last. Qed.

Lemma joinpath_child (p : Path) (n : string) :
  valid_name n = true -> joinpath p n = child_path p n.
Proof. apply joinpath_valid_name. Qed.

Lemma snoc_neq_snoc2 (r : abspath) (x y z : string) : r ++ [x] <> r ++ [y; z].
Proof. intros H. apply app_inv_head in H. discriminate. Qed.

Lemma removelast_snoc2 (r : abspath) (x y : string) : removelast (r ++ [x; y]) = r ++ [x].
Proof.
  change [x; y] with ([x] ++ [y]). rewrite app_assoc. apply removelast_last.
Qed.

(** One file of a real run, when its name and its category are plain
    names: a collision, a reported failure, or the move. *)
Lemma organize_file_real (n : string) (size : Z) (data : content)
    (st st' : Stats) (w w' : World) :
  valid_name n = true ->
  let c := find_target_folder (get_file_extension (child_path directory n)) rules in
  let r := resolve w directory in
  node_at (fs w) (r ++ [n]) = Some (File size data) ->
  organize_file directory false rules (child_path directory n) st w = (st', w') ->
  evolves w w' /\
  ((fs_exists (fs w) (r ++ [c; n]) = true /\ st' = skip st /\ fs w' = fs w) \/
   (st' = skip st /\ (exists e, is_error e = true /\ In e (printed_since w w')) /\
    made_folder r c (fs w) (fs w')) \/
   (fs_exists (fs w) (r ++ [c; n]) = false /\ st' = count_move c size st /\
    exists f1 timestamp size',
      made_folder r c (fs w) f1 /\ fs_is_dir f1 (r ++ [c]) = true /\
      let f2 := put (r ++ [c; n]) (File size data) (remove (r ++ [n]) f1) in
      let l := r ++ [move_log_name] in
      fs w' = if can_write f2 l
              then put l (File size'
                            (Json (JArr (logged_moves f2 l
                                         ++ [move_record timestamp (child_path directory n)
                                               (child_path (child_path directory c) n)]))))
                       f2
              else f2)).
Proof.
  intros Hn c r Hnode. unfold organize_file. fold c.
  pose proof (target_folder_valid (get_file_extension (child_path directory n))) as Hc.
  fold c in Hc.
  rewrite name_child, (joinpath_child directory c Hc), (joinpath_child _ n Hn).
  unfold st_size, exists_. rewrite !resolve_child. fold r. rewrite Hnode.
  rewrite <- (app_assoc r [c] [n]). simpl app.
  destruct (fs_exists (fs w) (r ++ [c; n])) eqn:Eex.
  { intros [= <- <-]. split; [apply evolves_print|]. left. now repeat split. }
  unfold create_folder_if_not_exists.
  pose proof (create_folder_loop_spec (S (List.length (stdin w)))
                (child_path directory c) w) as [Hev1 Hfs1].
  rewrite resolve_child in Hfs1. fold r in Hfs1.
  assert (Hmade : made_folder r c (fs w)
                    (fs (res_world (create_folder_loop (S (List.length (stdin w)))
                                      (child_path directory c) w)))).
  { destruct Hfs1 as [->|Hm]; [apply made_folder_refl|].
    now apply mkdir_parents_made_folder. }
  destruct (create_folder_loop (S (List.length (stdin w))) (child_path directory c) w)
    as [[] w1|e w1]; simpl in Hev1, Hfs1, Hmade.
  2:{ intros [= <- <-].
      assert (Hev : evolves w (error_processing (child_path directory n) w1))
        by (eapply evolves_trans; [exact Hev1 | apply evolves_error_processing]).
      split; [exact Hev|]. right. left. split; [reflexivity|]. split; [|exact Hmade].
      exists (ErrorProcessing (name (child_path directory n))). split; [reflexivity|].
      apply (printed_since_within w w1 (error_processing (child_path directory n) w1) _ _
               Hev1 (evolves_error_processing _ _) (evolves_refl _)).
      apply printed_error_processing. }
  pose proof (move_loop_spec (S (List.length (stdin w1))) directory (child_path directory n)
                (child_path (child_path directory c) n) c size st w1) as [Hev2 Hr].
  rewrite !(resolve_evolves w w1) in Hr by exact Hev1.
  rewrite !resolve_child in Hr. fold r in Hr.
  rewrite <- (app_assoc r [c] [n]) in Hr. simpl app in Hr.
  destruct (move_loop (S (List.length (stdin w1))) directory (child_path directory n)
              (child_path (child_path directory c) n) c size st w1) as [st2 w2|e w2];
    simpl in Hev2.
  2:{ intros [= <- <-].
      assert (Hev : evolves w (error_processing (child_path directory n) w2)).
      { eapply evolves_trans; [exact Hev1|].
        eapply evolves_trans; [exact Hev2 | apply evolves_error_processing]. }
      split; [exact Hev|]. right. left. split; [reflexivity|].
      split; [|simpl; now rewrite Hr].
      exists (ErrorProcessing (name (child_path directory n))). split; [reflexivity|].
      apply (printed_since_within w w2 (error_processing (child_path directory n) w2) _ _
               (evolves_trans _ _ _ Hev1 Hev2) (evolves_error_processing _ _)
               (evolves_refl _)).
      apply printed_error_processing. }
  intros [= <- <-].
  assert (Hev : evolves w w2) by (eapply evolves_trans; eassumption).
  split; [exact Hev|]. right.
  destruct Hr as [(-> & Hfs2 & e & He & Hin)|(-> & f2 & w1' & Hm & Hev' & Hf & ->)].
  { left. split; [reflexivity|]. split; [|now rewrite Hfs2].
    exists e. split; [exact He|].
    apply (printed_since_within w w1 w2 w2 e Hev1 Hev2 (evolves_refl _) Hin). }
  right. split; [reflexivity|]. split; [reflexivity|].
  (* the move itself *)
  assert (Hsrc : node_at (fs w1) (r ++ [n]) = Some (File size data))
    by (apply (kept_if_present (fs w) _ _ _ (proj1 Hmade) Hnode)).
  assert (Hdst : node_at (fs w1) (r ++ [c; n]) = None).
  { change [c; n] with ([c; n] : abspath). rewrite (proj2 Hmade) by discriminate.
    unfold fs_exists in Eex. now destruct (node_at (fs w) (r ++ [c; n])). }
  unfold move_fs, fs_is_dir in Hm. rewrite Hdst in Hm.
  unfold rename_to in Hm. rewrite Hsrc in Hm.
  assert (Hne : path_eqb (r ++ [n]) (r ++ [c; n]) = false)
    by (apply path_eqb_neq, snoc_neq_snoc2).
  rewrite Hne, removelast_snoc2 in Hm.
  destruct (fs_is_dir (fs w1) (r ++ [c])) eqn:Edir; [|discriminate].
  injection Hm as <-.
  destruct (log_move_spec directory (child_path directory n)
              (child_path (child_path directory c) n) w1') as [_ (ts & sz & Hlog)].
  rewrite (joinpath_child directory move_log_name) in Hlog by reflexivity.
  rewrite (resolve_evolves w w1' _ (evolves_trans _ _ _ Hev1 Hev')) in Hlog.
  rewrite resolve_child in Hlog. fold r in Hlog. rewrite Hf in Hlog.
  exists (fs w1), ts, sz. split; [exact Hmade|]. split; [exact Edir|]. exact Hlog.
Qed.

End PlainRun.

(** ** What [files_to_organize] lists *)

Section Listing.

Lemma strip_prefix_spec (pre p rest : abspath) :
  strip_prefix pre p = Some rest <-> p = pre ++ rest.
Proof.
  revert p. induction pre as [|x pre IH]; intros p; simpl.
  - split; congruence.
  - destruct p as [|y p]; [split; discriminate|].
    destruct (String.eqb x y) eqn:E.
    + apply String.eqb_eq in E. subst y. rewrite IH. split; congruence.
    + apply String.eqb_neq in E. split; [discriminate | congruence].
Qed.

Lemma entry_name_spec (dir : abspath) (e : abspath * node) (n : string) :
  entry_name dir e = Some n <-> fst e = dir ++ [n].
Proof.
  unfold entry_name. destruct (strip_prefix dir (fst e)) as [rest|] eqn:E.
  - apply strip_prefix_spec in E. rewrite E. destruct rest as [|x [|y rest]].
    + split; [discriminate|]. intros H. apply app_inv_head in H. discriminate.
    + split; [congruence|]. intros H. apply app_inv_head in H. congruence.
    + split; [discriminate|]. intros H. apply app_inv_head in H. discriminate.
  - split; [discriminate|]. intros H. apply strip_prefix_spec in H. congruence.
Qed.

Lemma listdir_In (dir : abspath) (f : filesystem) (n : string) :
  In n (listdir dir f) <-> exists nd, In (dir ++ [n], nd) f.
Proof.
  induction f as [|[k nd] r IH]; simpl.
  - split; [contradiction | intros [? []]].
  - destruct (entry_name dir (k, nd)) as [m|] eqn:E.
    + apply entry_name_spec in E. simpl in E. subst k. simpl. rewrite IH. split.
      * intros [<-|[nd' H]]; [exists nd; now left | exists nd'; now right].
      * intros [nd' [H|H]].
        -- injection H as H _. apply app_inv_head in H. left. congruence.
        -- right. now exists nd'.
    + rewrite IH. split.
      * intros [nd' H]. exists nd'. now right.
      * intros [nd' [H|H]]; [|now exists nd'].
        injection H as -> _.
        exfalso. assert (E' : @None string = Some n); [|discriminate].
        rewrite <- E. apply entry_name_spec. reflexivity.
Qed.

Lemma listdir_NoDup (dir : abspath) (f : filesystem) :
  NoDup (map fst f) -> NoDup (listdir dir f).
Proof.
  induction f as [|[k nd] r IH]; simpl; intros H; [constructor|].
  inversion H as [|? ? Hk Hr]; subst.
  destruct (entry_name dir (k, nd)) as [m|] eqn:E; [|now apply IH].
  apply entry_name_spec in E. simpl in E. subst k.
  constructor; [|now apply IH].
  intros Hin. apply listdir_In in Hin as [nd' Hin]. apply Hk.
  apply in_map_iff. now exists (dir ++ [m], nd').
Qed.

Lemma filter_map_comm {A B : Type} (g : A -> B) (p : B -> bool) (l : list A) :
  filter p (map g l) = map g (filter (fun x => p (g x)) l).
Proof.
  induction l as [|x r IH]; simpl; [reflexivity|].
  destruct (p (g x)); simpl; now rewrite IH.
Qed.

(** The files [organize_files] goes through: regular files directly
    inside the directory, each listed once, none of them a log. *)
Lemma files_to_organize_spec (directory : Path) (w : World) :
  well_formed (fs w) ->
  exists names,
    files_to_organize directory w = map (child_path directory) names /\
    NoDup names /\
    forall n, In n names ->
      valid_name n = true /\ n <> move_log_name /\ n <> error_log_name /\
      exists size data,
        node_at (fs w) (resolve w directory ++ [n]) = Some (File size data).
Proof.
  intros [Hnodup Hvalid].
  unfold files_to_organize, iterdir. rewrite filter_map_comm.
  eexists. split; [reflexivity|]. split.
  - apply NoDup_filter. now apply listdir_NoDup.
  - intros n Hin. apply filter_In in Hin as [Hin Hp].
    apply andb_true_iff in Hp as [Hfile Hlog].
    rewrite name_child in Hlog. apply negb_true_iff, mem_false_iff in Hlog.
    apply listdir_In in Hin as [nd Hin].
    split; [|split; [|split]].
    + specialize (Hvalid _ _ Hin). rewrite Forall_forall in Hvalid.
      apply Hvalid. apply in_or_app. right. now left.
    + intros ->. apply Hlog. right. now left.
    + intros ->. apply Hlog. now left.
    + unfold is_file, fs_is_file in Hfile. rewrite resolve_child in Hfile.
      destruct (node_at (fs w) (resolve w directory ++ [n])) as [[size data|]|];
        try discriminate. now eexists _, _.
Qed.

End Listing.

(** ** Dry run against real run *)

Section DryAgainstReal.

Lemma organize_file_evolves (directory : Path) (dry_run : bool) (rules : sorting_rules)
    (file_path : Path) (st : Stats) (w : World) :
  evolves w (snd (organize_file directory dry_run rules file_path st w)).
Proof.
  unfold organize_file.
  destruct (st_size w file_path) as [size|]; [|apply evolves_print].
  destruct (exists_ w _); [apply evolves_print|].
  destruct dry_run; [apply evolves_print|].
  unfold create_folder_if_not_exists.
  match goal with |- context [create_folder_loop ?fuel ?p w] =>
    pose proof (create_folder_loop_spec fuel p w) as [Hev1 _];
    destruct (create_folder_loop fuel p w) as [[] w1|e w1]; simpl in Hev1
  end.
  2:{ eapply evolves_trans; [exact Hev1 | apply evolves_print]. }
  match goal with |- context [move_loop ?fuel ?d ?f ?t ?c ?s ?st w1] =>
    pose proof (move_loop_spec fuel d f t c s st w1) as [Hev2 _];
    destruct (move_loop fuel d f t c s st w1) as [st2 w2|e w2]; simpl in Hev2 |- *
  end.
  - eapply evolves_trans; eassumption.
  - eapply evolves_trans; [exact Hev1|].
    eapply evolves_trans; [exact Hev2 | apply evolves_print].
Qed.

Lemma organize_loop_evolves (directory : Path) (dry_run : bool) (rules : sorting_rules)
    (files : list Path) (st : Stats) (w : World) :
  evolves w (snd (organize_loop directory dry_run rules files st w)).
Proof.
  revert st w. induction files as [|f rest IH]; intros st w; simpl; [apply evolves_refl|].
  pose proof (organize_file_evolves directory dry_run rules f st w) as H.
  destruct (organize_file directory dry_run rules f st w) as [st' w']. simpl in H.
  eapply evolves_trans; [exact H | apply IH].
Qed.

Variables (directory : Path) (rules : sorting_rules).
Hypothesis Hplain : plain_categories rules.

(** One file of a dry run. *)
Lemma organize_file_dry_plain (n : string) (size : Z) (data : content)
    (st : Stats) (w : World) :
  valid_name n = true ->
  let c := find_target_folder (get_file_extension (child_path directory n)) rules in
  let r := resolve w directory in
  node_at (fs w) (r ++ [n]) = Some (File size data) ->
  exists e,
    organize_file directory true rules (child_path directory n) st w =
    (if fs_exists (fs w) (r ++ [c; n]) then skip st else count_move c size st, print e w).
Proof.
  intros Hn c r Hnode. unfold organize_file. fold c.
  pose proof (target_folder_valid rules Hplain
                (get_file_extension (child_path directory n))) as Hc.
  fold c in Hc.
  rewrite name_child, (joinpath_child directory c Hc), (joinpath_child _ n Hn).
  unfold st_size, exists_. rewrite !resolve_child. fold r. rewrite Hnode.
  rewrite <- (app_assoc r [c] [n]). simpl app.
  destruct (fs_exists (fs w) (r ++ [c; n])); now eexists.
Qed.

(** The loop of a dry run and the loop of a real run count alike, as
    long as the real run reports no failure. *)
Lemma dry_and_real_loops (names : list string) :
  forall (st : Stats) (wd wr : World),
    NoDup names ->
    (forall n, In n names -> valid_name n = true /\ n <> move_log_name) ->
    cwd wd = cwd wr ->
    (forall n, In n names -> exists size data,
        node_at (fs wd) (resolve wr directory ++ [n]) = Some (File size data) /\
        node_at (fs wr) (resolve wr directory ++ [n]) = Some (File size data)) ->
    (forall n c, In n names ->
        node_at (fs wr) (resolve wr directory ++ [c; n])
        = node_at (fs wd) (resolve wr directory ++ [c; n])) ->
    (forall e, In e (printed_since wr
                       (snd (organize_loop directory false rules
                               (map (child_path directory) names) st wr))) ->
               is_error e = false) ->
    fst (organize_loop directory true rules (map (child_path directory) names) st wd)
    = fst (organize_loop directory false rules (map (child_path directory) names) st wr).
Proof.
  induction names as [|n names IH]; intros st wd wr Hnd Hval Hcwd Hsrc Hdst Hok;
    [reflexivity|].
  inversion Hnd as [|? ? Hnotin Hnd']; subst.
  destruct (Hval n (or_introl eq_refl)) as [Hn Hnlog].
  destruct (Hsrc n (or_introl eq_refl)) as (size & data & Hd & Hr).
  assert (Hres : resolve wd directory = resolve wr directory)
    by now apply resolve_same_cwd.
  set (r := resolve wr directory) in *.
  set (c := find_target_folder (get_file_extension (child_path directory n)) rules).
  destruct (organize_file_dry_plain n size data st wd Hn) as [e He];
    [now rewrite Hres|].
  rewrite Hres in He. fold r c in He.
  simpl map. simpl organize_loop. rewrite He.
  simpl in Hok.
  destruct (organize_file directory false rules (child_path directory n) st wr)
    as [st1 w1] eqn:Estep.
  pose proof (organize_loop_evolves directory false rules
                (map (child_path directory) names) st1 w1) as Hrest.
  destruct (organize_file_real directory rules Hplain n size data st st1 wr w1 Hn Hr Estep)
    as [Hev Hcases].
  fold r c in Hcases.
  assert (Hcwd1 : cwd (print e wd) = cwd w1) by (destruct Hev as [-> _]; exact Hcwd).
  assert (Hr1 : resolve w1 directory = r) by (apply resolve_evolves; exact Hev).
  assert (Hok1 : forall e0,
             In e0 (printed_since w1
                      (snd (organize_loop directory false rules
                              (map (child_path directory) names) st1 w1))) ->
             is_error e0 = false).
  { intros e0 Hin. apply Hok.
    apply (printed_since_within wr w1 _ _ e0 Hev Hrest (evolves_refl _) Hin). }
  assert (Hframe : fs w1 = fs wr \/
            (forall m, In m names -> node_at (fs w1) (r ++ [m]) = node_at (fs wr) (r ++ [m]))
            /\ (forall m c', In m names ->
                  node_at (fs w1) (r ++ [c'; m]) = node_at (fs wr) (r ++ [c'; m]))
          -> fst (organize_loop directory true rules
                    (map (child_path directory) names) st1 (print e wd))
             = fst (organize_loop directory false rules
                      (map (child_path directory) names) st1 w1)).
  { intros Hfs. apply IH; try assumption.
    - intros m Hm. apply Hval. now right.
    - intros m Hm. rewrite Hr1.
      destruct (Hsrc m (or_intror Hm)) as (sz & dt & Hd' & Hr').
      exists sz, dt. split; [exact Hd'|].
      destruct Hfs as [->|[H1 _]]; [exact Hr' | now rewrite H1].
    - intros m c' Hm. rewrite Hr1. change (fs (print e wd)) with (fs wd).
      rewrite <- (Hdst m c' (or_intror Hm)).
      destruct Hfs as [->|[_ H2]]; [reflexivity | now apply H2]. }
  destruct Hcases as [(Hex & -> & Hfs)|[(-> & (e0 & He0 & Hin) & _)|
                      (Hex & -> & f1 & ts & sz & Hmade & Hdir & Hfs)]].
  - (* collision in the real run, hence in the dry run *)
    unfold fs_exists in Hex |- *.
    rewrite <- (Hdst n c (or_introl eq_refl)). fold r.
    destruct (node_at (fs wr) (r ++ [c; n])); [|discriminate].
    apply Hframe. now left.
  - (* a reported failure *)
    exfalso.
    assert (Herr : is_error e0 = false).
    { apply Hok.
      apply (printed_since_within wr wr w1 _ e0 (evolves_refl _) Hev Hrest Hin). }
    congruence.
  - (* the move *)
    unfold fs_exists in Hex |- *.
    rewrite <- (Hdst n c (or_introl eq_refl)). fold r.
    destruct (node_at (fs wr) (r ++ [c; n])); [discriminate|].
    apply Hframe. right.
    assert (Hmid : forall q, q <> r ++ [n] -> q <> r ++ [c; n] -> q <> r ++ [move_log_name] ->
                             node_at (fs w1) q
                             = node_at f1 q).
    { intros q Hq1 Hq2 Hq3. rewrite Hfs. cbv zeta.
      destruct (can_write _ _).
      - rewrite node_at_put_other by congruence.
        rewrite node_at_put_other by congruence.
        now rewrite node_at_remove by congruence.
      - rewrite node_at_put_other by congruence.
        now rewrite node_at_remove by congruence. }
    split.
    + intros m Hm.
      destruct (Hsrc m (or_intror Hm)) as (sz' & dt' & _ & Hr').
      fold r in Hr'.
      rewrite Hmid.
      * rewrite Hr'. apply (kept_if_present _ _ _ _ (proj1 Hmade) Hr').
      * intros E. apply app_inv_head in E. injection E as ->. contradiction.
      * apply snoc_neq_snoc2.
      * intros E. apply app_inv_head in E. injection E as ->.
        now destruct (Hval move_log_name (or_intror Hm)).
    + intros m c' Hm. rewrite Hmid.
      * apply (proj2 Hmade); discriminate.
      * intros E. symmetry in E. now apply snoc_neq_snoc2 in E.
      * intros E. apply app_inv_head in E. injection E as _ ->. contradiction.
      * intros E. symmetry in E. now apply snoc_neq_snoc2 in E.
Qed.

End DryAgainstReal.

Section Deciders.

Lemma no_dup_paths_sound (l : list abspath) : no_dup_paths l = true -> NoDup l.
Proof.
  induction l as [|p r IH]; simpl; intros H; [constructor|].
  apply andb_true_iff in H as [H1 H2]. constructor; [|now apply IH].
  intros Hin. apply negb_true_iff in H1.
  assert (Hex : existsb (path_eqb p) r = true).
  { apply existsb_exists. exists p. split; [exact Hin | apply path_eqb_refl]. }
  congruence.
Qed.

Lemma well_formedb_sound (f : filesystem) : well_formedb f = true -> well_formed f.
Proof.
  unfold well_formedb. intros H. apply andb_true_iff in H as [H1 H2].
  split; [now apply no_dup_paths_sound|].
  intros k n Hin. rewrite forallb_forall in H2. specialize (H2 _ Hin). simpl in H2.
  apply Forall_forall. now apply forallb_forall.
Qed.

Lemma plain_categoriesb_sound (rules : sorting_rules) :
  plain_categoriesb rules = true -> plain_categories rules.
Proof.
  unfold plain_categoriesb. intros H folder extensions Hin.
  rewrite forallb_forall in H. exact (H _ Hin).
Qed.

Lemma no_error_sound (l : list event) :
  forallb (fun e => negb (is_error e)) l = true ->
  forall e, In e l -> is_error e = false.
Proof.
  intros H e Hin. rewrite forallb_forall in H. now apply negb_true_iff, H.
Qed.

End Deciders.

Section DryRunCounts.




(** In that world both runs count one move and one skip. *)
Example mixed_world_counts :
  exists st, fst (organize_run "/d" false get_default_sorting_rules mixed_world)
             = Some (2, st) /\ moved_count st = 1 /\ skipped_count st = 1.
Proof. eexists. split; [vm_compute; reflexivity|]. split; reflexivity. Qed.

End DryRunCounts.

(** ** A real run that skips nothing *)

Section CleanRun.

Lemma kept_or_new_dir_trans (f g h : filesystem) (q : abspath) :
  kept_or_new_dir f g q -> kept_or_new_dir g h q -> kept_or_new_dir f h q.
Proof.
  intros [E1|[E1 E1']] [E2|[E2 E2']].
  - left. congruence.
  - right. split; congruence.
  - right. split; congruence.
  - congruence.
Qed.

Lemma move_loop_skipped (fuel : nat) (directory file_path target : Path)
    (target_folder : string) (size : Z) (st st' : Stats) (w w' : World) :
  move_loop fuel directory file_path target target_folder size st w = Ret st' w' ->
  skipped_count st <= skipped_count st'.
Proof.
  intros E.
  pose proof (move_loop_spec fuel directory file_path target target_folder size st w)
    as [_ H].
  rewrite E in H. destruct H as [(-> & _)|(-> & _)]; simpl; lia.
Qed.

Lemma organize_file_skipped (directory : Path) (dry_run : bool) (rules : sorting_rules)
    (file_path : Path) (st : Stats) (w : World) :
  skipped_count st <= skipped_count (fst (organize_file directory dry_run rules file_path st w)).
Proof.
  unfold organize_file.
  destruct (st_size w file_path) as [size|]; [|simpl; lia].
  destruct (exists_ w _); [simpl; lia|].
  destruct dry_run; [simpl; lia|].
  destruct (create_folder_if_not_exists _ w) as [[] w1|e w1]; [|simpl; lia].
  match goal with |- context [move_loop ?fuel ?d ?f ?t ?c ?s ?st w1] =>
    destruct (move_loop fuel d f t c s st w1) as [st2 w2|e w2] eqn:E
  end; [|simpl; lia].
  simpl. eapply move_loop_skipped. exact E.
Qed.

Lemma organize_loop_skipped (directory : Path) (dry_run : bool) (rules : sorting_rules)
    (files : list Path) (st : Stats) (w : World) :
  skipped_count st <= skipped_count (fst (organize_loop directory dry_run rules files st w)).
Proof.
  revert st w. induction files as [|f rest IH]; intros st w; simpl; [lia|].
  pose proof (organize_file_skipped directory dry_run rules f st w) as H.
  destruct (organize_file directory dry_run rules f st w) as [st1 w1]. simpl in H.
  specialize (IH st1 w1). lia.
Qed.

Lemma path_neq_snoc (r : abspath) (x : string) : r <> r ++ [x].
Proof.
  intros H. rewrite <- (app_nil_r r) in H at 1. apply app_inv_head in H. discriminate.
Qed.

Lemma path_neq_snoc2 (r : abspath) (x y : string) : r <> r ++ [x; y].
Proof.
  intros H. rewrite <- (app_nil_r r) in H at 1. apply app_inv_head in H. discriminate.
Qed.

Lemma snoc_inj (r : abspath) (x y : string) : r ++ [x] = r ++ [y] -> x = y.
Proof. intros H. apply app_inv_head in H. congruence. Qed.

Lemma snoc2_inj (r : abspath) (a b x y : string) :
  r ++ [a; b] = r ++ [x; y] -> a = x /\ b = y.
Proof. intros H. apply app_inv_head in H. split; congruence. Qed.

Variables (directory : Path) (rules : sorting_rules).
Hypothesis Hproper : proper_categories rules.

Lemma proper_is_plain : plain_categories rules.
Proof. intros folder extensions H. now destruct (Hproper folder extensions H). Qed.

End CleanRun.

(** ** Undoing the moves of such a run *)

Section UndoRestores.

Variables (directory : Path) (rules : sorting_rules).
Hypothesis Hplain : plain_categories rules.
Hypothesis Habs : is_absolute directory = true.
Hypothesis Hparts : Forall (fun x => clean_part x = true) (parts directory).

Lemma child_path_clean (p : Path) (n : string) :
  Forall (fun x => clean_part x = true) (parts p) -> valid_name n = true ->
  Forall (fun x => clean_part x = true) (parts (child_path p n)).
Proof.
  intros Hp Hn. unfold child_path. simpl. apply Forall_app. split; [exact Hp|].
  constructor; [now apply valid_name_clean | constructor].
Qed.

Lemma parent_child (p : Path) (n : string) (w : World) :
  resolve w (parent (child_path p n)) = resolve w p.
Proof. unfold parent, child_path, resolve. simpl. now rewrite removelast_last. Qed.

(** One record of the log of a run that skipped nothing: the file goes
    back to where it was. *)
Lemma undo_move_restores (n : string) (d : dict) (counts : nat * nat) (w : World)
    (size : Z) (data : content) :
  valid_name n = true ->
  logged_as directory rules n d ->
  let c := category_of directory rules n in
  let r := resolve w directory in
  fs_is_dir (fs w) r = true ->
  node_at (fs w) (r ++ [n]) = None ->
  node_at (fs w) (r ++ [c; n]) = Some (File size data) ->
  exists w',
    undo_move d counts w = Ret (S (fst counts), snd counts) w' /\
    evolves w w' /\
    fs w' = put (r ++ [n]) (File size data) (remove (r ++ [c; n]) (fs w)).
Proof.
  intros Hn [ts ->] c r Hdir Hsrc Hdst. fold c.
  assert (Hc : valid_name c = true) by apply (target_folder_valid rules Hplain).
  set (o := child_path directory n).
  set (t := child_path (child_path directory c) n).
  assert (Ho : Path_of (str o) = o)
    by (apply Path_of_str, child_path_clean; assumption).
  assert (Ht : Path_of (str t) = t).
  { apply Path_of_str, child_path_clean; [|assumption].
    apply child_path_clean; assumption. }
  assert (Hro : resolve w o = r ++ [n]) by apply resolve_child.
  assert (Hrt : resolve w t = r ++ [c; n]).
  { unfold t. rewrite !resolve_child, <- app_assoc. reflexivity. }
  unfold undo_move.
  change (get_or_empty "original" (move_items ts o t)) with (JStr (str o)).
  change (get_or_empty "new" (move_items ts o t)) with (JStr (str t)).
  unfold path_arg. rewrite Ho, Ht.
  change (is_absolute o) with (is_absolute directory).
  change (is_absolute t) with (is_absolute directory).
  rewrite Habs. cbn [negb orb].
  assert (Hpo : resolve w (parent o) = r) by apply parent_child.
  unfold exists_. rewrite Hpo, Hro, Hrt.
  unfold fs_exists at 1. rewrite Hdst.
  unfold fs_exists at 1. rewrite Hsrc.
  assert (Hr : fs_exists (fs w) r = true).
  { unfold fs_exists. unfold fs_is_dir in Hdir. now destruct (node_at (fs w) r). }
  rewrite Hr. cbn [negb].
  cbn [restore_loop]. unfold shutil_move, move_fs. rewrite Hro, Hrt.
  unfold fs_is_dir at 1. rewrite Hsrc.
  unfold rename_to. rewrite Hdst.
  assert (Hne : path_eqb (r ++ [c; n]) (r ++ [n]) = false).
  { apply path_eqb_neq. intros E. symmetry in E. now apply snoc_neq_snoc2 in E. }
  rewrite Hne, removelast_last, Hdir.
  eexists. split; [reflexivity|]. split; [|reflexivity].
  eapply evolves_trans; [apply evolves_set_fs | apply evolves_print].
Qed.

(** The loop over such records, in any order. *)
Lemma undo_loop_restores (names : list string) :
  forall (ds : list dict) (counts : nat * nat) (w : World),
    NoDup names ->
    (forall n, In n names -> valid_name n = true) ->
    Forall2 (logged_as directory rules) names ds ->
    let r := resolve w directory in
    fs_is_dir (fs w) r = true ->
    (forall n, In n names ->
        node_at (fs w) (r ++ [n]) = None /\
        exists size data,
          node_at (fs w) (r ++ [category_of directory rules n; n]) = Some (File size data)) ->
    exists w',
      undo_loop ds counts w = Ret (List.length names + fst counts, snd counts) w' /\
      evolves w w' /\
      (forall n, In n names ->
          node_at (fs w') (r ++ [n]) = node_at (fs w) (r ++ [category_of directory rules n; n])
          /\ node_at (fs w') (r ++ [category_of directory rules n; n]) = None) /\
      (forall q,
          (forall n, In n names ->
              q <> r ++ [n] /\ q <> r ++ [category_of directory rules n; n]) ->
          node_at (fs w') q = node_at (fs w) q).
Proof.
  induction names as [|n names IH]; intros ds counts w Hnd Hval Hds r Hdir Hnodes.
  { inversion Hds; subst. exists w. simpl. destruct counts.
    split; [reflexivity|]. split; [apply evolves_refl|]. split; [intros m []|reflexivity]. }
  inversion Hds as [|? d ? ds' Hd Hds']; subst.
  inversion Hnd as [|? ? Hnotin Hnd']; subst.
  destruct (Hnodes n (or_introl eq_refl)) as (Hsrc & size & data & Hdst).
  set (c := category_of directory rules n) in *.
  destruct (undo_move_restores n d counts w size data (Hval n (or_introl eq_refl))
              Hd Hdir Hsrc Hdst) as (w1 & Hstep & Hev1 & Hfs1).
  fold r c in Hfs1.
  assert (Hat1 : forall q, q <> r ++ [n] -> q <> r ++ [c; n] ->
                           node_at (fs w1) q = node_at (fs w) q).
  { intros q H1 H2. rewrite Hfs1, node_at_put_other by congruence.
    now rewrite node_at_remove by congruence. }
  assert (Hr1 : resolve w1 directory = r) by (apply resolve_evolves; exact Hev1).
  assert (Hdir1 : fs_is_dir (fs w1) r = true).
  { unfold fs_is_dir. rewrite Hat1; [exact Hdir | apply path_neq_snoc | apply path_neq_snoc2]. }
  specialize (IH ds' (S (fst counts), snd counts) w1 Hnd'
                (fun m Hm => Hval m (or_intror Hm)) Hds').
  rewrite Hr1 in IH.
  assert (Hneq : forall m, In m names -> n <> m) by (intros m Hm ->; contradiction).
  destruct (IH Hdir1) as (w' & Hloop & Hev' & Hback & Hother).
  { intros m Hm. destruct (Hnodes m (or_intror Hm)) as (Hs & sz & dt & Hd').
    fold r in Hs, Hd'. specialize (Hneq m Hm). split.
    - rewrite Hat1; [exact Hs | | apply snoc_neq_snoc2].
      intros E. apply snoc_inj in E. congruence.
    - exists sz, dt. rewrite Hat1; [exact Hd' | |].
      + intros E. symmetry in E. now apply snoc_neq_snoc2 in E.
      + intros E. apply snoc2_inj in E as [_ E]. congruence. }
  exists w'. split.
  { simpl. rewrite Hstep, Hloop. simpl. f_equal. f_equal. lia. }
  split; [eapply evolves_trans; eassumption|]. split.
  - intros m [<-|Hm].
    + fold c. split.
      * rewrite Hother.
        -- rewrite Hfs1, node_at_put_same; [now rewrite Hdst | now destruct r].
        -- intros m Hm. specialize (Hneq m Hm). split.
           ++ intros E. apply snoc_inj in E. congruence.
           ++ apply snoc_neq_snoc2.
      * rewrite Hother.
        -- rewrite Hfs1, node_at_put_other by apply snoc_neq_snoc2.
           rewrite node_at_nonempty by now destruct r.
           now rewrite lookup_remove, path_eqb_refl.
        -- intros m Hm. specialize (Hneq m Hm). split.
           ++ intros E. symmetry in E. now apply snoc_neq_snoc2 in E.
           ++ intros E. apply snoc2_inj in E as [_ E]. congruence.
    + destruct (Hback m Hm) as [H1 H2]. specialize (Hneq m Hm).
      split; [|exact H2]. rewrite H1. apply Hat1.
      * intros E. symmetry in E. now apply snoc_neq_snoc2 in E.
      * intros E. apply snoc2_inj in E as [_ E]. congruence.
  - intros q Hq. destruct (Hq n (or_introl eq_refl)) as [H1 H2].
    rewrite Hother; [now apply Hat1|]. intros m Hm. apply Hq. now right.
Qed.

End UndoRestores.

(** ** Category folders of any name *)

Section AnyCategory.

Variables (directory : Path) (rules : sorting_rules).
Hypothesis Habs : is_absolute directory = true.
Hypothesis Hparts : Forall (fun x => clean_part x = true) (parts directory).

Lemma resolve_absolute (w : World) (p : Path) :
  is_absolute p = true -> resolve w p = parts p.
Proof. intros H. unfold resolve. now rewrite H. Qed.

Lemma joinpath_absolute (c : string) : is_absolute (joinpath directory c) = true.
Proof.
  unfold joinpath. destruct (is_absolute (Path_of c)) eqn:E; [exact E | exact Habs].
Qed.

Lemma joinpath_clean (c : string) :
  Forall (fun x => clean_part x = true) (parts (joinpath directory c)).
Proof.
  unfold joinpath. destruct (is_absolute (Path_of c)); [apply Path_of_parts_clean|].
  cbn [parts]. apply Forall_app. split; [exact Hparts | apply Path_of_parts_clean].
Qed.

Lemma snoc_inj_both (p q : abspath) (x y : string) :
  p ++ [x] = q ++ [y] -> p = q /\ x = y.
Proof. intros H. now apply app_inj_tail in H. Qed.

Lemma not_above_snoc (p : abspath) (x : string) : ~ above (p ++ [x]) p.
Proof.
  intros [rest E]. apply (f_equal (@List.length string)) in E.
  rewrite !length_app in E. simpl in E. lia.
Qed.

(** What [mkdir(parents=True)] towards [t] makes of the table: every
    entry is kept, or is a new directory at or above [t]. *)
Lemma mkdir_parents_made (t : abspath) (f f' : filesystem) :
  mkdir_parents t f = Some f' ->
  forall q, node_at f' q = node_at f q \/
            (node_at f q = None /\ node_at f' q = Some Dir /\ above q t).
Proof.
  intros H q.
  destruct (mkdir_from_spec _ _ _ _ H q) as [E|(E1 & E2 & k & rest & -> & _ & ->)];
    [now left|].
  right. split; [exact E1|]. split; [exact E2|]. now exists rest.
Qed.

(** One file of a real run that is not skipped: the folder is there
    or is made, the file goes into it, and the move is logged. *)
Lemma organize_file_moved (n : string) (size : Z) (data : content)
    (st st' : Stats) (w w' : World) :
  valid_name n = true ->
  let c := category_of directory rules n in
  let r := parts directory in
  let t := target_dir directory rules n in
  node_at (fs w) (r ++ [n]) = Some (File size data) ->
  organize_file directory false rules (child_path directory n) st w = (st', w') ->
  skipped_count st' = skipped_count st ->
  evolves w w' /\
  node_at (fs w) (t ++ [n]) = None /\
  exists f1 timestamp size',
    (forall q, node_at f1 q = node_at (fs w) q \/
               (node_at (fs w) q = None /\ node_at f1 q = Some Dir /\ above q t)) /\
    let f2 := put (t ++ [n]) (File size data) (remove (r ++ [n]) f1) in
    let l := r ++ [move_log_name] in
    fs w' = if can_write f2 l
            then put l (File size'
                          (Json (JArr (logged_moves f2 l
                                       ++ [move_record timestamp (child_path directory n)
                                             (child_path (joinpath directory c) n)]))))
                     f2
            else f2.
Proof.
  intros Hn c r t Hnode. unfold organize_file.
  fold (category_of directory rules n). fold c.
  rewrite name_child, (joinpath_child (joinpath directory c) n Hn).
  assert (Hr : forall v, resolve v directory = r) by (intros v; now apply resolve_absolute).
  assert (Ht : forall v, resolve v (joinpath directory c) = t)
    by (intros v; apply resolve_absolute, joinpath_absolute).
  unfold st_size, exists_. rewrite !resolve_child, Hr, Ht, Hnode.
  destruct (fs_exists (fs w) (t ++ [n])) eqn:Eex.
  { intros [= <- <-]. simpl. lia. }
  assert (Hdst : node_at (fs w) (t ++ [n]) = None).
  { unfold fs_exists in Eex. now destruct (node_at (fs w) (t ++ [n])). }
  unfold create_folder_if_not_exists.
  pose proof (create_folder_loop_spec (S (List.length (stdin w)))
                (joinpath directory c) w) as [Hev1 Hfs1].
  rewrite Ht in Hfs1.
  destruct (create_folder_loop (S (List.length (stdin w))) (joinpath directory c) w)
    as [[] w1|e w1]; cbn [res_world] in Hev1, Hfs1.
  2:{ intros [= <- <-]. simpl. lia. }
  assert (Hmade : forall q, node_at (fs w1) q = node_at (fs w) q \/
                            (node_at (fs w) q = None /\ node_at (fs w1) q = Some Dir /\
                             above q t)).
  { destruct Hfs1 as [->|Hm]; [intros q; now left | now apply mkdir_parents_made]. }
  pose proof (move_loop_spec (S (List.length (stdin w1))) directory (child_path directory n)
                (child_path (joinpath directory c) n) c size st w1) as [Hev2 Hres].
  rewrite !resolve_child, Hr, Ht in Hres.
  destruct (move_loop (S (List.length (stdin w1))) directory (child_path directory n)
              (child_path (joinpath directory c) n) c size st w1) as [st2 w2|e w2];
    cbn [res_world] in Hev2.
  2:{ intros [= <- <-]. simpl. lia. }
  intros [= <- <-] Hskip.
  destruct Hres as [(-> & _)|(-> & f2 & w1' & Hm & Hev' & Hf & ->)];
    [simpl in Hskip; lia|].
  split; [eapply evolves_trans; eassumption|]. split; [exact Hdst|].
  assert (Hsrc1 : node_at (fs w1) (r ++ [n]) = Some (File size data)).
  { destruct (Hmade (r ++ [n])) as [E|[E _]]; congruence. }
  assert (Hdst1 : node_at (fs w1) (t ++ [n]) = None).
  { destruct (Hmade (t ++ [n])) as [E|(_ & _ & Habove)]; [congruence|].
    now apply not_above_snoc in Habove. }
  unfold move_fs, fs_is_dir in Hm. rewrite Hdst1 in Hm.
  unfold rename_to in Hm. rewrite Hsrc1 in Hm.
  assert (Hne : path_eqb (r ++ [n]) (t ++ [n]) = false).
  { apply path_eqb_neq. intros E. rewrite E in Hsrc1. congruence. }
  rewrite Hne, removelast_last in Hm.
  destruct (fs_is_dir (fs w1) t) eqn:Edir; [|discriminate].
  injection Hm as <-.
  destruct (log_move_spec directory (child_path directory n)
              (child_path (joinpath directory c) n) w1') as [_ (ts & sz & Hlog)].
  rewrite (joinpath_child directory move_log_name) in Hlog by reflexivity.
  rewrite resolve_child, Hr, Hf in Hlog.
  exists (fs w1), ts, sz. split; [exact Hmade | exact Hlog].
Qed.

(** The loop of a real run that skips nothing, for categories of any
    name: every file ends in its folder, the log holds one record per
    file, and every other location is kept or is a new directory on
    the way to one of the folders. *)
Lemma organize_loop_any_moved (names : list string) :
  forall (st : Stats) (w : World) (ds : list dict),
    let r := parts directory in
    let l := r ++ [move_log_name] in
    NoDup names ->
    (forall n, In n names -> valid_name n = true /\ n <> move_log_name) ->
    (forall n m, In n names -> In m names ->
        ~ above (r ++ [n]) (target_dir directory rules m)) ->
    (forall m, In m names -> ~ above l (target_dir directory rules m)) ->
    fs_is_dir (fs w) r = true ->
    log_state (fs w) l ds ->
    (forall n, In n names -> exists size data,
        node_at (fs w) (r ++ [n]) = Some (File size data)) ->
    forall st' w',
      organize_loop directory false rules (map (child_path directory) names) st w = (st', w') ->
      skipped_count st' = skipped_count st ->
      evolves w w' /\
      fs_is_dir (fs w') r = true /\
      (exists ds', Forall2 (logged_to directory rules) names ds' /\
                   log_state (fs w') l (ds ++ ds')) /\
      (forall n, In n names ->
          node_at (fs w) (target_dir directory rules n ++ [n]) = None /\
          node_at (fs w') (r ++ [n]) = None /\
          node_at (fs w') (target_dir directory rules n ++ [n])
          = node_at (fs w) (r ++ [n])) /\
      (forall q, q <> l ->
          (forall n, In n names ->
              q <> r ++ [n] /\ q <> target_dir directory rules n ++ [n]) ->
          node_at (fs w') q = node_at (fs w) q \/
          (node_at (fs w) q = None /\ node_at (fs w') q = Some Dir /\
           exists m, In m names /\ above q (target_dir directory rules m))).
Proof.
  induction names as [|n names IH];
    intros st w ds r l Hnd Hval Hclear Hclearlog Hdir Hlog Hsrc st' w' Hloop Hskip.
  { simpl in Hloop. injection Hloop as <- <-.
    split; [apply evolves_refl|]. split; [exact Hdir|].
    split; [exists []; split; [constructor | now rewrite app_nil_r]|].
    split; [intros n []|]. intros q _ _. now left. }
  inversion Hnd as [|? ? Hnotin Hnd']; subst.
  destruct (Hval n (or_introl eq_refl)) as [Hn Hnlog].
  destruct (Hsrc n (or_introl eq_refl)) as (size & data & Hnode).
  simpl in Hloop.
  destruct (organize_file directory false rules (child_path directory n) st w)
    as [st1 w1] eqn:Estep.
  pose proof (organize_file_skipped directory false rules (child_path directory n) st w)
    as Hmono1.
  rewrite Estep in Hmono1. simpl in Hmono1.
  pose proof (organize_loop_skipped directory false rules
                (map (child_path directory) names) st1 w1) as Hmono2.
  rewrite Hloop in Hmono2. simpl in Hmono2.
  assert (Hskip0 : skipped_count st1 = skipped_count st) by lia.
  assert (Hskip1 : skipped_count st' = skipped_count st1) by lia.
  destruct (organize_file_moved n size data st st1 w w1 Hn Hnode Estep Hskip0)
    as (Hev & Hdst & f1 & ts & sz & Hmade & Hfs).
  fold r in Hfs. fold l in Hfs. cbv zeta in Hfs.
  set (t := target_dir directory rules n) in *.
  set (c := category_of directory rules n) in *.
  set (f2 := put (t ++ [n]) (File size data) (remove (r ++ [n]) f1)) in *.
  assert (Hne_ST : r ++ [n] <> t ++ [n]) by (intros E; rewrite E in Hnode; congruence).
  assert (Hf2 : forall q, q <> r ++ [n] -> q <> t ++ [n] -> node_at f2 q = node_at f1 q).
  { intros q H1 H2. unfold f2.
    rewrite node_at_put_other by congruence. now rewrite node_at_remove by congruence. }
  assert (Hl_S : l <> r ++ [n]) by (intros E; apply snoc_inj in E; congruence).
  assert (Hl_T : l <> t ++ [n]).
  { intros E. apply snoc_inj_both in E as [_ E]. congruence. }
  assert (Hkeep : forall q x, node_at (fs w) q = Some x -> node_at f1 q = Some x).
  { intros q x Hq. destruct (Hmade q) as [E|[E _]]; congruence. }
  assert (Hl_f1 : node_at f1 l = node_at (fs w) l).
  { destruct (Hmade l) as [E|(_ & _ & Habove)]; [exact E|].
    now apply (Hclearlog n (or_introl eq_refl)) in Habove. }
  assert (Hr_w : node_at (fs w) r = Some Dir).
  { unfold fs_is_dir in Hdir. now destruct (node_at (fs w) r) as [[|]|]. }
  assert (Hr_T : r <> t ++ [n]) by (intros E; rewrite <- E in Hdst; congruence).
  assert (Hr_f2 : node_at f2 r = Some Dir).
  { rewrite Hf2 by (apply path_neq_snoc || exact Hr_T). now apply Hkeep. }
  assert (Hwrite : can_write f2 l = true /\ logged_moves f2 l = map JObj ds).
  { unfold can_write, logged_moves. rewrite (Hf2 l Hl_S Hl_T), Hl_f1.
    destruct Hlog as [[-> Hnone]|[sz0 Hfile]].
    - rewrite Hnone. unfold l. rewrite removelast_last.
      unfold fs_is_dir. now rewrite Hr_f2.
    - now rewrite Hfile. }
  destruct Hwrite as [Hcw Hlm]. rewrite Hcw, Hlm in Hfs.
  change [move_record ts (child_path directory n) (child_path (joinpath directory c) n)]
    with (map JObj [move_items ts (child_path directory n)
                      (child_path (joinpath directory c) n)]) in Hfs.
  rewrite <- map_app in Hfs.
  set (items := move_items ts (child_path directory n)
                  (child_path (joinpath directory c) n)) in *.
  assert (Hmid : forall q, q <> r ++ [n] -> q <> t ++ [n] -> q <> l ->
                           node_at (fs w1) q = node_at f1 q).
  { intros q H1 H2 H3. rewrite Hfs, node_at_put_other by congruence. now apply Hf2. }
  assert (Hdir1 : fs_is_dir (fs w1) r = true).
  { unfold fs_is_dir. rewrite Hfs, node_at_put_other.
    - now rewrite Hr_f2.
    - intros E. symmetry in E. now apply path_neq_snoc in E. }
  assert (Hl_ne : l <> []) by (unfold l; now destruct r).
  assert (Hlog1 : log_state (fs w1) l (ds ++ [items])).
  { right. exists sz. now rewrite Hfs, node_at_put_same. }
  assert (Hnm : forall m, In m names -> n <> m) by (intros m Hm ->; contradiction).
  assert (Hsrc1 : forall m, In m names ->
             node_at (fs w1) (r ++ [m]) = node_at (fs w) (r ++ [m])).
  { intros m Hm. specialize (Hnm m Hm). rewrite Hmid.
    - destruct (Hsrc m (or_intror Hm)) as (sz' & dt' & Hm').
      fold r in Hm'. rewrite Hm'. now apply Hkeep.
    - intros E. apply snoc_inj in E. congruence.
    - intros E. apply snoc_inj_both in E as [_ E]. congruence.
    - intros E. apply snoc_inj in E. subst m.
      now destruct (Hval move_log_name (or_intror Hm)). }
  destruct (IH st1 w1 (ds ++ [items]) Hnd'
               (fun m Hm => Hval m (or_intror Hm))
               (fun a b Ha Hb => Hclear a b (or_intror Ha) (or_intror Hb))
               (fun m Hm => Hclearlog m (or_intror Hm))
               Hdir1 Hlog1
               (fun m Hm => match Hsrc m (or_intror Hm) with
                            | ex_intro _ s0 (ex_intro _ d0 H0) =>
                                ex_intro _ s0 (ex_intro _ d0
                                  (eq_trans (Hsrc1 m Hm) H0))
                            end)
               st' w' Hloop Hskip1)
    as (Hev' & Hdir' & (ds' & Hds' & Hlog') & Hfiles' & Hkept').
  fold r in Hfiles', Hkept'. fold l in Hlog', Hkept'.
  split; [eapply evolves_trans; eassumption|]. split; [exact Hdir'|].
  split.
  { exists (items :: ds'). split.
    - constructor; [now exists ts | exact Hds'].
    - now rewrite <- app_assoc in Hlog'. }
  assert (HS1 : node_at (fs w1) (r ++ [n]) = None).
  { rewrite Hfs, node_at_put_other by congruence.
    unfold f2. rewrite node_at_put_other by congruence.
    rewrite node_at_snoc, lookup_remove, path_eqb_refl. reflexivity. }
  assert (HT1 : node_at (fs w1) (t ++ [n]) = Some (File size data)).
  { rewrite Hfs, node_at_put_other by congruence.
    unfold f2. rewrite node_at_put_same; [reflexivity | now destruct t]. }
  assert (Hother_S : forall m, In m names ->
             r ++ [n] <> r ++ [m] /\ r ++ [n] <> target_dir directory rules m ++ [m]).
  { intros m Hm. specialize (Hnm m Hm). split; intros E.
    - apply snoc_inj in E. congruence.
    - apply snoc_inj_both in E as [_ E]. congruence. }
  assert (Hother_T : forall m, In m names ->
             t ++ [n] <> r ++ [m] /\ t ++ [n] <> target_dir directory rules m ++ [m]).
  { intros m Hm. specialize (Hnm m Hm). split; intros E;
      apply snoc_inj_both in E as [_ E]; congruence. }
  split.
  { intros m [<-|Hm].
    - fold t. split; [exact Hdst|]. split.
      + destruct (Hkept' (r ++ [n]) (not_eq_sym Hl_S) Hother_S)
          as [E|(_ & _ & m & Hm & Habove)]; [congruence|].
        now apply (Hclear n m (or_introl eq_refl) (or_intror Hm)) in Habove.
      + destruct (Hkept' (t ++ [n]) (not_eq_sym Hl_T) Hother_T) as [E|(E & _)]; congruence.
    - destruct (Hfiles' m Hm) as (H1 & H2 & H3). specialize (Hnm m Hm).
      set (tm := target_dir directory rules m) in *.
      split; [|split; [exact H2 | now rewrite H3, Hsrc1]].
      destruct (node_at (fs w) (tm ++ [m])) as [x|] eqn:Ex; [|reflexivity].
      exfalso. apply Hkeep in Ex. rewrite <- Hmid in Ex; [congruence| | |].
      + intros E. apply snoc_inj_both in E as [_ E]. congruence.
      + intros E. apply snoc_inj_both in E as [_ E]. congruence.
      + intros E. apply snoc_inj_both in E as [_ E]. subst m.
        now destruct (Hval move_log_name (or_intror Hm)). }
  intros q Hql Hq.
  destruct (Hq n (or_introl eq_refl)) as [HqS HqT]. fold t in HqT.
  pose proof (Hmid q HqS HqT Hql) as E1.
  destruct (Hkept' q Hql (fun m Hm => Hq m (or_intror Hm)))
    as [E2|(E2 & E3 & m & Hm & Habove)];
    destruct (Hmade q) as [E0|(E0 & E0' & Habove0)].
  - left. congruence.
  - right. split; [exact E0|]. split; [congruence|]. exists n. split; [now left | exact Habove0].
  - right. split; [congruence|]. split; [exact E3|]. exists m. split; [now right | exact Habove].
  - congruence.
Qed.

(** One record of the log of such a run: the file goes back to where
    it was. *)
Lemma undo_move_back (n : string) (d : dict) (counts : nat * nat) (w : World)
    (size : Z) (data : content) :
  valid_name n = true ->
  logged_to directory rules n d ->
  let r := parts directory in
  let t := target_dir directory rules n in
  fs_is_dir (fs w) r = true ->
  node_at (fs w) (r ++ [n]) = None ->
  node_at (fs w) (t ++ [n]) = Some (File size data) ->
  exists w',
    undo_move d counts w = Ret (S (fst counts), snd counts) w' /\
    evolves w w' /\
    fs w' = put (r ++ [n]) (File size data) (remove (t ++ [n]) (fs w)).
Proof.
  intros Hn [ts ->] r t Hdir Hsrc Hdst.
  set (c := category_of directory rules n).
  set (o := child_path directory n).
  set (tp := child_path (joinpath directory c) n).
  assert (Ho : Path_of (str o) = o)
    by (apply Path_of_str, child_path_clean; assumption).
  assert (Ht : Path_of (str tp) = tp).
  { apply Path_of_str, child_path_clean; [apply joinpath_clean | assumption]. }
  assert (Hro : resolve w o = r ++ [n]).
  { unfold o. now rewrite resolve_child, (resolve_absolute w directory Habs). }
  assert (Hrt : resolve w tp = t ++ [n]).
  { unfold tp. now rewrite resolve_child, (resolve_absolute w _ (joinpath_absolute c)). }
  assert (Hao : is_absolute o = true) by exact Habs.
  assert (Hat : is_absolute tp = true) by exact (joinpath_absolute c).
  unfold undo_move.
  change (get_or_empty "original" (move_items ts o tp)) with (JStr (str o)).
  change (get_or_empty "new" (move_items ts o tp)) with (JStr (str tp)).
  unfold path_arg. rewrite Ho, Ht, Hao, Hat. cbn [negb orb].
  assert (Hpo : resolve w (parent o) = r).
  { unfold o. now rewrite parent_child, (resolve_absolute w directory Habs). }
  unfold exists_. rewrite Hpo, Hro, Hrt.
  unfold fs_exists at 1. rewrite Hdst.
  unfold fs_exists at 1. rewrite Hsrc.
  assert (Hr : fs_exists (fs w) r = true).
  { unfold fs_exists. unfold fs_is_dir in Hdir. now destruct (node_at (fs w) r). }
  rewrite Hr. cbn [negb].
  cbn [restore_loop]. unfold shutil_move, move_fs. rewrite Hro, Hrt.
  unfold fs_is_dir at 1. rewrite Hsrc.
  unfold rename_to. rewrite Hdst.
  assert (Hne : path_eqb (t ++ [n]) (r ++ [n]) = false).
  { apply path_eqb_neq. intros E. rewrite E in Hdst. congruence. }
  rewrite Hne, removelast_last, Hdir.
  eexists. split; [reflexivity|]. split; [|reflexivity].
  eapply evolves_trans; [apply evolves_set_fs | apply evolves_print].
Qed.

(** The loop over such records, in any order. *)
Lemma undo_loop_back (names : list string) :
  forall (ds : list dict) (counts : nat * nat) (w : World),
    let r := parts directory in
    NoDup names ->
    (forall n, In n names -> valid_name n = true) ->
    Forall2 (logged_to directory rules) names ds ->
    fs_is_dir (fs w) r = true ->
    (forall n, In n names ->
        node_at (fs w) (r ++ [n]) = None /\
        exists size data,
          node_at (fs w) (target_dir directory rules n ++ [n]) = Some (File size data)) ->
    exists w',
      undo_loop ds counts w = Ret (List.length names + fst counts, snd counts) w' /\
      evolves w w' /\
      (forall n, In n names ->
          node_at (fs w') (r ++ [n]) = node_at (fs w) (target_dir directory rules n ++ [n])
          /\ node_at (fs w') (target_dir directory rules n ++ [n]) = None) /\
      (forall q,
          (forall n, In n names ->
              q <> r ++ [n] /\ q <> target_dir directory rules n ++ [n]) ->
          node_at (fs w') q = node_at (fs w) q).
Proof.
  induction names as [|n names IH]; intros ds counts w r Hnd Hval Hds Hdir Hnodes.
  { inversion Hds; subst. exists w. simpl. destruct counts.
    split; [reflexivity|]. split; [apply evolves_refl|]. split; [intros m []|reflexivity]. }
  inversion Hds as [|? d ? ds' Hd Hds']; subst.
  inversion Hnd as [|? ? Hnotin Hnd']; subst.
  destruct (Hnodes n (or_introl eq_refl)) as (Hsrc & size & data & Hdst).
  set (t := target_dir directory rules n) in *.
  destruct (undo_move_back n d counts w size data (Hval n (or_introl eq_refl))
              Hd Hdir Hsrc Hdst) as (w1 & Hstep & Hev1 & Hfs1).
  fold r t in Hfs1.
  assert (Hne : r ++ [n] <> t ++ [n]) by (intros E; rewrite E in Hsrc; congruence).
  assert (Hat1 : forall q, q <> r ++ [n] -> q <> t ++ [n] ->
                           node_at (fs w1) q = node_at (fs w) q).
  { intros q H1 H2. rewrite Hfs1, node_at_put_other by congruence.
    now rewrite node_at_remove by congruence. }
  assert (Hr_w : node_at (fs w) r = Some Dir).
  { unfold fs_is_dir in Hdir. now destruct (node_at (fs w) r) as [[|]|]. }
  assert (Hdir1 : fs_is_dir (fs w1) r = true).
  { unfold fs_is_dir. rewrite Hat1; [now rewrite Hr_w | apply path_neq_snoc |].
    intros E. rewrite <- E in Hdst. congruence. }
  assert (Hneq : forall m, In m names -> n <> m) by (intros m Hm ->; contradiction).
  assert (Hfar : forall m, In m names ->
             r ++ [m] <> r ++ [n] /\ r ++ [m] <> t ++ [n] /\
             target_dir directory rules m ++ [m] <> r ++ [n] /\
             target_dir directory rules m ++ [m] <> t ++ [n]).
  { intros m Hm. specialize (Hneq m Hm).
    repeat split; intros E; apply snoc_inj_both in E as [_ E]; congruence. }
  destruct (IH ds' (S (fst counts), snd counts) w1 Hnd'
               (fun m Hm => Hval m (or_intror Hm)) Hds' Hdir1)
    as (w' & Hloop & Hev' & Hback & Hother).
  { intros m Hm. destruct (Hnodes m (or_intror Hm)) as (Hs & sz & dt & Hd').
    destruct (Hfar m Hm) as (F1 & F2 & F3 & F4). fold r in Hs. split.
    - now rewrite Hat1.
    - exists sz, dt. now rewrite Hat1. }
  fold r in Hback, Hother.
  exists w'. split.
  { simpl. rewrite Hstep, Hloop. simpl. f_equal. f_equal. lia. }
  split; [eapply evolves_trans; eassumption|]. split.
  - intros m [<-|Hm].
    + fold t. split.
      * rewrite Hother.
        -- rewrite Hfs1, node_at_put_same; [now rewrite Hdst | now destruct r].
        -- intros m Hm. destruct (Hfar m Hm) as (F1 & F2 & F3 & F4).
           split; apply not_eq_sym; assumption.
      * rewrite Hother.
        -- rewrite Hfs1, node_at_put_other by congruence.
           rewrite node_at_snoc, lookup_remove, path_eqb_refl. reflexivity.
        -- intros m Hm. destruct (Hfar m Hm) as (F1 & F2 & F3 & F4).
           split; apply not_eq_sym; assumption.
    + destruct (Hback m Hm) as [H1 H2]. destruct (Hfar m Hm) as (F1 & F2 & F3 & F4).
      split; [|exact H2]. rewrite H1. now apply Hat1.
  - intros q Hq. destruct (Hq n (or_introl eq_refl)) as [H1 H2].
    rewrite Hother; [now apply Hat1|]. intros m Hm. apply Hq. now right.
Qed.

End AnyCategory.

(** ** Organize, then undo *)

Section OrganizeThenUndo.

Lemma all_dicts_map (ds : list dict) : all_dicts (map JObj ds) = Some ds.
Proof. induction ds as [|d r IH]; simpl; [reflexivity | now rewrite IH]. Qed.

Lemma Forall2_rev_both {A B : Type} (P : A -> B -> Prop) (l : list A) (l' : list B) :
  Forall2 P l l' -> Forall2 P (rev l) (rev l').
Proof.
  induction 1 as [|x y l l' Hxy _ IH]; simpl; [constructor|].
  apply Forall2_app; [exact IH | now constructor].
Qed.

Lemma print_summary_keeps (dry_run show_stats : bool) (files : nat) (st : Stats) (w : World) :
  fs (print_summary dry_run show_stats files st w) = fs w /\
  cwd (print_summary dry_run show_stats files st w) = cwd w /\
  stdin (print_summary dry_run show_stats files st w) = stdin w.
Proof.
  unfold print_summary. destruct dry_run; [now repeat split|].
  destruct (Nat.ltb 0 (skipped_count st)), (andb show_stats (Nat.ltb 0 (moved_count st)));
    now repeat split.
Qed.

Variables (directory_path : string) (rules : sorting_rules).
Hypothesis Hproper : proper_categories rules.
Hypothesis Habs : is_absolute (Path_of directory_path) = true.

(** The undo of a log that holds the records of files still at their
    targets, once the operator has confirmed. *)
Lemma undo_organization_restores (names : list string) (ds : list dict) (w : World)
    (line : string) (rest : list string) :
  let directory := Path_of directory_path in
  let r := resolve w directory in
  names <> [] ->
  NoDup names ->
  (forall n, In n names -> valid_name n = true) ->
  Forall2 (logged_as directory rules) names ds ->
  fs_is_dir (fs w) r = true ->
  (exists size, node_at (fs w) (r ++ [move_log_name])
                = Some (File size (Json (JArr (map JObj ds))))) ->
  (forall n, In n names ->
      node_at (fs w) (r ++ [n]) = None /\
      exists size data,
        node_at (fs w) (r ++ [category_of directory rules n; n]) = Some (File size data)) ->
  stdin w = line :: rest ->
  Str.lower (Str.strip line) = "y" ->
  exists w',
    undo_organization directory_path w = Ret tt w' /\
    (forall n, In n names ->
        node_at (fs w') (r ++ [n]) = node_at (fs w) (r ++ [category_of directory rules n; n])
        /\ node_at (fs w') (r ++ [category_of directory rules n; n]) = None) /\
    (forall q,
        (forall n, In n names ->
            q <> r ++ [n] /\ q <> r ++ [category_of directory rules n; n]) ->
        node_at (fs w') q = node_at (fs w) q).
Proof.
  intros directory r Hne Hnd Hval Hds Hdir [size Hlog] Hnodes Hin Hyes.
  unfold undo_organization, undo_run. fold directory.
  assert (Hex : exists_ w directory = true).
  { unfold exists_, fs_exists. fold r. unfold fs_is_dir in Hdir.
    now destruct (node_at (fs w) r). }
  assert (Hisdir : is_dir w directory = true) by exact Hdir.
  rewrite Hex, Hisdir. cbn [negb].
  rewrite (joinpath_child directory move_log_name) by reflexivity.
  unfold exists_, load_json. rewrite resolve_child. fold r.
  unfold fs_exists. rewrite Hlog. cbn [negb]. rewrite all_dicts_map.
  destruct ds as [|d ds'].
  { inversion Hds; subst. congruence. }
  change (stdin (print AskConfirm w)) with (stdin w). rewrite Hin, Hyes.
  change (String.eqb "y" "y") with true. cbv iota.
  set (w2 := set_stdin rest (print AskConfirm w)).
  destruct (undo_loop_restores directory rules (proper_is_plain rules Hproper) Habs
              (Path_of_parts_clean directory_path) (rev names) (rev (d :: ds')) (0, 0) w2)
    as (w3 & Hloop & _ & Hback & Hother).
  - now apply NoDup_rev.
  - intros n Hn. apply Hval. now apply in_rev.
  - now apply Forall2_rev_both.
  - exact Hdir.
  - intros n Hn. apply Hnodes. now apply in_rev.
  - rewrite Hloop. cbv iota beta.
    eexists. split; [reflexivity|].
    split.
    + intros n Hn. apply in_rev in Hn. destruct (Hback n Hn) as [H1 H2].
      split; [exact H1 | exact H2].
    + intros q Hq. apply Hother. intros n Hn. apply Hq. now apply in_rev.
Qed.

(** What [undo_organization] does when there is nothing it can undo. *)
Lemma undo_organization_nothing (w : World) :
  let directory := Path_of directory_path in
  orb (negb (exists_ w directory))
      (orb (negb (is_dir w directory))
           (negb (exists_ w (joinpath directory move_log_name)))) = true ->
  exists e, undo_organization directory_path w = Ret tt (print e w).
Proof.
  intros directory H. unfold undo_organization, undo_run. fold directory.
  destruct (negb (exists_ w directory)); [now eexists|].
  destruct (negb (is_dir w directory)); [now eexists|].
  simpl in H. rewrite H. now eexists.
Qed.

(** The undo of a log that holds the records of files still in their
    folders, whatever the names of the categories, once the operator
    has confirmed. *)
Lemma undo_organization_back (names : list string) (ds : list dict) (w : World)
    (line : string) (rest : list string) :
  let directory := Path_of directory_path in
  let r := parts directory in
  names <> [] ->
  NoDup names ->
  (forall n, In n names -> valid_name n = true) ->
  Forall2 (logged_to directory rules) names ds ->
  fs_is_dir (fs w) r = true ->
  (exists size, node_at (fs w) (r ++ [move_log_name])
                = Some (File size (Json (JArr (map JObj ds))))) ->
  (forall n, In n names ->
      node_at (fs w) (r ++ [n]) = None /\
      exists size data,
        node_at (fs w) (target_dir directory rules n ++ [n]) = Some (File size data)) ->
  stdin w = line :: rest ->
  Str.lower (Str.strip line) = "y" ->
  exists w',
    undo_organization directory_path w = Ret tt w' /\
    (forall n, In n names ->
        node_at (fs w') (r ++ [n]) = node_at (fs w) (target_dir directory rules n ++ [n])
        /\ node_at (fs w') (target_dir directory rules n ++ [n]) = None) /\
    (forall q,
        (forall n, In n names ->
            q <> r ++ [n] /\ q <> target_dir directory rules n ++ [n]) ->
        node_at (fs w') q = node_at (fs w) q).
Proof.
  intros directory r Hne Hnd Hval Hds Hdir [size Hlog] Hnodes Hin Hyes.
  assert (Hres : resolve w directory = r) by (apply resolve_absolute; exact Habs).
  unfold undo_organization, undo_run. fold directory.
  assert (Hex : exists_ w directory = true).
  { unfold exists_, fs_exists. rewrite Hres. unfold fs_is_dir in Hdir.
    now destruct (node_at (fs w) r). }
  assert (Hisdir : is_dir w directory = true).
  { unfold is_dir. now rewrite Hres. }
  rewrite Hex, Hisdir. cbn [negb].
  rewrite (joinpath_child directory move_log_name) by reflexivity.
  unfold exists_, load_json. rewrite resolve_child, Hres.
  unfold fs_exists. rewrite Hlog. cbn [negb]. rewrite all_dicts_map.
  destruct ds as [|d ds'].
  { inversion Hds; subst. congruence. }
  change (stdin (print AskConfirm w)) with (stdin w). rewrite Hin, Hyes.
  change (String.eqb "y" "y") with true. cbv iota.
  set (w2 := set_stdin rest (print AskConfirm w)).
  destruct (undo_loop_back directory rules Habs (Path_of_parts_clean directory_path)
              (rev names) (rev (d :: ds')) (0, 0) w2)
    as (w3 & Hloop & _ & Hback & Hother).
  - now apply NoDup_rev.
  - intros n Hn. apply Hval. now apply in_rev.
  - now apply Forall2_rev_both.
  - exact Hdir.
  - intros n Hn. apply Hnodes. now apply in_rev.
  - rewrite Hloop. cbv iota beta.
    eexists. split; [reflexivity|].
    split.
    + intros n Hn. apply in_rev in Hn. destruct (Hback n Hn) as [H1 H2].
      split; [exact H1 | exact H2].
    + intros q Hq. apply Hother. intros n Hn. apply Hq. now apply in_rev.
Qed.

(** C1, amended.  Take a directory given by an absolute path, with no
    move log in it, such that neither a file to organize nor the move
    log stands at or above the place of a category folder the run
    uses.  The category names are any, plain, nested or absolute;
    like the directory they are written without [..] parts.  If
    a real organize run skips nothing (no collision, no failure, no
    declined retry) and the operator confirms the undo that follows,
    then the undo returns, every organized file is again at its
    original path with its content, and every other location but the
    log is as it was before organize or is a directory created where
    there was nothing. *)
Theorem organize_then_undo_restores (show_stats : bool) (w : World)
    (line : string) (rest : list string) :
  let directory := Path_of directory_path in
  let w1 := organize_files directory_path false rules show_stats w in
  well_formed (fs w) ->
  lexical directory ->
  (forall g, In g (files_to_organize directory w) ->
      lexical (Path_of (find_target_folder (get_file_extension g) rules))) ->
  way_is_clear directory rules w (files_to_organize directory w) ->
  node_at (fs w) (resolve w (joinpath directory move_log_name)) = None ->
  (forall files st,
      fst (organize_run directory_path false rules w) = Some (files, st) ->
      skipped_count st = 0) ->
  stdin w1 = line :: rest ->
  Str.lower (Str.strip line) = "y" ->
  exists w2,
    undo_organization directory_path w1 = Ret tt w2 /\
    (forall f, In f (files_to_organize directory w) ->
        node_at (fs w2) (resolve w f) = node_at (fs w) (resolve w f)) /\
    (forall q, q <> resolve w (joinpath directory move_log_name) ->
        kept_or_new_dir (fs w) (fs w2) q).
Proof.
  intros directory w1 Hwf _ _ Hclear Hnolog Hskip Hin Hyes.
  assert (Hres : forall v, resolve v directory = parts directory)
    by (intros v; apply resolve_absolute; exact Habs).
  rewrite (joinpath_child directory move_log_name) in Hnolog |- * by reflexivity.
  rewrite resolve_child, Hres in Hnolog |- *.
  set (r := parts directory) in *.
  (* the runs in which organize returns before its loop *)
  assert (Hearly : forall e,
             w1 = print e w ->
             orb (negb (exists_ w directory))
                 (orb (negb (is_dir w directory))
                      (negb (exists_ w (joinpath directory move_log_name)))) = true ->
             exists w2,
               undo_organization directory_path w1 = Ret tt w2 /\
               (forall f, In f (files_to_organize directory w) ->
                   node_at (fs w2) (resolve w f) = node_at (fs w) (resolve w f)) /\
               (forall q, q <> r ++ [move_log_name] -> kept_or_new_dir (fs w) (fs w2) q)).
  { intros e -> H.
    destruct (undo_organization_nothing (print e w) H) as [e' ->].
    eexists. split; [reflexivity|]. split; [reflexivity | intros q _; now left]. }
  assert (Hnolog' : exists_ w (joinpath directory move_log_name) = false).
  { rewrite (joinpath_child directory move_log_name) by reflexivity.
    unfold exists_, fs_exists. rewrite resolve_child, Hres. fold r. now rewrite Hnolog. }
  destruct (files_to_organize_spec directory w Hwf) as (names & Efiles & Hnd & Hnames).
  rewrite Hres in Hnames. fold r in Hnames.
  revert Hin Hearly Hskip. unfold w1, organize_files, organize_run. fold directory.
  destruct (negb (exists_ w directory)) eqn:E1.
  { intros _ Hearly _. apply (Hearly _ eq_refl). reflexivity. }
  destruct (negb (is_dir w directory)) eqn:E2.
  { intros _ Hearly _. apply (Hearly _ eq_refl). reflexivity. }
  rewrite Efiles in Hclear |- *.
  destruct names as [|n names].
  { intros _ Hearly _. apply (Hearly _ eq_refl). rewrite Hnolog'. reflexivity. }
  set (files := map (child_path directory) (n :: names)) in *.
  change (match files with [] => ?x | _ :: _ => ?y end) with y. cbv beta iota.
  set (wr := print (FoundFiles (List.length files)) w).
  destruct (organize_loop directory false rules files no_stats wr) as [st w'] eqn:Eloop.
  cbn [fst snd]. intros Hin _ Hskip.
  specialize (Hskip (List.length files) st eq_refl).
  destruct (print_summary_keeps false show_stats (List.length files) st w')
    as (Hsfs & Hscwd & Hsin).
  set (ws := print_summary false show_stats (List.length files) st w') in *.
  apply negb_false_iff in E2. unfold is_dir in E2. rewrite Hres in E2. fold r in E2.
  assert (Htarget : forall m,
             resolve w (joinpath directory
                          (find_target_folder (get_file_extension (child_path directory m))
                                              rules))
             = target_dir directory rules m).
  { intros m. apply resolve_absolute, joinpath_absolute. exact Habs. }
  assert (Hway : forall a b, In a (n :: names) -> In b (n :: names) ->
             ~ above (r ++ [a]) (target_dir directory rules b)).
  { intros a b Ha Hb. pose proof (Hclear (child_path directory b)) as H. cbv zeta in H.
    destruct H as [H _]; [unfold files; now apply in_map|].
    specialize (H (child_path directory a)). rewrite Htarget, resolve_child, Hres in H.
    apply H. unfold files. now apply in_map. }
  assert (Hwaylog : forall b, In b (n :: names) ->
             ~ above (r ++ [move_log_name]) (target_dir directory rules b)).
  { intros b Hb. pose proof (Hclear (child_path directory b)) as H. cbv zeta in H.
    destruct H as [_ H]; [unfold files; now apply in_map|].
    rewrite Htarget, (joinpath_child directory move_log_name) in H by reflexivity.
    now rewrite resolve_child, Hres in H. }
  destruct (organize_loop_any_moved directory rules Habs (n :: names) no_stats wr [] Hnd)
    with (st' := st) (w' := w')
    as (Hev & Hdir & (ds & Hds & Hlog) & Hfiles & Hkept).
  - intros m Hm. destruct (Hnames m Hm) as (H1 & H2 & _). now split.
  - exact Hway.
  - exact Hwaylog.
  - exact E2.
  - left. split; [reflexivity | exact Hnolog].
  - intros m Hm. now destruct (Hnames m Hm) as (_ & _ & _ & H).
  - exact Eloop.
  - exact Hskip.
  - fold r in Hdir, Hlog, Hfiles, Hkept.
    change (fs wr) with (fs w) in Hfiles, Hkept.
    simpl app in Hlog.
    destruct Hlog as [[-> _]|Hlog]; [inversion Hds|].
    pose proof (undo_organization_back (n :: names) ds ws line rest) as Hundo.
    cbv zeta in Hundo. fold directory in Hundo. fold r in Hundo. rewrite Hsfs in Hundo.
    destruct Hundo as (w2 & Hundo & Hback & Hother).
    + discriminate.
    + exact Hnd.
    + intros m Hm. now destruct (Hnames m Hm).
    + exact Hds.
    + exact Hdir.
    + exact Hlog.
    + intros m Hm. destruct (Hfiles m Hm) as (_ & H2 & H3).
      split; [exact H2|]. rewrite H3.
      now destruct (Hnames m Hm) as (_ & _ & _ & H).
    + exact Hin.
    + exact Hyes.
    + assert (Hrestored : forall m, In m (n :: names) ->
                node_at (fs w2) (r ++ [m]) = node_at (fs w) (r ++ [m])).
      { intros m Hm. destruct (Hback m Hm) as [H1 _].
        destruct (Hfiles m Hm) as (_ & _ & H3). congruence. }
      exists w2. split; [exact Hundo|]. split.
      * intros f Hf. apply in_map_iff in Hf as (m & <- & Hm).
        rewrite resolve_child, Hres. now apply Hrestored.
      * intros q Hq.
        destruct (in_dec (list_eq_dec string_dec) q
                    (map (fun m => r ++ [m]) (n :: names))) as [HS|HS].
        { apply in_map_iff in HS as (m & <- & Hm). left. now apply Hrestored. }
        destruct (in_dec (list_eq_dec string_dec) q
                    (map (fun m => target_dir directory rules m ++ [m]) (n :: names)))
          as [HT|HT].
        { apply in_map_iff in HT as (m & <- & Hm). left.
          destruct (Hback m Hm) as [_ H2]. destruct (Hfiles m Hm) as (H1 & _).
          congruence. }
        assert (Hq' : forall m, In m (n :: names) ->
                   q <> r ++ [m] /\ q <> target_dir directory rules m ++ [m]).
        { intros m Hm. split; intros ->.
          - apply HS. apply in_map_iff. now exists m.
          - apply HT. apply in_map_iff. now exists m. }
        unfold kept_or_new_dir. rewrite (Hother q Hq').
        destruct (Hkept q Hq Hq') as [K|(K1 & K2 & _)]; [now left | now right].
Qed.

End OrganizeThenUndo.

Section RoundTrip.

Lemma proper_categoriesb_sound (rules : sorting_rules) :
  proper_categoriesb rules = true -> proper_categories rules.
Proof.
  unfold proper_categoriesb. intros H folder extensions Hin.
  rewrite forallb_forall in H. specialize (H _ Hin). simpl in H.
  apply andb_true_iff in H as [H1 H2]. split; [exact H1|].
  apply negb_true_iff in H2. now apply String.eqb_neq.
Qed.

(** C1 as stated fails.  In [/d], with the built-in rules, the file
    [Images] (no extension) is listed before [a.png].  Organize moves
    [Images] to [Other/Images], then creates the folder [Images] and
    moves [a.png] into it: no collision, no failure, nothing skipped.
    The confirmed undo moves [a.png] back, finds the folder [Images]
    at the original path of the file [Images], and skips that record:
    the file stays in [Other]. *)
Lemma file_named_like_folder_is_not_restored :
  let w1 := organize_files "/d" false get_default_sorting_rules true clash_world in
  well_formedb (fs clash_world) = true /\
  node_at (fs clash_world) ["d"; "py_sort_moves.json"] = None /\
  (exists st, fst (organize_run "/d" false get_default_sorting_rules clash_world)
              = Some (2, st) /\ moved_count st = 2 /\ skipped_count st = 0) /\
  forallb (fun e => negb (is_error e)) (stdout w1) = true /\
  exists w2,
    undo_organization "/d" w1 = Ret tt w2 /\
    node_at (fs clash_world) ["d"; "Images"] = Some (a_file 3) /\
    node_at (fs w2) ["d"; "Images"] = Some Dir /\
    node_at (fs w2) ["d"; "Other"; "Images"] = Some (a_file 3).
Proof.
  split; [reflexivity|]. split; [reflexivity|].
  split; [eexists; split; [vm_compute; reflexivity | split; reflexivity]|].
  split; [reflexivity|].
  eexists. split; [vm_compute; reflexivity|]. repeat split.
Qed.

Lemma lexicalb_sound (p : Path) : lexicalb p = true -> lexical p.
Proof.
  unfold lexicalb, lexical. intros H Hin. apply mem_true_iff in Hin.
  rewrite Hin in H. discriminate.
Qed.

Lemma is_prefix_above (p q : abspath) : is_prefix p q = false -> ~ above p q.
Proof.
  unfold is_prefix. intros H [rest E]. apply strip_prefix_spec in E.
  rewrite E in H. discriminate.
Qed.

Lemma way_is_clearb_sound (directory : Path) (rules : sorting_rules) (w : World)
    (files : list Path) :
  way_is_clearb directory rules w files = true -> way_is_clear directory rules w files.
Proof.
  unfold way_is_clearb. intros H g Hg. cbv zeta.
  rewrite forallb_forall in H. specialize (H g Hg). cbv zeta in H.
  apply andb_true_iff in H as [H1 H2]. split.
  - intros f Hf. rewrite forallb_forall in H1. specialize (H1 f Hf).
    apply negb_true_iff in H1. now apply is_prefix_above.
  - apply negb_true_iff in H2. now apply is_prefix_above.
Qed.

Lemma organize_then_undo_restores_witness :
  let directory := Path_of "/d" in
  let w1 := organize_files "/d" false far_rules true tidy_world in
  exists w2,
    undo_organization "/d" w1 = Ret tt w2 /\
    (forall f, In f (files_to_organize directory tidy_world) ->
        node_at (fs w2) (resolve tidy_world f) = node_at (fs tidy_world) (resolve tidy_world f)) /\
    (forall q, q <> resolve tidy_world (joinpath directory move_log_name) ->
        kept_or_new_dir (fs tidy_world) (fs w2) q).
Proof.
  apply (organize_then_undo_restores "/d" far_rules eq_refl true tidy_world "y" []).
  - apply well_formedb_sound. vm_compute. reflexivity.
  - apply lexicalb_sound. reflexivity.
  - intros g Hg. apply lexicalb_sound.
    assert (Hall : forallb (fun f => lexicalb (Path_of (find_target_folder
                                                          (get_file_extension f) far_rules)))
                           (files_to_organize (Path_of "/d") tidy_world) = true)
      by (vm_compute; reflexivity).
    rewrite forallb_forall in Hall. exact (Hall g Hg).
  - apply way_is_clearb_sound. vm_compute. reflexivity.
  - reflexivity.
  - intros files st H. vm_compute in H. injection H as _ <-. reflexivity.
  - vm_compute. reflexivity.
  - reflexivity.
Defined.

(** In that run the files go to [/d/Media/Images], [/archive/Documents]
    and [/d/Other], and the undo puts them back. *)
Example far_rules_round_trip :
  let w1 := organize_files "/d" false far_rules true tidy_world in
  node_at (fs w1) ["d"; "Media"; "Images"; "a.png"] = Some (a_file 5) /\
  node_at (fs w1) ["archive"; "Documents"; "report.pdf"] = Some (a_file 3) /\
  node_at (fs w1) ["d"; "Other"; "notes"] = Some (a_file 7) /\
  match undo_run "/d" w1 with
  | Ret (Some counts) w2 =>
      counts = (3, 0) /\
      node_at (fs w2) ["d"; "report.pdf"] = Some (a_file 3) /\
      node_at (fs w2) ["d"; "a.png"] = Some (a_file 5) /\
      node_at (fs w2) ["d"; "notes"] = Some (a_file 7) /\
      node_at (fs w2) ["archive"; "Documents"] = Some Dir /\
      node_at (fs w2) ["archive"; "Documents"; "report.pdf"] = None
  | _ => False
  end.
Proof. vm_compute. repeat split. Qed.

(** In that run three files are moved, and the undo puts them back. *)
Example tidy_world_round_trip :
  match undo_run "/d" (organize_files "/d" false get_default_sorting_rules true tidy_world) with
  | Ret (Some counts) w2 =>
      counts = (3, 0) /\
      node_at (fs w2) ["d"; "report.pdf"] = Some (a_file 3) /\
      node_at (fs w2) ["d"; "a.png"] = Some (a_file 5) /\
      node_at (fs w2) ["d"; "notes"] = Some (a_file 7) /\
      node_at (fs w2) ["d"; "Documents"] = Some Dir /\
      node_at (fs w2) ["d"; "Documents"; "report.pdf"] = None
  | _ => False
  end.
Proof. vm_compute. repeat split. Qed.

End RoundTrip.

(** * Further properties of the program *)

(** ** [prompt_retry] *)

Section PromptRetry.

Lemma prompt_retry_from_skips (action_desc : string) (junk : list string) :
  forall (line : string) (rest : list string) (b : bool) (w : World),
    (forall l, In l junk -> retry_answer l = None) ->
    retry_answer line = Some b ->
    exists w',
      prompt_retry_from action_desc (junk ++ line :: rest) w = Ret b w' /\
      stdin w' = rest /\ fs w' = fs w /\ cwd w' = cwd w /\
      stdout w' = stdout w
                  ++ flat_map (fun _ => [AskRetry action_desc; PleaseEnterYN]) junk
                  ++ [AskRetry action_desc].
Proof.
  induction junk as [|j junk IH]; intros line rest b w Hjunk Hline; simpl.
  - rewrite Hline. eexists. split; [reflexivity|]. now repeat split.
  - rewrite (Hjunk j (or_introl eq_refl)).
    destruct (IH line rest b
                (print PleaseEnterYN
                   (set_stdin (junk ++ line :: rest) (print (AskRetry action_desc) w)))
                (fun l Hl => Hjunk l (or_intror Hl)) Hline)
      as (w' & Hr & Hin & Hfs & Hcwd & Hout).
    exists w'. split; [exact Hr|]. split; [exact Hin|]. split; [exact Hfs|].
    split; [exact Hcwd|]. rewrite Hout. simpl. now rewrite <- !app_assoc.
Qed.

(** X1.  The answer of the operator is the first line that reads as yes or
    no: the lines before it are each answered by a reminder and asked
    again, the lines after it stay on standard input, and nothing but
    the output changes. *)
Theorem prompt_retry_takes_first_answer (action_desc : string) (w : World)
    (junk : list string) (line : string) (rest : list string) (b : bool) :
  stdin w = junk ++ line :: rest ->
  (forall l, In l junk -> retry_answer l = None) ->
  retry_answer line = Some b ->
  exists w',
    prompt_retry action_desc w = Ret b w' /\
    stdin w' = rest /\ fs w' = fs w /\ cwd w' = cwd w /\
    stdout w' = stdout w
                ++ flat_map (fun _ => [AskRetry action_desc; PleaseEnterYN]) junk
                ++ [AskRetry action_desc].
Proof.
  intros Hin Hjunk Hline. unfold prompt_retry. rewrite Hin.
  now apply prompt_retry_from_skips.
Qed.

Lemma prompt_retry_takes_first_answer_witness :
  exists w',
    prompt_retry "Cannot move 'a.png'" (world_of [] [] ["maybe"; ""; " NO "; "y"])
    = Ret false w' /\
    stdin w' = ["y"] /\ fs w' = [] /\ cwd w' = [] /\
    stdout w' = [] ++ flat_map (fun _ => [AskRetry "Cannot move 'a.png'"; PleaseEnterYN])
                               ["maybe"; ""]
                   ++ [AskRetry "Cannot move 'a.png'"].
Proof.
  apply (prompt_retry_takes_first_answer "Cannot move 'a.png'"
           (world_of [] [] ["maybe"; ""; " NO "; "y"]) ["maybe"; ""] " NO " ["y"] false).
  - reflexivity.
  - intros l [<-|[<-|[]]]; reflexivity.
  - reflexivity.
Defined.

Lemma prompt_retry_from_exhausts (action_desc : string) (lines : list string) :
  forall w,
    (forall l, In l lines -> retry_answer l = None) ->
    exists w',
      prompt_retry_from action_desc lines w = Exc EOFError w' /\
      stdin w' = [] /\ fs w' = fs w.
Proof.
  induction lines as [|j lines IH]; intros w Hall; simpl.
  - eexists. now repeat split.
  - rewrite (Hall j (or_introl eq_refl)).
    destruct (IH (print PleaseEnterYN
                    (set_stdin lines (print (AskRetry action_desc) w)))
                (fun l Hl => Hall l (or_intror Hl))) as (w' & Hr & Hin & Hfs).
    exists w'. now repeat split.
Qed.

(** X2.  When no line left on standard input reads as yes or no, the
    prompt takes none of them for an answer: it reads them all and ends
    in the [EOFError] of [input()], with the filesystem untouched. *)
Theorem prompt_retry_without_answer_raises (action_desc : string) (w : World) :
  (forall l, In l (stdin w) -> retry_answer l = None) ->
  exists w',
    prompt_retry action_desc w = Exc EOFError w' /\ stdin w' = [] /\ fs w' = fs w.
Proof. intros H. unfold prompt_retry. now apply prompt_retry_from_exhausts. Qed.

Lemma prompt_retry_without_answer_raises_witness :
  exists w',
    prompt_retry "Cannot move 'a.png'" (world_of [] [] ["ok"; "sure"; "yes please"])
    = Exc EOFError w' /\ stdin w' = [] /\ fs w' = [].
Proof.
  apply (prompt_retry_without_answer_raises "Cannot move 'a.png'"
           (world_of [] [] ["ok"; "sure"; "yes please"])).
  intros l [<-|[<-|[<-|[]]]]; reflexivity.
Defined.

End PromptRetry.

(** ** Extensions and categories *)

Section Extensions.

Lemma rfind_from_spec (c : ascii) (s : string) (i : nat) (t : string) :
  Str.rfind_from c s = Some (i, t) ->
  exists t', t = String c t' /\ Str.has_char c t' = false /\
             s = (String.substring 0 i s ++ t)%string /\
             String.length s = i + String.length t.
Proof.
  revert i t. induction s as [|d r IH]; intros i t; simpl; [discriminate|].
  destruct (Str.rfind_from c r) as [[j u]|] eqn:E.
  - intros [= <- <-]. destruct (IH j u eq_refl) as (t' & -> & Hno & Hs & Hlen).
    exists t'. split; [reflexivity|]. split; [exact Hno|]. simpl.
    split; [now rewrite <- Hs | simpl in Hlen; lia].
  - destruct (Ascii.eqb d c) eqn:Edc; [|discriminate].
    intros [= <- <-]. apply Ascii.eqb_eq in Edc. subst d.
    exists r. split; [reflexivity|]. split; [|split; reflexivity].
    clear IH. induction r as [|e r IHr]; [reflexivity|]. simpl in E |- *.
    destruct (Str.rfind_from c r) as [[j u]|]; [discriminate|].
    destruct (Ascii.eqb e c); [discriminate|]. now apply IHr.
Qed.

(** A suffix is empty, or a dot followed by at least one character
    and no further dot; the name is the stem followed by the suffix. *)
Lemma suffix_spec (p : Path) :
  name p = (Rename.stem p ++ suffix p)%string /\
  (suffix p = EmptyString \/
   exists t, suffix p = String dot t /\ t <> EmptyString /\ Str.has_char dot t = false).
Proof.
  unfold suffix, Rename.stem.
  destruct (Str.rfind_from dot (name p)) as [[i t]|] eqn:E.
  - destruct (rfind_from_spec _ _ _ _ E) as (t' & -> & Hno & Hs & Hlen).
    destruct (andb (Nat.ltb 0 i) (Nat.ltb i (String.length (name p) - 1))) eqn:Ec.
    + split; [exact Hs|]. right. exists t'. split; [reflexivity|]. split; [|exact Hno].
      apply andb_true_iff in Ec as [_ Ec]. apply Nat.ltb_lt in Ec.
      intros ->. simpl in Hlen. lia.
    + split; [|now left]. clear. induction (name p); simpl; congruence.
  - split; [|now left]. clear. induction (name p); simpl; congruence.
Qed.

Lemma lower_char_dot (c : ascii) :
  Ascii.eqb (Str.lower_char c) dot = Ascii.eqb c dot.
Proof. destruct c as [[] [] [] [] [] [] [] []]; reflexivity. Qed.

Lemma has_char_dot_lower (s : string) :
  Str.has_char dot (Str.lower s) = Str.has_char dot s.
Proof. induction s as [|c r IH]; simpl; [reflexivity|]. now rewrite lower_char_dot, IH. Qed.

(** X3.  The extension a file is looked up by is empty, or a dot followed
    by at least one character, none of them a dot, and it reads the
    same in lower case.  So an entry of the rules with a second dot,
    such as [.tar.gz], or with an upper-case letter matches no file. *)
Theorem get_file_extension_shape (file_path : Path) :
  (get_file_extension file_path = EmptyString \/
   exists t, get_file_extension file_path = String dot t /\
             t <> EmptyString /\ Str.has_char dot t = false) /\
  Str.lower (get_file_extension file_path) = get_file_extension file_path /\
  (forall (c : ascii) (t : string),
      Str.has_char dot t = true -> get_file_extension file_path <> String c t).
Proof.
  assert (Hshape : get_file_extension file_path = EmptyString \/
                   exists t, get_file_extension file_path = String dot t /\
                             t <> EmptyString /\ Str.has_char dot t = false).
  { unfold get_file_extension.
    destruct (suffix_spec file_path) as [_ [->|(t & -> & Hne & Hno)]]; [now left|].
    right. exists (Str.lower t). split; [reflexivity|]. split.
    - destruct t; [congruence | discriminate].
    - now rewrite has_char_dot_lower. }
  split; [exact Hshape|]. split; [apply get_file_extension_lower|].
  intros c t Hdot E. destruct Hshape as [H|(t' & H & _ & Hno)]; rewrite H in E.
  - discriminate.
  - injection E as _ <-. congruence.
Qed.

(** X4.  What [find_target_folder] returns is a category of the rules that
    lists the extension, or ["Other"] when no category lists it. *)
Theorem find_target_folder_sound (ext : string) (rules : sorting_rules) :
  (exists extensions,
      In (find_target_folder ext rules, extensions) rules /\ In ext extensions) \/
  (find_target_folder ext rules = "Other" /\
   forall c es, In (c, es) rules -> ~ In ext es).
Proof.
  induction rules as [|[c es] r IH]; simpl.
  - right. split; [reflexivity | intros c es []].
  - destruct (Str.mem ext es) eqn:E.
    + left. exists es. split; [now left | now apply mem_true_iff].
    + destruct IH as [(es' & H1 & H2)|[H1 H2]].
      * left. exists es'. split; [now right | exact H2].
      * right. split; [exact H1|]. intros c' es' [[= <- <-]|H].
        -- now apply mem_false_iff.
        -- now apply (H2 c' es').
Qed.

End Extensions.

(** ** Folders and the log *)

Section FoldersAndLog.

Lemma get_file_extension_shape_witness :
  get_file_extension (Path_of "/d/backup.TAR.GZ") = ".gz" /\
  get_file_extension (Path_of "/d/backup.TAR.GZ") <> ".tar.gz".
Proof.
  split; [reflexivity|].
  apply (proj2 (proj2 (get_file_extension_shape (Path_of "/d/backup.TAR.GZ")))
           "."%char "tar.gz").
  reflexivity.
Defined.

Lemma snoc_neq_longer (p k : abspath) : k <> [] -> p <> p ++ k.
Proof.
  intros Hk H. rewrite <- (app_nil_r p) in H at 1. apply app_inv_head in H. congruence.
Qed.

Lemma mkdir_from_succeeds (todo walked : abspath) (f : filesystem) :
  (forall k rest, todo = k ++ rest -> k <> [] -> fs_is_file f (walked ++ k) = false) ->
  exists f', mkdir_from walked todo f = Some f'.
Proof.
  revert walked f. induction todo as [|c rest IH]; intros walked f H; simpl.
  - now eexists.
  - pose proof (H [c] rest eq_refl ltac:(discriminate)) as Hc.
    unfold fs_is_file in Hc.
    destruct (node_at f (walked ++ [c])) as [[|]|] eqn:E; [discriminate| |].
    + apply IH. intros k r -> Hk. rewrite <- app_assoc.
      apply (H (c :: k) r eq_refl). discriminate.
    + apply IH. intros k r -> Hk.
      pose proof (H (c :: k) r eq_refl ltac:(discriminate)) as Hk'.
      simpl in Hk'. rewrite <- app_assoc. simpl.
      unfold fs_is_file in Hk' |- *.
      assert (Hne : walked ++ c :: k <> []) by now destruct walked.
      rewrite node_at_nonempty in Hk' |- * by exact Hne.
      rewrite lookup_snoc.
      destruct (lookup f (walked ++ c :: k)) as [x|]; [exact Hk'|].
      assert (Hp : path_eqb (walked ++ [c]) (walked ++ c :: k) = false).
      { apply path_eqb_neq. change (c :: k) with ([c] ++ k). rewrite app_assoc.
        now apply snoc_neq_longer. }
      now rewrite Hp.
Qed.



Lemma dump_json_can_write (w : World) (p : Path) (j : json) :
  dump_json w p j =
  if can_write (fs w) (resolve w p)
  then Some (set_fs (put (resolve w p) (File (dumped_size w j) (Json j)) (fs w)) w)
  else None.
Proof.
  unfold dump_json, can_write.
  destruct (node_at (fs w) (resolve w p)) as [[|]|]; try reflexivity.
Qed.

Lemma load_moves_world (log_file : Path) (w : World) :
  let w1 := snd (load_moves log_file w) in
  fs w1 = fs w /\ cwd w1 = cwd w /\ stdin w1 = stdin w /\ clock w1 = clock w /\
  dumped_size w1 = dumped_size w /\ isoformat_at w1 = isoformat_at w /\
  (error_log w1 = error_log w \/
   error_log w1 = error_log w ++ ["Error reading move log " ++ str log_file]%string).
Proof.
  unfold load_moves. destruct (exists_ w log_file);
    [|cbn [snd]; repeat split; now left].
  destruct (load_json w log_file) as [[| | | |l|]| |]; cbn [snd];
    repeat split; (now left) || (now right).
Qed.

(** What [log_move] does, spelled out: the world after it is the one
    before with possibly one warning printed, the clock advanced, and
    then the log written or the failure to write it reported. *)
Lemma log_move_cases (directory original_path new_path : Path) (w : World) :
  let log_file := joinpath directory move_log_name in
  let record := move_record (isoformat_at w (clock w)) original_path new_path in
  exists w2,
    fs w2 = fs w /\ cwd w2 = cwd w /\ stdin w2 = stdin w /\ clock w2 = S (clock w) /\
    dumped_size w2 = dumped_size w /\ isoformat_at w2 = isoformat_at w /\
    (error_log w2 = error_log w \/
     error_log w2 = error_log w ++ ["Error reading move log " ++ str log_file]%string) /\
    log_move directory original_path new_path w =
    if can_write (fs w) (resolve w log_file)
    then set_fs (put (resolve w log_file)
                     (File (dumped_size w
                              (JArr (logged_moves (fs w) (resolve w log_file) ++ [record])))
                           (Json (JArr (logged_moves (fs w) (resolve w log_file)
                                        ++ [record]))))
                     (fs w)) w2
    else print LogWriteError
               (log_exception ("Error writing to move log " ++ str log_file) w2).
Proof.
  intros log_file record. unfold log_move. fold log_file.
  destruct (load_moves_spec log_file w) as (Hm & _ & _).
  pose proof (load_moves_world log_file w) as Hw.
  destruct (load_moves log_file w) as [moves w1]. cbv zeta in Hw. simpl in Hm, Hw.
  subst moves.
  unfold now_isoformat. rewrite dump_json_can_write.
  destruct Hw as (Hfs & Hcwd & Hin & Hclock & Hdump & Hiso & Hlog).
  set (w2 := mkWorld (fs w1) (cwd w1) (stdin w1) (stdout w1) (S (clock w1))
                     (isoformat_at w1) (dumped_size w1) (error_log w1)).
  exists w2.
  split; [exact Hfs|]. split; [exact Hcwd|]. split; [exact Hin|].
  split; [simpl; now rewrite Hclock|]. split; [exact Hdump|]. split; [exact Hiso|].
  split; [exact Hlog|].
  rewrite (resolve_same_cwd w w2) by exact Hcwd.
  change (fs w2) with (fs w1). change (dumped_size w2) with (dumped_size w1).
  unfold record. rewrite Hfs, Hdump, Hiso, Hclock.
  now destruct (can_write (fs w) (resolve w log_file)).
Qed.





End FoldersAndLog.

(** ** The counters of a run *)

Section Counters.

(** A file is counted as skipped or as moved, nothing else. *)
Lemma organize_file_counts (directory : Path) (dry_run : bool) (rules : sorting_rules)
    (file_path : Path) (st : Stats) (w : World) :
  fst (organize_file directory dry_run rules file_path st w) = skip st \/
  exists folder size,
    fst (organize_file directory dry_run rules file_path st w) = count_move folder size st.
Proof.
  unfold organize_file.
  destruct (st_size w file_path) as [size|]; [|now left].
  destruct (exists_ w _); [now left|].
  destruct dry_run; [right; now eexists _, _|].
  destruct (create_folder_if_not_exists _ w) as [[] w1|e w1]; [|now left].
  match goal with |- context [move_loop ?fuel ?d ?f ?t ?c ?s ?st w1] =>
    pose proof (move_loop_spec fuel d f t c s st w1) as [_ Hr];
    destruct (move_loop fuel d f t c s st w1) as [st2 w2|e w2]
  end; [|now left].
  simpl. destruct Hr as [(-> & _)|(-> & _)]; [now left | right; now eexists _, _].
Qed.

Lemma organize_loop_counts (directory : Path) (dry_run : bool) (rules : sorting_rules)
    (files : list Path) :
  forall (st : Stats) (w : World),
    let st' := fst (organize_loop directory dry_run rules files st w) in
    moved_count st' + skipped_count st'
    = moved_count st + skipped_count st + List.length files.
Proof.
  induction files as [|f rest IH]; intros st w; simpl; [lia|].
  pose proof (organize_file_counts directory dry_run rules f st w) as H.
  destruct (organize_file directory dry_run rules f st w) as [st1 w1]. simpl in H.
  specialize (IH st1 w1). simpl in IH. rewrite IH.
  destruct H as [->|(c & size & ->)]; simpl; lia.
Qed.

(** X8.  Every file a run considers is counted exactly once, as moved or
    as skipped, in a dry run as in a real one and whatever fails on
    the way: the two counters add up to the number of files listed. *)
Theorem every_file_is_counted_once (directory_path : string) (dry_run : bool)
    (rules : sorting_rules) (w : World) (files : nat) (st : Stats) :
  fst (organize_run directory_path dry_run rules w) = Some (files, st) ->
  moved_count st + skipped_count st = files /\
  files = List.length (files_to_organize (Path_of directory_path) w).
Proof.
  unfold organize_run.
  destruct (negb (exists_ w (Path_of directory_path))); [discriminate|].
  destruct (negb (is_dir w (Path_of directory_path))); [discriminate|].
  destruct (files_to_organize (Path_of directory_path) w) as [|f fl] eqn:Ef; [discriminate|].
  match goal with |- context [organize_loop ?d ?dr ?r ?l ?s ?w0] =>
    pose proof (organize_loop_counts d dr r l s w0) as H;
    destruct (organize_loop d dr r l s w0) as [st' w']
  end.
  simpl in H |- *. intros [= <- <-]. split; [lia | reflexivity].
Qed.

Lemma every_file_is_counted_once_witness :
  exists st,
    fst (organize_run "/d" false get_default_sorting_rules mixed_world) = Some (2, st) /\
    moved_count st + skipped_count st = 2 /\
    2 = List.length (files_to_organize (Path_of "/d") mixed_world).
Proof.
  eexists. split; [vm_compute; reflexivity|].
  apply (every_file_is_counted_once "/d" false get_default_sorting_rules mixed_world).
  vm_compute. reflexivity.
Defined.

Lemma count_in_category_keys (folder : string) (size : Z) (cs : list (string * (nat * Z))) :
  (In folder (map fst cs) /\
   map fst (count_in_category folder size cs) = map fst cs) \/
  (~ In folder (map fst cs) /\
   map fst (count_in_category folder size cs) = map fst cs ++ [folder]).
Proof.
  induction cs as [|[k [n s]] r IH]; simpl.
  - right. split; [tauto | reflexivity].
  - destruct (String.eqb k folder) eqn:E.
    + left. apply String.eqb_eq in E. split; [now left | reflexivity].
    + apply String.eqb_neq in E. destruct IH as [[H1 H2]|[H1 H2]].
      * left. split; [now right | simpl; now rewrite H2].
      * right. split; [intros [H|H]; congruence | simpl; now rewrite H2].
Qed.

Lemma count_in_category_sums (folder : string) (size : Z) (cs : list (string * (nat * Z))) :
  sum_counts (count_in_category folder size cs) = S (sum_counts cs) /\
  sum_sizes (count_in_category folder size cs) = (sum_sizes cs + size)%Z /\
  ((forall c n s, In (c, (n, s)) cs -> 1 <= n) ->
   forall c n s, In (c, (n, s)) (count_in_category folder size cs) -> 1 <= n).
Proof.
  induction cs as [|[k [n s]] r (IH1 & IH2 & IH3)]; simpl.
  - split; [reflexivity|]. split; [lia|]. intros _ c n s [[= _ <- _]|[]]. lia.
  - destruct (String.eqb k folder); simpl.
    + split; [reflexivity|]. split; [lia|].
      intros H c n' s' [[= _ <- _]|Hin]; [lia|]. apply (H c n' s'). now right.
    + split; [rewrite IH1; lia|]. split; [rewrite IH2; lia|].
      intros H c n' s' [E|Hin].
      * apply (H c n' s'). now left.
      * apply (IH3 (fun c0 n0 s0 H0 => H c0 n0 s0 (or_intror H0)) c n' s' Hin).
Qed.

Lemma count_move_consistent (folder : string) (size : Z) (st : Stats) :
  stats_consistent st -> stats_consistent (count_move folder size st).
Proof.
  intros (H1 & H2 & H3 & H4). unfold stats_consistent, count_move. simpl.
  destruct (count_in_category_sums folder size (category_stats st)) as (S1 & S2 & S3).
  split; [now rewrite S1, H1|]. split; [now rewrite S2, H2|]. split; [|now apply S3].
  destruct (count_in_category_keys folder size (category_stats st)) as [[_ ->]|[Hn ->]];
    [exact H3|].
  apply NoDup_app; [exact H3 | constructor; [tauto | constructor] | ].
  intros x Hx [<-|[]]. contradiction.
Qed.

Lemma organize_loop_consistent (directory : Path) (dry_run : bool) (rules : sorting_rules)
    (files : list Path) :
  forall (st : Stats) (w : World),
    stats_consistent st ->
    stats_consistent (fst (organize_loop directory dry_run rules files st w)).
Proof.
  induction files as [|f rest IH]; intros st w Hst; simpl; [exact Hst|].
  pose proof (organize_file_counts directory dry_run rules f st w) as H.
  destruct (organize_file directory dry_run rules f st w) as [st1 w1]. simpl in H.
  apply IH. destruct H as [->|(c & size & ->)]; [exact Hst|].
  now apply count_move_consistent.
Qed.

(** X9.  The statistics a run ends with add up: the counts per category
    sum to the number of files moved and the sizes per category to the
    total size, no category is listed twice, and none is listed with
    no file. *)
Theorem statistics_add_up (directory_path : string) (dry_run : bool)
    (rules : sorting_rules) (w : World) (files : nat) (st : Stats) :
  fst (organize_run directory_path dry_run rules w) = Some (files, st) ->
  stats_consistent st.
Proof.
  unfold organize_run.
  destruct (negb (exists_ w (Path_of directory_path))); [discriminate|].
  destruct (negb (is_dir w (Path_of directory_path))); [discriminate|].
  destruct (files_to_organize (Path_of directory_path) w) as [|f fl]; [discriminate|].
  match goal with |- context [organize_loop ?d ?dr ?r ?l ?s ?w0] =>
    pose proof (organize_loop_consistent d dr r l s w0) as H;
    destruct (organize_loop d dr r l s w0) as [st' w']
  end.
  simpl in H |- *. intros [= <- <-]. apply H.
  split; [reflexivity|]. split; [reflexivity|]. split; [constructor | intros c n s []].
Qed.

Lemma statistics_add_up_witness :
  exists st,
    fst (organize_run "/d" false get_default_sorting_rules tidy_world) = Some (3, st) /\
    stats_consistent st.
Proof.
  eexists. split; [vm_compute; reflexivity|].
  apply (statistics_add_up "/d" false get_default_sorting_rules tidy_world 3).
  vm_compute. reflexivity.
Defined.

Lemma insert_by_count_perm (x : string * (nat * Z)) (l : list (string * (nat * Z))) :
  Permutation (x :: l) (insert_by_count x l).
Proof.
  induction l as [|y r IH]; simpl; [apply Permutation_refl|].
  destruct (Nat.ltb (fst (snd y)) (fst (snd x))); [apply Permutation_refl|].
  eapply Permutation_trans; [apply perm_swap | now apply perm_skip].
Qed.

Lemma insert_by_count_sorted (x : string * (nat * Z)) (l : list (string * (nat * Z))) :
  Sorted count_not_below l -> Sorted count_not_below (insert_by_count x l).
Proof.
  induction l as [|y r IH]; simpl; intros Hs.
  - constructor; constructor.
  - destruct (Nat.ltb (fst (snd y)) (fst (snd x))) eqn:E.
    + apply Nat.ltb_lt in E. constructor; [exact Hs|].
      constructor. unfold count_not_below. lia.
    + apply Nat.ltb_ge in E. inversion Hs as [|? ? Hr Hhd]; subst.
      constructor; [now apply IH|].
      destruct r as [|z r']; simpl.
      * constructor. exact E.
      * destruct (Nat.ltb (fst (snd z)) (fst (snd x))).
        -- constructor. exact E.
        -- inversion Hhd; subst. now constructor.
Qed.

(** X10.  The categories of the statistics are listed by decreasing count,
    and the listing holds the same categories with the same figures:
    none is lost, none repeated. *)
Theorem sorted_categories_sorts (cs : list (string * (nat * Z))) :
  Permutation cs (sorted_categories cs) /\
  Sorted count_not_below (sorted_categories cs).
Proof.
  unfold sorted_categories.
  assert (H : forall acc,
             Sorted count_not_below acc ->
             Permutation (acc ++ cs)
                         (fold_left (fun a x => insert_by_count x a) cs acc) /\
             Sorted count_not_below (fold_left (fun a x => insert_by_count x a) cs acc)).
  { induction cs as [|x r IH]; intros acc Hacc; simpl.
    - rewrite app_nil_r. split; [apply Permutation_refl | exact Hacc].
    - destruct (IH (insert_by_count x acc) (insert_by_count_sorted x acc Hacc))
        as [Hp Hs].
      split; [|exact Hs]. eapply Permutation_trans; [|exact Hp].
      eapply Permutation_trans; [apply Permutation_sym, Permutation_middle|].
      change (x :: acc ++ r) with ((x :: acc) ++ r).
      apply Permutation_app_tail, insert_by_count_perm. }
  destruct (H [] (Sorted_nil _)) as [Hp Hs]. split; assumption.
Qed.

End Counters.

(** ** What a run leaves alone *)

Section LeftAlone.

Lemma rename_to_keeps (s r : abspath) (f1 f2 : filesystem) :
  rename_to s r f1 = Some f2 ->
  fs_is_dir f1 s = false ->
  fs_exists f1 r = false ->
  forall q x, node_at f1 q = Some x -> q <> s -> node_at f2 q = Some x.
Proof.
  unfold rename_to, fs_is_dir, fs_exists. intros H Hs Hr q x Hq Hqs.
  destruct (node_at f1 s) as [[size data|]|]; [|discriminate|discriminate].
  destruct (path_eqb s r); [congruence|].
  destruct (match node_at f1 (removelast r) with Some Dir => true | _ => false end);
    [|discriminate].
  injection H as <-.
  assert (Hqr : r <> q) by (intros ->; now rewrite Hq in Hr).
  rewrite node_at_put_other by exact Hqr.
  rewrite node_at_remove by congruence. exact Hq.
Qed.

Lemma move_fs_keeps (f1 f2 : filesystem) (ps : list string) (s t : abspath) :
  move_fs f1 ps s t = Some f2 ->
  fs_is_dir f1 s = false ->
  fs_exists f1 t = false \/ fs_is_dir f1 t = true ->
  forall q x, node_at f1 q = Some x -> q <> s -> node_at f2 q = Some x.
Proof.
  unfold move_fs. intros H Hs Ht q x Hq Hqs.
  destruct (fs_is_dir f1 t) eqn:Edir.
  - destruct ps as [|p ps]; [discriminate|].
    destruct (path_eqb s t); [congruence|].
    destruct (fs_exists f1 (t ++ [last (p :: ps) ""])) eqn:Eex; [discriminate|].
    exact (rename_to_keeps _ _ _ _ H Hs Eex q x Hq Hqs).
  - destruct Ht as [Ht|Ht]; [|discriminate].
    exact (rename_to_keeps _ _ _ _ H Hs Ht q x Hq Hqs).
Qed.

Lemma NoDup_map_snoc (r : abspath) (names : list string) :
  NoDup names -> NoDup (map (fun m => r ++ [m]) names).
Proof.
  induction 1 as [|n names Hn _ IH]; simpl; constructor; [|exact IH].
  intros Hin. apply in_map_iff in Hin as (m & E & Hm).
  apply app_inv_head in E. injection E as ->. contradiction.
Qed.

(** One file of a run, dry or real: what the filesystem held stays,
    but for the file itself and the move log. *)
Lemma organize_file_keeps (directory : Path) (dry_run : bool) (rules : sorting_rules)
    (file_path : Path) (st : Stats) (w : World) :
  fs_is_dir (fs w) (resolve w file_path) = false ->
  forall q x,
    node_at (fs w) q = Some x ->
    q <> resolve w file_path ->
    q <> resolve w (joinpath directory move_log_name) ->
    node_at (fs (snd (organize_file directory dry_run rules file_path st w))) q = Some x.
Proof.
  intros Hsrc q x Hq Hqs Hql. unfold organize_file.
  destruct (st_size w file_path) as [size|] eqn:Esize; [|exact Hq].
  destruct (exists_ w _) eqn:Eex; [exact Hq|].
  destruct dry_run; [exact Hq|].
  unfold create_folder_if_not_exists.
  match goal with |- context [create_folder_loop ?fuel ?p w] =>
    pose proof (create_folder_loop_spec fuel p w) as [Hev1 Hfs1];
    destruct (create_folder_loop fuel p w) as [[] w1|e w1]; simpl in Hev1, Hfs1
  end.
  2:{ simpl. destruct Hfs1 as [->|Hm]; [exact Hq|].
      exact (kept_if_present _ _ _ _ (mkdir_from_only_new_dirs _ _ _ _ Hm) Hq). }
  assert (Hnew : only_new_dirs (fs w) (fs w1)).
  { destruct Hfs1 as [->|Hm]; [apply only_new_dirs_refl|].
    exact (mkdir_from_only_new_dirs _ _ _ _ Hm). }
  pose proof (kept_if_present _ _ _ _ Hnew Hq) as Hq1.
  match goal with |- context [move_loop ?fuel ?d ?f ?t ?c ?s ?st w1] =>
    pose proof (move_loop_spec fuel d f t c s st w1) as [Hev2 Hr];
    destruct (move_loop fuel d f t c s st w1) as [st2 w2|e w2]; simpl in Hev2 |- *
  end.
  2:{ now rewrite Hr. }
  destruct Hr as [(_ & -> & _)|(_ & f2 & w1' & Hm & Hev' & Hf & ->)]; [exact Hq1|].
  rewrite !(resolve_evolves w w1) in Hm by exact Hev1.
  assert (Hfile : exists sz dt, node_at (fs w) (resolve w file_path) = Some (File sz dt)).
  { unfold st_size in Esize. unfold fs_is_dir in Hsrc.
    destruct (node_at (fs w) (resolve w file_path)) as [[sz dt|]|];
      [now eexists _, _ | discriminate | discriminate]. }
  destruct Hfile as (sz & dt & Hfile).
  assert (Hs1 : fs_is_dir (fs w1) (resolve w file_path) = false).
  { unfold fs_is_dir. now rewrite (kept_if_present _ _ _ _ Hnew Hfile). }
  match type of Hm with move_fs _ _ _ ?t = _ =>
    assert (Ht1 : fs_exists (fs w1) t = false \/ fs_is_dir (fs w1) t = true)
  end.
  { unfold exists_, fs_exists in Eex. unfold fs_exists, fs_is_dir.
    match goal with |- context [node_at (fs w1) ?t] =>
      destruct (Hnew t) as [E|[_ E]]; rewrite E
    end.
    - left. exact Eex.
    - now right. }
  pose proof (move_fs_keeps _ _ _ _ _ Hm Hs1 Ht1 q x Hq1 Hqs) as Hq2.
  destruct (log_move_spec directory file_path
              (joinpath (joinpath directory
                           (find_target_folder (get_file_extension file_path) rules))
                        (name file_path)) w1') as [_ (ts & sz' & ->)].
  rewrite (resolve_evolves w w1' _ (evolves_trans _ _ _ Hev1 Hev')), Hf.
  destruct (can_write _ _); [|exact Hq2].
  rewrite node_at_put_other by congruence. exact Hq2.
Qed.

Lemma organize_loop_keeps (directory : Path) (dry_run : bool) (rules : sorting_rules)
    (files : list Path) :
  forall (st : Stats) (w : World),
    NoDup (map (resolve w) files) ->
    (forall f, In f files ->
        fs_is_file (fs w) (resolve w f) = true /\
        resolve w f <> resolve w (joinpath directory move_log_name)) ->
    forall q x,
      node_at (fs w) q = Some x ->
      (forall f, In f files -> q <> resolve w f) ->
      q <> resolve w (joinpath directory move_log_name) ->
      node_at (fs (snd (organize_loop directory dry_run rules files st w))) q = Some x.
Proof.
  induction files as [|f rest IH]; intros st w Hnd Hfiles q x Hq Hqf Hql; simpl;
    [exact Hq|].
  inversion Hnd as [|? ? Hnotin Hnd']; subst.
  pose proof (organize_file_evolves directory dry_run rules f st w) as Hev.
  assert (Hkeep : forall q' x',
             node_at (fs w) q' = Some x' -> q' <> resolve w f ->
             q' <> resolve w (joinpath directory move_log_name) ->
             node_at (fs (snd (organize_file directory dry_run rules f st w))) q' = Some x').
  { apply organize_file_keeps.
    destruct (Hfiles f (or_introl eq_refl)) as [Hf _].
    unfold fs_is_file in Hf. unfold fs_is_dir.
    now destruct (node_at (fs w) (resolve w f)) as [[|]|]. }
  destruct (organize_file directory dry_run rules f st w) as [st1 w1].
  simpl in Hev, Hkeep.
  assert (Hres : forall p, resolve w1 p = resolve w p)
    by (intros p; now apply resolve_evolves).
  apply IH.
  - rewrite (map_ext _ _ Hres). exact Hnd'.
  - intros g Hg. rewrite !Hres. destruct (Hfiles g (or_intror Hg)) as [Hgf Hgl].
    split; [|exact Hgl]. unfold fs_is_file in Hgf |- *.
    destruct (node_at (fs w) (resolve w g)) as [[sz dt|]|] eqn:E; try discriminate.
    rewrite (Hkeep _ _ E); [reflexivity| |exact Hgl].
    intros Heq. apply Hnotin. rewrite <- Heq. now apply in_map.
  - apply Hkeep; [exact Hq | apply Hqf; now left | exact Hql].
  - intros g Hg. rewrite Hres. apply Hqf. now right.
  - now rewrite Hres.
Qed.

(** X11.  A run of [organize_files], dry or real, overwrites nothing
    and removes nothing but what it moves: whatever the filesystem
    holds at a location before the run it holds there after it,
    unless the location is that of the move log, of one of the files
    to organize, or of the file of the logger, which grows when a
    failure is recorded.  Subdirectories, their contents, and the
    files already in the category folders are among what stays.  The
    directory and the category names are taken without [..] parts. *)
Theorem organize_never_overwrites (directory_path : string) (dry_run : bool)
    (rules : sorting_rules) (show_stats : bool) (w : World) (q : abspath) (x : node) :
  lexical (Path_of directory_path) ->
  (forall folder extensions, In (folder, extensions) rules -> lexical (Path_of folder)) ->
  well_formed (fs w) ->
  node_at (fs w) q = Some x ->
  node_at (fs (organize_files directory_path dry_run rules show_stats w)) q = Some x \/
  q = resolve w (joinpath (Path_of directory_path) move_log_name) \/
  In q (map (resolve w) (files_to_organize (Path_of directory_path) w)) \/
  q = error_log_path w.
Proof.
  intros _ _ Hwf Hq. set (directory := Path_of directory_path).
  destruct (list_eq_dec string_dec q (resolve w (joinpath directory move_log_name)))
    as [Hl|Hl]; [right; now left|].
  destruct (in_dec (list_eq_dec string_dec) q
              (map (resolve w) (files_to_organize directory w))) as [Hs|Hs];
    [right; right; now left|].
  left. unfold organize_files, organize_run. fold directory.
  destruct (negb (exists_ w directory)); [exact Hq|].
  destruct (negb (is_dir w directory)); [exact Hq|].
  destruct (files_to_organize_spec directory w Hwf) as (names & Efiles & Hnd & Hnames).
  rewrite Efiles in Hs |- *.
  destruct names as [|n names]; [exact Hq|].
  set (files := map (child_path directory) (n :: names)) in *.
  change (match files with [] => ?a | _ :: _ => ?b end) with b. cbv beta iota.
  set (w0 := if dry_run
             then print DryRunMode (print (FoundFiles (List.length files)) w)
             else print (FoundFiles (List.length files)) w).
  assert (Hres : forall p, resolve w0 p = resolve w p).
  { intros p. unfold w0. now destruct dry_run. }
  assert (Hfs0 : fs w0 = fs w) by (unfold w0; now destruct dry_run).
  pose proof (organize_loop_keeps directory dry_run rules files no_stats w0) as Hloop.
  destruct (organize_loop directory dry_run rules files no_stats w0) as [st w'].
  cbn [snd] in Hloop. cbv beta iota.
  match goal with |- context [print_summary ?a ?b ?c ?d ?e] =>
    rewrite (proj1 (print_summary_keeps a b c d e))
  end.
  apply Hloop.
  - rewrite (map_ext _ _ Hres). unfold files. rewrite map_map.
    rewrite (map_ext _ (fun m => resolve w directory ++ [m])
               (fun m => resolve_child w directory m)).
    apply NoDup_map_snoc. exact Hnd.
  - intros f Hf. rewrite !Hres, Hfs0. apply in_map_iff in Hf as (m & <- & Hm).
    destruct (Hnames m Hm) as (_ & Hlog & _ & sz & dt & Hnode).
    rewrite resolve_child. split.
    + unfold fs_is_file. now rewrite Hnode.
    + rewrite (joinpath_child directory move_log_name) by reflexivity.
      rewrite resolve_child. intros E. apply app_inv_head in E. congruence.
  - now rewrite Hfs0.
  - intros f Hf. rewrite Hres. intros ->. apply Hs. now apply in_map.
  - now rewrite Hres.
Qed.

Lemma organize_never_overwrites_witness :
  node_at (fs (organize_files "/d" false get_default_sorting_rules true tidy_world))
          ["d"; "Images"; "old.png"] = Some (a_file 11) \/
  ["d"; "Images"; "old.png"]
  = resolve tidy_world (joinpath (Path_of "/d") move_log_name) \/
  In ["d"; "Images"; "old.png"]
     (map (resolve tidy_world) (files_to_organize (Path_of "/d") tidy_world)) \/
  ["d"; "Images"; "old.png"] = error_log_path tidy_world.
Proof.
  apply (organize_never_overwrites "/d" false get_default_sorting_rules true tidy_world
           ["d"; "Images"; "old.png"] (a_file 11)).
  - apply lexicalb_sound. reflexivity.
  - intros folder extensions H. apply lexicalb_sound.
    assert (Hall : forallb (fun r => lexicalb (Path_of (fst r))) get_default_sorting_rules
                   = true) by (vm_compute; reflexivity).
    rewrite forallb_forall in Hall. exact (Hall _ H).
  - apply well_formedb_sound. vm_compute. reflexivity.
  - reflexivity.
Defined.

End LeftAlone.

(** ** What the undo does not do *)

Section UndoGuards.

(** X14.  Unless the log decodes to a non-empty array of objects,
    [undo_organization] prints one message and returns: a missing
    directory or log, a log that is not JSON or not an array, an empty
    array, and an array with one element that is not an object all end
    there, before the operator is asked and before any record, even a
    good one, is looked at.  The table of the filesystem is as it
    was; the logger has recorded a log that could not be read, and
    nothing else. *)
Theorem undo_needs_a_log_of_records (directory_path : string) (w : World) :
  lexical (Path_of directory_path) ->
  (forall moves d ds,
      load_json w (joinpath (Path_of directory_path) move_log_name) = Loaded (JArr moves) ->
      all_dicts moves <> Some (d :: ds)) ->
  exists e w',
    undo_organization directory_path w = Ret tt w' /\
    stdout w' = stdout w ++ [e] /\
    fs w' = fs w /\ stdin w' = stdin w /\
    (error_log w' = error_log w \/
     load_json w (joinpath (Path_of directory_path) move_log_name) = ReadError /\
     error_log w'
     = error_log w ++ ["Unexpected error loading move log "
                       ++ str (joinpath (Path_of directory_path) move_log_name)]%string).
Proof.
  intros _ H. unfold undo_organization, undo_run.
  destruct (negb (exists_ w (Path_of directory_path)));
    [eexists _, _; repeat split; now left|].
  destruct (negb (is_dir w (Path_of directory_path)));
    [eexists _, _; repeat split; now left|].
  destruct (negb (exists_ w (joinpath (Path_of directory_path) move_log_name)));
    [eexists _, _; repeat split; now left|].
  destruct (load_json w (joinpath (Path_of directory_path) move_log_name))
    as [[| | | |moves|]| |];
    try (eexists _, _; repeat split; now left).
  - specialize (H moves).
    destruct (all_dicts moves) as [[|d ds]|];
      try (eexists _, _; repeat split; now left).
    now contradiction (H d ds eq_refl).
  - eexists _, _. repeat split. right. split; reflexivity.
Qed.

Lemma undo_needs_a_log_of_records_witness :
  exists e w',
    undo_organization "/d" broken_log_world = Ret tt w' /\
    stdout w' = stdout broken_log_world ++ [e] /\
    fs w' = fs broken_log_world /\ stdin w' = stdin broken_log_world /\
    (error_log w' = error_log broken_log_world \/
     load_json broken_log_world (joinpath (Path_of "/d") move_log_name) = ReadError /\
     error_log w'
     = error_log broken_log_world
       ++ ["Unexpected error loading move log "
           ++ str (joinpath (Path_of "/d") move_log_name)]%string).
Proof.
  apply (undo_needs_a_log_of_records "/d" broken_log_world).
  - apply lexicalb_sound. reflexivity.
  - intros moves d ds H. vm_compute in H. injection H as <-. discriminate.
Defined.

(** X15.  The undo goes ahead on the answer [y] alone, whatever its case and
    the blanks around it: on any other line, ["yes"] included, it
    returns with the filesystem as it was. *)
Theorem undo_cancelled_unless_y (directory_path : string) (w : World)
    (line : string) (rest : list string) :
  stdin w = line :: rest ->
  Str.lower (Str.strip line) <> "y" ->
  exists w',
    undo_organization directory_path w = Ret tt w' /\
    fs w' = fs w /\
    (stdin w' = stdin w \/ stdin w' = rest).
Proof.
  intros Hin Hno. unfold undo_organization, undo_run.
  destruct (negb (exists_ w (Path_of directory_path)));
    [eexists; split; [reflexivity|]; split; [reflexivity | now left]|].
  destruct (negb (is_dir w (Path_of directory_path)));
    [eexists; split; [reflexivity|]; split; [reflexivity | now left]|].
  destruct (negb (exists_ w (joinpath (Path_of directory_path) move_log_name)));
    [eexists; split; [reflexivity|]; split; [reflexivity | now left]|].
  destruct (load_json w (joinpath (Path_of directory_path) move_log_name))
    as [[| | | |moves|]| |];
    try (eexists; split; [reflexivity|]; split; [reflexivity | now left]).
  destruct (all_dicts moves) as [[|d ds]|];
    try (eexists; split; [reflexivity|]; split; [reflexivity | now left]).
  change (stdin (print AskConfirm w)) with (stdin w). rewrite Hin.
  apply String.eqb_neq in Hno. rewrite Hno.
  eexists. split; [reflexivity|]. split; [reflexivity | now right].
Qed.

Lemma undo_cancelled_unless_y_witness :
  exists w',
    undo_organization "/d" (restorable_world ["yes"; "y"]) = Ret tt w' /\
    fs w' = fs (restorable_world ["yes"; "y"]) /\
    (stdin w' = stdin (restorable_world ["yes"; "y"]) \/ stdin w' = ["y"]).
Proof.
  apply (undo_cancelled_unless_y "/d" (restorable_world ["yes"; "y"]) "yes" ["y"]).
  - reflexivity.
  - discriminate.
Defined.

(** X16.  With a log of records to undo and standard input at its end, the
    question of the undo is answered by the [EOFError] of [input()],
    which nothing catches: the undo raises, before it has moved
    anything. *)
Theorem undo_without_input_raises (directory_path : string) (w : World)
    (moves : list json) (d : dict) (ds : list dict) :
  exists_ w (Path_of directory_path) = true ->
  is_dir w (Path_of directory_path) = true ->
  load_json w (joinpath (Path_of directory_path) move_log_name) = Loaded (JArr moves) ->
  all_dicts moves = Some (d :: ds) ->
  stdin w = [] ->
  exists w', undo_organization directory_path w = Exc EOFError w' /\ fs w' = fs w.
Proof.
  intros Hex Hdir Hload Hall Hin. unfold undo_organization, undo_run.
  rewrite Hex, Hdir. cbn [negb].
  assert (Hlog : exists_ w (joinpath (Path_of directory_path) move_log_name) = true).
  { unfold load_json in Hload. unfold exists_, fs_exists.
    now destruct (node_at (fs w) _) as [[? []|]|]. }
  rewrite Hlog, Hload, Hall. cbn [negb].
  change (stdin (print AskConfirm w)) with (stdin w). rewrite Hin.
  eexists. split; reflexivity.
Qed.

Lemma undo_without_input_raises_witness :
  exists w', undo_organization "/d" (restorable_world []) = Exc EOFError w' /\
             fs w' = fs (restorable_world []).
Proof.
  apply (undo_without_input_raises "/d" (restorable_world [])
           [JObj (a_move "/d/a.png" "/d/Images/a.png")]
           (a_move "/d/a.png" "/d/Images/a.png") []); reflexivity.
Defined.

Lemma undo_move_blocked (move : dict) (counts : nat * nat) (w : World) :
  record_blocked w move ->
  exists e, undo_move move counts w = Ret (fst counts, S (snd counts)) (print e w).
Proof.
  intros (o & n & Ho & Hn & H). unfold undo_move. rewrite Ho, Hn. unfold path_arg.
  destruct (is_absolute (Path_of o)); [|now eexists].
  destruct (is_absolute (Path_of n)); [|now eexists]. cbn [negb orb].
  destruct (exists_ w (Path_of n)); [|now eexists].
  destruct (exists_ w (Path_of o)); [now eexists|].
  destruct H as [H|[H|[H|H]]]; discriminate.
Qed.

Lemma undo_loop_blocked (moves : list dict) :
  forall (counts : nat * nat) (w : World),
    Forall (record_blocked w) moves ->
    exists printed,
      undo_loop moves counts w
      = Ret (fst counts, snd counts + List.length moves) (prints printed w).
Proof.
  induction moves as [|m r IH]; intros counts w Hall; simpl.
  - exists []. rewrite prints_nil, Nat.add_0_r. now destruct counts.
  - inversion Hall as [|? ? Hm Hr]; subst.
    destruct (undo_move_blocked m counts w Hm) as [e ->].
    destruct (IH (fst counts, S (snd counts)) (print e w)) as [l ->].
    + eapply Forall_impl; [|exact Hr]. intros d Hd. exact Hd.
    + exists (e :: l). rewrite print_as_prints, prints_prints. simpl.
      f_equal. f_equal. lia.
Qed.



End UndoGuards.

(** ** The records of the logger *)

Section Logger.

Lemma logged_since_app (w w' : World) (l : list string) :
  error_log w' = error_log w ++ l -> logged_since w w' = l.
Proof.
  intros H. unfold logged_since. rewrite H.
  now rewrite skipn_app, skipn_all, Nat.sub_diag.
Qed.

Lemma logs_on_refl (w : World) : logs_on w w.
Proof. exists []. now rewrite app_nil_r. Qed.

Lemma logs_on_trans (w1 w2 w3 : World) : logs_on w1 w2 -> logs_on w2 w3 -> logs_on w1 w3.
Proof. intros [l1 H1] [l2 H2]. exists (l1 ++ l2). now rewrite H2, H1, app_assoc. Qed.

Lemma logs_on_same (w w' : World) : error_log w' = error_log w -> logs_on w w'.
Proof. intros H. exists []. now rewrite app_nil_r. Qed.

Lemma logs_on_logged (message : string) (e : event) (w : World) :
  logs_on w (print e (log_exception message w)).
Proof. now exists [message]. Qed.

Lemma prompt_retry_from_logs (action_desc : string) (lines : list string) :
  forall w, error_log (res_world (prompt_retry_from action_desc lines w)) = error_log w.
Proof.
  induction lines as [|line rest IH]; intros w; cbn [prompt_retry_from]; [reflexivity|].
  destruct (retry_answer line); [reflexivity|]. now rewrite IH.
Qed.

Lemma prompt_retry_logs (action_desc : string) (w : World) :
  logs_on w (res_world (prompt_retry action_desc w)).
Proof. apply logs_on_same. apply prompt_retry_from_logs. Qed.

Lemma create_folder_loop_logs (fuel : nat) (folder_path : Path) :
  forall w, logs_on w (res_world (create_folder_loop fuel folder_path w)).
Proof.
  induction fuel as [|fuel IH]; intros w; cbn [create_folder_loop]; [apply logs_on_refl|].
  destruct (exists_ w folder_path); [apply logs_on_refl|].
  unfold mkdir. destruct (mkdir_parents _ _); [now apply logs_on_same|].
  match goal with |- context [prompt_retry ?d ?w1] =>
    pose proof (prompt_retry_logs d w1) as Hp;
    assert (H1 : logs_on w w1) by apply logs_on_logged;
    destruct (prompt_retry d w1) as [[|] w2|e w2]; cbn [res_world] in Hp |- *
  end.
  - eapply logs_on_trans; [|apply IH]. eapply logs_on_trans; eassumption.
  - eapply logs_on_trans; eassumption.
  - eapply logs_on_trans; eassumption.
Qed.

Lemma log_move_logs (directory original_path new_path : Path) (w : World) :
  logs_on w (log_move directory original_path new_path w).
Proof.
  destruct (log_move_cases directory original_path new_path w)
    as (w2 & _ & _ & _ & _ & _ & _ & Hlog & ->).
  assert (H2 : logs_on w w2) by (destruct Hlog as [H|H]; [now apply logs_on_same | eexists; exact H]).
  destruct (can_write _ _).
  - eapply logs_on_trans; [exact H2 | now apply logs_on_same].
  - eapply logs_on_trans; [exact H2 | apply logs_on_logged].
Qed.

(** A move that fails at once is recorded, and the record stays. *)
Lemma move_loop_logs (fuel : nat) (directory file_path target : Path)
    (target_folder : string) (size : Z) (st : Stats) :
  forall w,
    let w' := res_world (move_loop fuel directory file_path target target_folder size st w) in
    logs_on w w' /\
    (shutil_move w file_path target = None ->
     fuel <> 0 ->
     In ("OS error moving " ++ str file_path)%string (logged_since w w')).
Proof.
  induction fuel as [|fuel IH]; intros w; cbn [move_loop].
  - split; [apply logs_on_refl | congruence].
  - destruct (shutil_move w file_path target) as [w1|] eqn:Em.
    + cbn [res_world]. split; [|discriminate].
      eapply logs_on_trans; [|apply log_move_logs].
      apply logs_on_same. unfold shutil_move in Em.
      destruct (move_fs _ _ _ _); [|discriminate]. now injection Em as <-.
    + match goal with |- context [prompt_retry ?d ?w1] =>
        pose proof (prompt_retry_logs d w1) as Hp;
        assert (H1 : logs_on w w1) by apply logs_on_logged;
        assert (E1 : error_log w1 = error_log w ++ ["OS error moving " ++ str file_path]%string)
          by reflexivity;
        destruct (prompt_retry d w1) as [[|] w2|e w2]; cbn [res_world] in Hp |- *
      end.
      * destruct (IH w2) as [H2 _]. cbv zeta in H2.
        assert (H : logs_on w (res_world (move_loop fuel directory file_path target
                                            target_folder size st w2))).
        { eapply logs_on_trans; [|exact H2]. eapply logs_on_trans; eassumption. }
        split; [exact H|]. intros _ _.
        destruct Hp as [l2 Hp], H2 as [l3 H2].
        rewrite (logged_since_app w _ (["OS error moving " ++ str file_path]%string
                                       ++ l2 ++ l3)); [now left|].
        rewrite H2, Hp, E1, <- !app_assoc. reflexivity.
      * split; [eapply logs_on_trans; eassumption|]. intros _ _.
        destruct Hp as [l2 Hp].
        rewrite (logged_since_app w _ (["OS error moving " ++ str file_path]%string ++ l2));
          [now left|].
        rewrite Hp, E1, <- !app_assoc. reflexivity.
      * split; [eapply logs_on_trans; eassumption|]. intros _ _.
        destruct Hp as [l2 Hp].
        rewrite (logged_since_app w _ (["OS error moving " ++ str file_path]%string ++ l2));
          [now left|].
        rewrite Hp, E1, <- !app_assoc. reflexivity.
Qed.

End Logger.

(** ** A file in the place of a category folder *)

Section OccupiedFolder.

Lemma move_fs_below_file (f : filesystem) (ps : list string) (s c : abspath) (n : string) :
  fs_is_file f c = true ->
  fs_exists f (c ++ [n]) = false ->
  move_fs f ps s (c ++ [n]) = None.
Proof.
  intros Hfile Hnone.
  assert (Hnd : fs_is_dir f (c ++ [n]) = false).
  { unfold fs_is_dir. unfold fs_exists in Hnone.
    now destruct (node_at f (c ++ [n])) as [[]|]. }
  assert (Hpar : fs_is_dir f (removelast (c ++ [n])) = false).
  { rewrite removelast_last. unfold fs_is_dir. unfold fs_is_file in Hfile.
    now destruct (node_at f c) as [[]|]. }
  unfold move_fs. rewrite Hnd. unfold rename_to.
  destruct (node_at f s) as [[size data|]|] eqn:Es; [| |reflexivity].
  - destruct (path_eqb s (c ++ [n])) eqn:E.
    + apply path_eqb_eq in E. subst s. unfold fs_exists in Hnone.
      now rewrite Es in Hnone.
    + now rewrite Hpar.
  - destruct (is_prefix s (c ++ [n])); [reflexivity|].
    rewrite Hnone. now rewrite Hpar.
Qed.

(** X13.  When a file has the name of the category folder, a file of
    that category cannot be moved: [organize_files] asks nothing of
    [mkdir], since the path exists, the move fails at every attempt,
    and whatever the operator answers the skip counter goes up by one,
    no other counter moves and the table of the filesystem stays as it
    was.  The logger only adds to its file, and for a file that is
    there it has added the record of the failed move. *)
Theorem occupied_folder_skips (directory : Path) (rules : sorting_rules)
    (file_path : Path) (st : Stats) (w : World) :
  valid_name (name file_path) = true ->
  is_file w (joinpath directory (find_target_folder (get_file_extension file_path) rules))
  = true ->
  let r := organize_file directory false rules file_path st w in
  skipped_count (fst r) = S (skipped_count st) /\
  moved_count (fst r) = moved_count st /\
  total_size (fst r) = total_size st /\
  category_stats (fst r) = category_stats st /\
  fs (snd r) = fs w /\
  logs_on w (snd r) /\
  (is_file w file_path = true ->
   exists_ w (target_of directory rules file_path) = false ->
   In ("OS error moving " ++ str file_path)%string (logged_since w (snd r))).
Proof.
  intros Hname Hfile r.
  assert (H : fst r = skip st /\ fs (snd r) = fs w /\ logs_on w (snd r) /\
              (is_file w file_path = true ->
               exists_ w (target_of directory rules file_path) = false ->
               In ("OS error moving " ++ str file_path)%string (logged_since w (snd r)))).
  2:{ destruct H as (-> & Hfs & Hlog & Hrec). now repeat split. }
  unfold r, organize_file, target_of.
  set (target_folder := find_target_folder (get_file_extension file_path) rules) in *.
  set (target_dir := joinpath directory target_folder) in *.
  destruct (st_size w file_path) as [size|] eqn:Hsize.
  2:{ cbn [fst snd]. repeat split; [now exists ["Error processing " ++ str file_path]%string|].
      intros Hf. destruct (is_file_st_size w file_path Hf). congruence. }
  rewrite (joinpath_child target_dir _ Hname).
  destruct (exists_ w (child_path target_dir (name file_path))) eqn:Hex.
  { cbn [fst snd]. repeat split; [now apply logs_on_same | discriminate]. }
  assert (Hdir : exists_ w target_dir = true).
  { unfold is_file, fs_is_file in Hfile. unfold exists_, fs_exists.
    now destruct (node_at (fs w) (resolve w target_dir)) as [[]|]. }
  unfold create_folder_if_not_exists. cbn [create_folder_loop]. rewrite Hdir.
  assert (Hmove : shutil_move w file_path (child_path target_dir (name file_path)) = None).
  { unfold shutil_move. rewrite resolve_child, move_fs_below_file; [reflexivity|exact Hfile|].
    unfold exists_ in Hex. now rewrite resolve_child in Hex. }
  pose proof (move_loop_spec (S (List.length (stdin w))) directory file_path
                (child_path target_dir (name file_path)) target_folder size st w)
    as [_ H].
  pose proof (move_loop_logs (S (List.length (stdin w))) directory file_path
                (child_path target_dir (name file_path)) target_folder size st w)
    as [Hlog Hrec].
  cbv zeta in H, Hlog, Hrec. specialize (Hrec Hmove ltac:(discriminate)).
  fold (logged_since w (res_world (move_loop (S (List.length (stdin w))) directory file_path
                                     (child_path target_dir (name file_path))
                                     target_folder size st w))) in Hrec.
  destruct (move_loop (S (List.length (stdin w))) directory file_path
              (child_path target_dir (name file_path)) target_folder size st w)
    as [st' w'|e w']; cbn [res_world fst snd] in *.
  - destruct H as [(-> & Hfs & _)|(_ & f2 & w1 & Hm & _)].
    + now repeat split.
    + unfold shutil_move in Hmove. rewrite Hm in Hmove. discriminate.
  - destruct Hlog as [l Hl].
    assert (Hl' : error_log (error_processing file_path w')
                  = error_log w ++ l ++ ["Error processing " ++ str file_path]%string).
    { unfold error_processing. cbn [log_exception print error_log].
      now rewrite Hl, <- app_assoc. }
    repeat split; [exact H | eexists; exact Hl' |]. intros _ _.
    rewrite (logged_since_app _ _ _ Hl'). rewrite (logged_since_app _ _ _ Hl) in Hrec.
    apply in_or_app. now left.
Qed.

Lemma occupied_folder_skips_witness :
  let r := organize_file (Path_of "/d") false get_default_sorting_rules
                         (Path_of "/d/a.png") no_stats occupied_world in
  skipped_count (fst r) = 1 /\
  moved_count (fst r) = 0 /\
  total_size (fst r) = 0%Z /\
  category_stats (fst r) = [] /\
  fs (snd r) = fs occupied_world /\
  logs_on occupied_world (snd r) /\
  (is_file occupied_world (Path_of "/d/a.png") = true ->
   exists_ occupied_world
           (target_of (Path_of "/d") get_default_sorting_rules (Path_of "/d/a.png")) = false ->
   In "OS error moving /d/a.png" (logged_since occupied_world (snd r))).
Proof.
  apply (occupied_folder_skips (Path_of "/d") get_default_sorting_rules
           (Path_of "/d/a.png") no_stats occupied_world); reflexivity.
Defined.

End OccupiedFolder.

(** ** [rename_file] *)

Section RenameFile.

Lemma append_length (a b : string) :
  String.length (a ++ b) = String.length a + String.length b.
Proof. induction a as [|c a IH]; simpl; [reflexivity | now rewrite IH]. Qed.

Lemma append_inv_head (s a b : string) : (s ++ a = s ++ b)%string -> a = b.
Proof.
  induction s as [|c s IH]; simpl; intros H; [exact H|].
  injection H as H. now apply IH.
Qed.

Lemma append_inv_tail (e : string) :
  forall a b : string, (a ++ e = b ++ e)%string -> a = b.
Proof.
  induction a as [|c a IH]; intros [|d b] H; simpl in H.
  - reflexivity.
  - apply (f_equal String.length) in H. simpl in H. rewrite append_length in H. lia.
  - apply (f_equal String.length) in H. simpl in H. rewrite append_length in H. lia.
  - injection H as -> H. f_equal. now apply IH.
Qed.

Lemma decimal_inj (j k : nat) : Rename.decimal j = Rename.decimal k -> j = k.
Proof.
  unfold Rename.decimal. intros H.
  apply (f_equal DecimalString.NilEmpty.uint_of_string) in H.
  rewrite !DecimalString.NilEmpty.usu in H. injection H as H.
  now apply DecimalNat.Unsigned.to_uint_inj.
Qed.

Lemma candidate_at_inj (new_name ext : string) (j k : nat) :
  candidate_at new_name ext j = candidate_at new_name ext k -> j = k.
Proof.
  destruct j as [|j], k as [|k]; unfold candidate_at; intros H.
  - reflexivity.
  - apply append_inv_head in H. apply (f_equal String.length) in H.
    simpl in H. rewrite append_length in H. lia.
  - apply append_inv_head in H. apply (f_equal String.length) in H.
    simpl in H. rewrite append_length in H. lia.
  - apply append_inv_head in H. simpl in H. injection H as H.
    apply append_inv_tail in H. now apply decimal_inj.
Qed.

Lemma candidates_fit (new_name ext : string) (existing_names : list string) (k : nat) :
  (forall j, j < k -> In (candidate_at new_name ext j) existing_names) ->
  k <= List.length existing_names.
Proof.
  intros H.
  assert (Hnd : NoDup (map (candidate_at new_name ext) (seq 0 k))).
  { apply NoDup_map_NoDup_ForallPairs; [|apply seq_NoDup].
    intros a b _ _. apply candidate_at_inj. }
  assert (Hin : incl (map (candidate_at new_name ext) (seq 0 k)) existing_names).
  { intros x Hx. apply in_map_iff in Hx as (j & <- & Hj).
    apply in_seq in Hj. apply H. lia. }
  pose proof (NoDup_incl_length Hnd Hin) as Hle.
  now rewrite length_map, length_seq in Hle.
Qed.

Lemma first_free_spec (new_name ext : string) (existing_names : list string) :
  forall (fuel k : nat),
    (forall j, j < k -> In (candidate_at new_name ext j) existing_names) ->
    List.length existing_names < k + fuel ->
    exists m,
      Rename.first_free fuel new_name ext existing_names (S k) (candidate_at new_name ext k)
      = Some (candidate_at new_name ext m) /\
      ~ In (candidate_at new_name ext m) existing_names /\
      (forall j, j < m -> In (candidate_at new_name ext j) existing_names).
Proof.
  induction fuel as [|fuel IH]; intros k Hbelow Hfuel.
  - pose proof (candidates_fit _ _ _ _ Hbelow). lia.
  - cbn [Rename.first_free].
    destruct (Str.mem (candidate_at new_name ext k) existing_names) eqn:E.
    + apply mem_true_iff in E.
      change (new_name ++ "_" ++ Rename.decimal (S k) ++ ext)%string
        with (candidate_at new_name ext (S k)).
      apply IH; [|lia].
      intros j Hj. destruct (Nat.eq_dec j k) as [->|Hne]; [exact E|].
      apply Hbelow. lia.
    + apply mem_false_iff in E. exists k. repeat split; assumption.
Qed.

(** X19.  [rename_file] always returns: its loop ends within as many turns
    as there are names in the set, plus one.  The name returned is
    the first of the plain name, the name numbered 1, the name
    numbered 2, ... that is not in the set; it is added to the set,
    which keeps all the names it had. *)
Theorem rename_file_first_free_name (nfkd : string -> string) (date : string)
    (file_path : Path) (pattern : string) (existing_names : list string) :
  exists k,
    let candidate :=
      candidate_at (renamed_stem nfkd date file_path pattern) (suffix file_path) k in
    Rename.rename_file nfkd date file_path pattern existing_names
    = Some (candidate, candidate :: existing_names) /\
    ~ In candidate existing_names /\
    (forall j, j < k ->
       In (candidate_at (renamed_stem nfkd date file_path pattern)
                        (suffix file_path) j) existing_names) /\
    k <= List.length existing_names.
Proof.
  destruct (first_free_spec (renamed_stem nfkd date file_path pattern)
              (suffix file_path) existing_names
              (S (S (List.length existing_names))) 0) as (m & E & Hfree & Hbelow).
  - intros j Hj. lia.
  - lia.
  - exists m. cbv zeta. unfold Rename.rename_file. cbv zeta.
    fold (renamed_stem nfkd date file_path pattern).
    change (renamed_stem nfkd date file_path pattern ++ suffix file_path)%string
      with (candidate_at (renamed_stem nfkd date file_path pattern)
                         (suffix file_path) 0).
    rewrite E. repeat split; try assumption.
    now apply candidates_fit with (new_name := renamed_stem nfkd date file_path pattern)
                                  (ext := suffix file_path).
Qed.

Lemma kept_char_cleaned (c : ascii) :
  Nat.ltb (nat_of_ascii c) 128 = true ->
  Rename.kept_char c = true ->
  clean_char (Str.lower_char (if Nat.eqb (nat_of_ascii c) 32 then "_"%char else c)) = true.
Proof.
  destruct c as [[] [] [] [] [] [] [] []]; intros Ha H;
    first [reflexivity | discriminate H | discriminate Ha].
Qed.

Lemma clean_name_chars (s : string) :
  all_chars clean_char
    (Str.lower (Rename.spaces_to_underscores
                  (Rename.sub_unwanted (Rename.encode_ascii_ignore s))))
  = true.
Proof.
  induction s as [|c r IH]; [reflexivity|]. cbn [Rename.encode_ascii_ignore].
  destruct (Nat.ltb (nat_of_ascii c) 128) eqn:Ea; [|exact IH].
  cbn [Rename.sub_unwanted].
  destruct (Rename.kept_char c) eqn:E; [|exact IH].
  cbn [Rename.spaces_to_underscores Str.lower all_chars].
  now rewrite (kept_char_cleaned c Ea E), IH.
Qed.

Lemma clean_char_kept (c : ascii) :
  clean_char c = true ->
  Nat.ltb (nat_of_ascii c) 128 = true /\ Rename.kept_char c = true /\
  Nat.eqb (nat_of_ascii c) 32 = false /\ Str.lower_char c = c.
Proof.
  destruct c as [[] [] [] [] [] [] [] []]; intros H;
    first [discriminate H | repeat split; reflexivity].
Qed.

Lemma clean_name_of_clean (s : string) :
  all_chars clean_char s = true ->
  Str.lower (Rename.spaces_to_underscores
               (Rename.sub_unwanted (Rename.encode_ascii_ignore s))) = s.
Proof.
  induction s as [|c r IH]; [reflexivity|]. cbn [all_chars]. intros H.
  apply andb_prop in H as [Hc Hr].
  destruct (clean_char_kept c Hc) as (Ha & Hk & Hb & Hl).
  cbn [Rename.encode_ascii_ignore]. rewrite Ha.
  cbn [Rename.sub_unwanted]. rewrite Hk.
  cbn [Rename.spaces_to_underscores]. rewrite Hb.
  cbn [Str.lower]. now rewrite Hl, (IH Hr).
Qed.

Lemma replace_without_brace (old new s : string) :
  all_chars clean_char s = true ->
  Rename.replace_from (String "{" old) new 0 s = s.
Proof.
  induction s as [|c r IH]; [reflexivity|]. cbn [all_chars]. intros H.
  apply andb_prop in H as [Hc Hr]. cbn [Rename.replace_from String.prefix].
  destruct (ascii_dec "{" c) as [<-|_]; [discriminate Hc|].
  now rewrite (IH Hr).
Qed.

Lemma append_empty (s : string) : (s ++ "")%string = s.
Proof. induction s as [|c r IH]; simpl; [reflexivity | now rewrite IH]. Qed.

(** X20.  With the pattern [{clean}] and no name taken, [rename_file]
    returns the clean name of the file followed by its extension as
    it is.  The clean name is what is left of the normalized stem
    once the characters that are not ASCII, then those that are
    neither word characters, white space nor [-] are dropped, the
    blanks turned into [_] and the letters lower-cased; it is made
    of digits, lower-case letters, [_], [-] and white space other
    than the blank alone (tabs and line ends stay), and it is the
    normalized stem itself when that is made of such characters. *)
Theorem clean_pattern_gives_clean_name (nfkd : string -> string) (date : string)
    (file_path : Path) :
  let clean_name :=
    Str.lower (Rename.spaces_to_underscores
                 (Rename.sub_unwanted
                    (Rename.encode_ascii_ignore (nfkd (Rename.stem file_path))))) in
  Rename.rename_file nfkd date file_path "{clean}" []
  = Some ((clean_name ++ suffix file_path)%string,
          [(clean_name ++ suffix file_path)%string]) /\
  all_chars clean_char clean_name = true /\
  (all_chars clean_char (nfkd (Rename.stem file_path)) = true ->
   clean_name = nfkd (Rename.stem file_path)).
Proof.
  cbv zeta. split; [|split; [apply clean_name_chars | apply clean_name_of_clean]].
  unfold Rename.rename_file. cbv zeta.
  change (Rename.replace "{date}" date "{clean}") with "{clean}".
  match goal with |- context [Rename.replace "{clean}" ?c "{clean}"] =>
    change (Rename.replace "{clean}" c "{clean}") with (c ++ "")%string
  end.
  rewrite append_empty. unfold Rename.replace.
  rewrite !replace_without_brace by apply clean_name_chars.
  reflexivity.
Qed.

Lemma clean_pattern_gives_clean_name_witness :
  Rename.rename_file (fun s => s) "2024-01-01_00-00-00" (Path_of "/d/my-photo_1.JPG")
                     "{clean}" []
  = Some ("my-photo_1.JPG", ["my-photo_1.JPG"]).
Proof.
  pose proof (clean_pattern_gives_clean_name (fun s => s) "2024-01-01_00-00-00"
                (Path_of "/d/my-photo_1.JPG")) as [H [_ Hid]].
  rewrite (Hid eq_refl) in H. exact H.
Defined.

End RenameFile.

(** ** The log after the undo *)

Section LogAfterUndo.

Variables (directory_path : string) (rules : sorting_rules).
Hypothesis Hproper : proper_categories rules.
Hypothesis Habs : is_absolute (Path_of directory_path) = true.

Lemma Forall2_logged (names : list string) (ds : list dict) :
  Forall2 (logged_as (Path_of directory_path) rules) names ds ->
  forall d, In d ds ->
    exists n, In n names /\ logged_as (Path_of directory_path) rules n d.
Proof.
  induction 1 as [|n d names ds Hnd _ IH]; intros d' Hd'; [destruct Hd'|].
  destruct Hd' as [<-|Hd'].
  - exists n. split; [now left | exact Hnd].
  - destruct (IH d' Hd') as (m & Hm & Hlog). exists m. split; [now right | exact Hlog].
Qed.


End LogAfterUndo.


(** ** The default rules *)

Section DefaultRules.

Lemma default_rules_checked :
  forallb (fun r =>
             forallb (fun e => String.eqb (find_target_folder e get_default_sorting_rules)
                                          (fst r))
                     (snd r))
          get_default_sorting_rules = true.
Proof. vm_compute. reflexivity. Qed.

(** X21.  No extension is listed twice in the default rules: every
    extension a default category lists leads to that category, so the
    order of the categories decides nothing. *)
Theorem default_rules_do_not_overlap (folder : string) (extensions : list string)
    (ext : string) :
  In (folder, extensions) get_default_sorting_rules ->
  In ext extensions ->
  find_target_folder ext get_default_sorting_rules = folder.
Proof.
  intros Hr He. pose proof default_rules_checked as H.
  rewrite forallb_forall in H. specialize (H _ Hr).
  rewrite forallb_forall in H. specialize (H _ He).
  now apply String.eqb_eq in H.
Qed.

Lemma default_rules_do_not_overlap_witness :
  find_target_folder ".json" get_default_sorting_rules = "Code".
Proof.
  apply (default_rules_do_not_overlap "Code"
           (snd (nth 5 get_default_sorting_rules ("", []))) ".json").
  - vm_compute. do 5 right. left. reflexivity.
  - vm_compute. do 19 right. left. reflexivity.
Defined.

End DefaultRules.

(** ** The configuration file *)

Section Configuration.

Lemma valid_name_not_for_directory (s : string) :
  valid_name s = true -> asks_for_directory s = false.
Proof.
  intros H. pose proof (valid_name_clean _ H) as Hc. unfold asks_for_directory.
  rewrite (split_on_no_sep _ (clean_part_no_sep _ Hc)). simpl.
  now rewrite (clean_part_kept _ Hc).
Qed.

(** X22.  A configuration given by a bare file name is read from the
    working directory of the process, not from the directory that is
    organized, and the JSON value in it is returned as the rules
    without any check of its shape, with no message. *)
Theorem config_is_read_from_working_directory (config_name : string) (w : World)
    (size : Z) (j : json) :
  valid_name config_name = true ->
  node_at (fs w) (cwd w ++ [config_name]) = Some (File size (Json j)) ->
  load_sorting_rules config_name w = (j, []).
Proof.
  intros Hn Hnode. unfold load_sorting_rules. cbv zeta.
  rewrite (Path_of_valid_name _ Hn). unfold resolve, is_absolute. cbn [anchor_of parts].
  rewrite Hnode, (valid_name_not_for_directory _ Hn).
  destruct (String.eqb config_name "") eqn:E; [|reflexivity].
  apply String.eqb_eq in E. subst. discriminate Hn.
Qed.

Lemma config_is_read_from_working_directory_witness :
  load_sorting_rules "config.json" config_world = (JNum 5, []).
Proof.
  apply (config_is_read_from_working_directory "config.json" config_world 1 (JNum 5));
    reflexivity.
Defined.

End Configuration.
